(** * IMDB ingestion pipeline: a shallow embedding of the orchestrator

    The Python modules [ingestion/config.py], [ingestion/utils.py],
    [ingestion/ingest.py] and the function [execute_sql] of
    [app/bigquery_tool.py] are rendered as functions in a state-and-exception
    monad over a model of the local file system.  Remote services (HTTP,
    pandas, Cloud Storage, BigQuery) are an environment [Env] of oracles whose
    answers may depend on the history of calls made so far.

    The conversational front end is rendered as well: [get_schema] and
    [format_schema_for_llm] of [app/bigquery_tool.py]; [create_system_prompt]
    and [run_agent] of [app/agent.py], in a second monad whose state adds the
    requests sent to the model; [ConversationStats] and [count_tokens] of
    [app/stats.py].

    Modelling conventions.  The local file system is a finite map from paths
    to contents: creating, writing and unlinking a file succeed, and reading a
    missing file raises [FileNotFoundError]; directories are not rendered,
    and a path is the string the code builds for it.  [logs] holds the
    records handed to the logger, whatever level the handlers are set to, as
    structured messages in place of formatted text.  [calls] is a trace of
    the functions entered and of the requests made to the services.
    Floating-point quotients are exact rationals. *)

From Stdlib Require Import Ascii QArith.
From stdpp Require Import gmap strings list fin_maps.

Open Scope Z_scope.

(** ** Python exceptions *)

(** The exception classes that occur in the modelled modules.  Every one of
    them derives from [Exception]; interrupts of the interpreter
    ([KeyboardInterrupt], [SystemExit]) are outside the model. *)
Inductive ExnClass :=
  | Exception | OSError | FileNotFoundError | RequestException
  | ValueError | ParserError | ZeroDivisionError
  | GoogleCloudError | NotFound | Conflict.

#[global] Instance ExnClass_eq_dec : EqDecision ExnClass.
Proof. solve_decision. Defined.

(** Method resolution order: the class followed by its ancestors. *)
Definition mro (c : ExnClass) : list ExnClass :=
  match c with
  | Exception => [Exception]
  | OSError => [OSError; Exception]
  | FileNotFoundError => [FileNotFoundError; OSError; Exception]
  | RequestException => [RequestException; OSError; Exception]
  | ValueError => [ValueError; Exception]
  | ParserError => [ParserError; ValueError; Exception]
  | ZeroDivisionError => [ZeroDivisionError; Exception]
  | GoogleCloudError => [GoogleCloudError; Exception]
  | NotFound => [NotFound; GoogleCloudError; Exception]
  | Conflict => [Conflict; GoogleCloudError; Exception]
  end.

Definition issubclass (c d : ExnClass) : bool := bool_decide (d ∈ mro c).

Record Exn := mkExn { exn_class : ExnClass; exn_str : string }.

Definition isinstance (e : Exn) (c : ExnClass) : bool :=
  issubclass (exn_class e) c.

(** ** Data exchanged with the outside world *)

Definition Path := string.

(** [folder / name] of pathlib, for a [name] of one component; what pathlib
    does to a [name] that holds a slash (dropping [.] and empty components,
    letting an absolute name replace the folder) is not rendered. *)
Definition path_join (folder : Path) (name : string) : Path :=
  folder +:+ "/" +:+ name.

(** A header whose value is passed to [int]. *)
Inductive Header := HdrAbsent | HdrBad (raw : string) | HdrInt (n : Z).

Record Response := mkResponse {
  status_error : option Exn;     (* what [raise_for_status] raises, if anything *)
  content_length : Header;
  body : list string;            (* chunks yielded by [iter_content] *)
  body_error : option Exn        (* raised by the stream after those chunks *)
}.

Record DataFrame := mkDataFrame {
  columns : list string;
  rows : list (list (option string))
}.

(** What [DataFrame.to_parquet] does to its destination and how it ends. *)
Record ParquetWrite := mkParquetWrite {
  pq_written : option string;
  pq_error : option Exn
}.

Inductive Call :=
  | process_table_call (table : string) (force_download skip_bigquery : bool)
  | process_table_return (table : string) (success : bool)
  | download_file_call (url : string) (destination : Path)
  | convert_to_parquet_call (tsv_path parquet_path : Path) (compression : string)
  | upload_to_gcs_call (local_path : Path) (gcs_path : string)
  | load_to_bigquery_call (gcs_uri dataset_id table_id write_disposition : string)
  | ensure_dataset_exists_call (dataset_id location : string)
  | cleanup_local_files_call (keep_parquet : bool)
  | execute_sql_call (sql_query : string)
  | requests_get_call (url : string)
  | blob_upload_call (bucket_name gcs_path : string) (local_path : Path)
  | get_dataset_call (dataset_ref : string)
  | create_dataset_call (dataset_ref location : string)
  | load_table_from_uri_call (gcs_uri table_ref write_disposition : string)
  | job_result_call (job_id : string)
  | get_table_call (table_ref : string)
  | query_call (sql_query : string).

#[global] Instance Call_eq_dec : EqDecision Call.
Proof. solve_decision. Defined.

Record QueryJob := mkQueryJob {
  query_result : Exn + DataFrame;          (* [result()] then [to_dataframe()] *)
  total_bytes_processed : option Z
}.

(** The collaborators the pipeline drives but does not implement. *)
Record Env := mkEnv {
  requests_get : list Call → string → Exn + Response;
  pd_read_csv : string → Exn + DataFrame;
  df_to_parquet : DataFrame → string → ParquetWrite;
  credentials_from_file : list Call → string → option Exn;
  blob_upload : list Call → string → string → string → option Exn;
  bq_get_dataset : list Call → string → option Exn;
  bq_create_dataset : list Call → string → string → option Exn;
  bq_load_table_from_uri : list Call → string → string → string → Exn + string;
  bq_job_result : list Call → string → option Exn;
  bq_get_table : list Call → string → Exn + Z;
  bq_query : list Call → string → Exn + QueryJob
}.

(** ** Logging *)

Inductive Level := DEBUG | INFO | WARNING | ERROR.

Inductive Msg :=
  | Banner
  | Text (s : string)
  | Processing_table (table : string)
  | Skipping_download (raw_path : Path)
  | Skipping_conversion (parquet_path : Path)
  | Successfully_processed (table : string)
  | Failed_to_process (table : string) (e : Exn)
  | Project (project_id : string)
  | Bucket (bucket_name : string)
  | Dataset (bronze_dataset : string)
  | Tables_to_process (n : Z)
  | Force_download (b : bool)
  | Skip_BigQuery (b : bool)
  | Tables (ts : list string)
  | Starting (i n : Z) (table : string)
  | Successful (k n : Z)
  | Failed (k n : Z)
  | Item (table : string)
  | Configuration_error (e : Exn)
  | Downloading (url : string) (destination : Path)
  | Progress (downloaded_size total_size : Z)
  | Download_complete (destination : Path)
  | Download_failed (e : Exn)
  | Converting (tsv_path parquet_path : Path)
  | Read_rows (n_rows n_columns : Z)
  | Conversion_complete (parquet_path : Path) (compression_ratio : Q)
  | Conversion_failed (e : Exn)
  | Uploading (local_path : Path) (bucket_name gcs_path : string)
  | Upload_complete (gcs_uri : string)
  | Upload_failed (e : Exn)
  | Dataset_already_exists (dataset_ref : string)
  | Creating_dataset (dataset_ref : string)
  | Dataset_created (dataset_ref : string)
  | Dataset_check_failed (e : Exn)
  | Loading (gcs_uri dataset_id table_id : string)
  | Job_started (job_id : string)
  | Load_complete (num_rows : Z) (table_ref : string)
  | Load_failed (e : Exn)
  | Deleted (file : Path).

(** ** The state of a run *)

Record World := mkWorld {
  fs : gmap Path string;       (* local files and their contents *)
  calls : list Call;           (* calls made so far, and what [process_table]
                                  returned, oldest first *)
  logs : list (Level * Msg)    (* log records emitted so far, oldest first *)
}.

(** ** State-and-exception monad *)

Inductive Res (A : Type) := Ok (a : A) | Raise (e : Exn).
Arguments Ok {A} a.
Arguments Raise {A} e.

Definition M (A : Type) : Type := World → Res A * World.

#[global] Instance M_ret : MRet M := λ A a w, (Ok a, w).

#[global] Instance M_bind : MBind M := λ A B k c w,
  match c w with
  | (Ok a, w') => k a w'
  | (Raise e, w') => (Raise e, w')
  end.

Definition raise {A} (e : Exn) : M A := λ w, (Raise e, w).

(** [try: body except c1: h1 except c2: h2 ...]: the first clause whose
    class the exception is an instance of handles it; an exception raised by
    a handler is not offered to the later clauses. *)
Fixpoint select_clause {A} (e : Exn) (clauses : list (ExnClass * (Exn → M A)))
    : option (M A) :=
  match clauses with
  | [] => None
  | (c, h) :: rest => if isinstance e c then Some (h e) else select_clause e rest
  end.

Definition try_except {A} (body : M A) (clauses : list (ExnClass * (Exn → M A)))
    : M A :=
  λ w, match body w with
       | (Ok a, w') => (Ok a, w')
       | (Raise e, w') =>
           match select_clause e clauses with
           | Some h => h w'
           | None => (Raise e, w')
           end
       end.

Definition get_fs : M (gmap Path string) := λ w, (Ok (fs w), w).

(** The file at [p] is created or replaced, with [content]. *)
Definition write_file (p : Path) (content : string) : M unit :=
  λ w, (Ok tt, mkWorld (<[p := content]> (fs w)) (calls w) (logs w)).

(** [Path.unlink()] *)
Definition unlink (file : Path) : M unit :=
  λ w, (Ok tt, mkWorld (delete file (fs w)) (calls w) (logs w)).

Definition get_calls : M (list Call) := λ w, (Ok (calls w), w).

Definition call (c : Call) : M unit :=
  λ w, (Ok tt, mkWorld (fs w) (calls w ++ [c]) (logs w)).

Definition log (l : Level) (m : Msg) : M unit :=
  λ w, (Ok tt, mkWorld (fs w) (calls w) (logs w ++ [(l, m)])).

Definition lift_sum {A} (r : Exn + A) : M A :=
  match r with inl e => raise e | inr a => mret a end.

Definition lift_err (r : option Exn) : M unit :=
  match r with Some e => raise e | None => mret tt end.

(** [Path.exists()] of a path that names a file or nothing; directories are
    not rendered. *)
Definition path_exists (p : Path) : M bool :=
  f ← get_fs; mret (bool_decide (is_Some (f !! p))).

(** [Path.stat().st_size] *)
Definition stat_size (p : Path) : M Z :=
  f ← get_fs ;
  match f !! p with
  | Some content => mret (Z.of_nat (String.length content))
  | None => raise (mkExn FileNotFoundError p)
  end.

(** [open(p, "wb")]: the file is created, or truncated when it exists; that
    the folder may be missing or the disk full is not rendered. *)
Definition open_wb (p : Path) : M unit := write_file p "".

(** [f.write(chunk)] on the file opened at [p]. *)
Definition file_write (p : Path) (chunk : string) : M unit :=
  f ← get_fs; write_file p (default "" (f !! p) +:+ chunk).

(** Truthiness of a Python string or bytes object. *)
Definition truthy (s : string) : bool := negb (bool_decide (s = "")).

Definition len_str (s : string) : Z := Z.of_nat (String.length s).

Definition len {A} (l : list A) : Z := Z.of_nat (length l).

Definition newline : string := String (Ascii.ascii_of_nat 10) "".

Fixpoint join (sep : string) (l : list string) : string :=
  match l with
  | [] => ""
  | [x] => x
  | x :: rest => x +:+ sep +:+ join sep rest
  end.

(** [s.replace(old, new)] for one-character [old] and [new]. *)
Fixpoint replace_char (old new : Ascii.ascii) (s : string) : string :=
  match s with
  | EmptyString => EmptyString
  | String c rest =>
      String (if bool_decide (c = old) then new else c) (replace_char old new rest)
  end.

Fixpoint strip_prefix (p s : string) : option string :=
  match p, s with
  | EmptyString, _ => Some s
  | String a p', String b s' =>
      if bool_decide (a = b) then strip_prefix p' s' else None
  | String _ _, EmptyString => None
  end.

(** [s.endswith(suffix)] *)
Definition endswith (s suffix : string) : bool :=
  bool_decide (String.list_ascii_of_string suffix `suffix_of` String.list_ascii_of_string s).

(** ** ingestion/config.py *)

Module Config.

(** The settings read from the process environment when the module is
    imported. *)
Record t := mk {
  project_id : string;
  bucket_name : string;
  bronze_dataset : string;
  silver_dataset : string;
  region : string;
  credentials_path : Path;
  base_url : string;
  raw_data_folder : Path;
  parquet_data_folder : Path
}.

(** The values used when the environment sets none of them. *)
Definition defaults : t := {|
  project_id := "ensai-2026";
  bucket_name := "imdb-data-id2608";
  bronze_dataset := "bronze_id2608";
  silver_dataset := "silver_id2608";
  region := "EU";
  credentials_path := "./credentials.json";
  base_url := "https://datasets.imdbws.com/";
  raw_data_folder := "data/raw";
  parquet_data_folder := "data/parquet"
|}.

Definition tables : list string :=
  [ "name.basics"; "title.akas"; "title.basics"; "title.crew";
    "title.episode"; "title.principals"; "title.ratings" ].

Definition startswith (s p : string) : bool := String.prefix p s.

Definition validate (cfg : t) : M unit :=
  let required_vars :=
    [ ("GCP_PROJECT_ID", project_id cfg); ("GCS_BUCKET_NAME", bucket_name cfg) ] in
  let missing_vars :=
    (filter (λ kv, negb (truthy kv.2) || startswith kv.2 "your-" = true)
            required_vars).*1 in
  if negb (bool_decide (missing_vars = [])) then
    raise (mkExn ValueError
      ("Missing required environment variables: " +:+ join ", " missing_vars
       +:+ newline
       +:+ "Please copy .env.template to .env and fill in your values."))
  else
    present ← path_exists (credentials_path cfg);
    if negb present then
      raise (mkExn FileNotFoundError
        ("Credentials file not found: " +:+ credentials_path cfg +:+ newline
         +:+ "Please download your service account key from GCP Console and "
         +:+ "place it at this location."))
    else mret tt.

Definition get_table_filename (table : string) : string :=
  table +:+ ".tsv.gz".

Definition get_table_id (table : string) : string :=
  replace_char "."%char "_"%char table.

Definition get_gcs_path (table : string) : string :=
  let table_id := get_table_id table in
  "imdb/" +:+ table_id +:+ "/" +:+ table_id +:+ ".parquet".

Definition get_gcs_uri (cfg : t) (table : string) : string :=
  "gs://" +:+ bucket_name cfg +:+ "/" +:+ get_gcs_path table.

End Config.

(** ** ingestion/utils.py *)

Section Utils.

Context (env : Env) (cfg : Config.t).

(** The body of [for chunk in response.iter_content(...)], with
    [downloaded_size] threaded through. *)
Fixpoint write_chunks (destination : Path) (chunk_size total_size : Z)
    (chunks : list string) (downloaded_size : Z) : M Z :=
  match chunks with
  | [] => mret downloaded_size
  | chunk :: rest =>
      if truthy chunk then
        file_write destination chunk;;
        let downloaded_size := downloaded_size + len_str chunk in
        (if bool_decide (downloaded_size `mod` (10 * 1024 * 1024) < chunk_size)
         then log INFO (Progress downloaded_size total_size)
         else mret tt);;
        write_chunks destination chunk_size total_size rest downloaded_size
      else write_chunks destination chunk_size total_size rest downloaded_size
  end.

(** [int(response.headers.get("content-length", 0))] *)
Definition int_content_length (response : Response) : M Z :=
  match content_length response with
  | HdrAbsent => mret 0
  | HdrInt n => mret n
  | HdrBad raw =>
      raise (mkExn ValueError ("invalid literal for int() with base 10: " +:+ raw))
  end.

Definition download_file (url : string) (destination : Path)
    (chunk_size : Z) : M unit :=
  call (download_file_call url destination);;
  log INFO (Downloading url destination);;
  try_except
    (history ← get_calls;
     call (requests_get_call url);;
     response ← lift_sum (requests_get env history url);
     lift_err (status_error response);;
     total_size ← int_content_length response;
     open_wb destination;;
     write_chunks destination chunk_size total_size (body response) 0;;
     lift_err (body_error response);;
     log INFO (Download_complete destination))
    [ (RequestException,
       λ e, log ERROR (Download_failed e);; raise e) ].

(** [(1 - parquet_size / original_size) * 100], with exact rationals in
    place of floating point. *)
Definition compression_ratio (parquet_size original_size : Z) : M Q :=
  if bool_decide (original_size = 0) then
    raise (mkExn ZeroDivisionError "division by zero")
  else
    mret ((1 - inject_Z parquet_size / inject_Z original_size) * 100)%Q.

Definition read_csv (tsv_path : Path) : M DataFrame :=
  f ← get_fs;
  match f !! tsv_path with
  | None => raise (mkExn FileNotFoundError tsv_path)
  | Some content => lift_sum (pd_read_csv env content)
  end.

Definition to_parquet (df : DataFrame) (parquet_path : Path)
    (compression : string) : M unit :=
  let outcome := df_to_parquet env df compression in
  match pq_written outcome with
  | Some content => write_file parquet_path content
  | None => mret tt
  end;;
  lift_err (pq_error outcome).

Definition convert_to_parquet (tsv_path parquet_path : Path)
    (compression : string) : M unit :=
  call (convert_to_parquet_call tsv_path parquet_path compression);;
  log INFO (Converting tsv_path parquet_path);;
  try_except
    (df ← read_csv tsv_path;
     log INFO (Read_rows (len (rows df)) (len (columns df)));;
     to_parquet df parquet_path compression;;
     original_size ← stat_size tsv_path;
     parquet_size ← stat_size parquet_path;
     ratio ← compression_ratio parquet_size original_size;
     log INFO (Conversion_complete parquet_path ratio))
    [ (Exception,
       λ e, log ERROR (Conversion_failed e);; raise e) ].

(** [service_account.Credentials.from_service_account_file] followed by
    the construction of a client. *)
Definition get_client : M unit :=
  f ← get_fs;
  history ← get_calls;
  match f !! Config.credentials_path cfg with
  | None => raise (mkExn FileNotFoundError (Config.credentials_path cfg))
  | Some content => lift_err (credentials_from_file env history content)
  end.

Definition get_gcs_client : M unit := get_client.

Definition get_bigquery_client : M unit := get_client.

(** [blob.upload_from_filename(str(local_path))] *)
Definition upload_from_filename (bucket_name gcs_path : string)
    (local_path : Path) : M unit :=
  history ← get_calls;
  call (blob_upload_call bucket_name gcs_path local_path);;
  f ← get_fs;
  match f !! local_path with
  | None => raise (mkExn FileNotFoundError local_path)
  | Some content => lift_err (blob_upload env history bucket_name gcs_path content)
  end.

Definition upload_to_gcs (local_path : Path) (gcs_path : string)
    (bucket_name : option string) : M string :=
  call (upload_to_gcs_call local_path gcs_path);;
  let bucket_name :=
    match bucket_name with
    | Some b => if truthy b then b else Config.bucket_name cfg
    | None => Config.bucket_name cfg
    end in
  log INFO (Uploading local_path bucket_name gcs_path);;
  try_except
    (get_gcs_client;;
     upload_from_filename bucket_name gcs_path local_path;;
     let gcs_uri := "gs://" +:+ bucket_name +:+ "/" +:+ gcs_path in
     log INFO (Upload_complete gcs_uri);;
     mret gcs_uri)
    [ (Exception,
       λ e, log ERROR (Upload_failed e);; raise e) ].

Definition ensure_dataset_exists (dataset_id location : string) : M unit :=
  call (ensure_dataset_exists_call dataset_id location);;
  get_bigquery_client;;
  let dataset_ref := Config.project_id cfg +:+ "." +:+ dataset_id in
  try_except
    (history ← get_calls;
     call (get_dataset_call dataset_ref);;
     lift_err (bq_get_dataset env history dataset_ref);;
     log INFO (Dataset_already_exists dataset_ref))
    [ (NotFound,
       λ _, log INFO (Creating_dataset dataset_ref);;
            history ← get_calls;
            call (create_dataset_call dataset_ref location);;
            lift_err (bq_create_dataset env history dataset_ref location);;
            log INFO (Dataset_created dataset_ref));
      (Exception,
       λ e, log ERROR (Dataset_check_failed e);; raise e) ].

Definition load_to_bigquery (gcs_uri dataset_id table_id write_disposition : string)
    : M unit :=
  call (load_to_bigquery_call gcs_uri dataset_id table_id write_disposition);;
  log INFO (Loading gcs_uri dataset_id table_id);;
  try_except
    (get_bigquery_client;;
     let table_ref :=
       Config.project_id cfg +:+ "." +:+ dataset_id +:+ "." +:+ table_id in
     ensure_dataset_exists dataset_id "EU";;
     history ← get_calls;
     call (load_table_from_uri_call gcs_uri table_ref write_disposition);;
     job_id ← lift_sum
       (bq_load_table_from_uri env history gcs_uri table_ref write_disposition);
     log INFO (Job_started job_id);;
     history ← get_calls;
     call (job_result_call job_id);;
     lift_err (bq_job_result env history job_id);;
     history ← get_calls;
     call (get_table_call table_ref);;
     num_rows ← lift_sum (bq_get_table env history table_ref);
     log INFO (Load_complete num_rows table_ref))
    [ (Exception,
       λ e, log ERROR (Load_failed e);; raise e) ].

(** [name] matches the pattern [*suffix] and lies directly in [folder]. *)
Definition glob_match (folder : Path) (suffix : string) (p : Path) : bool :=
  match strip_prefix (folder +:+ "/") p with
  | Some name =>
      negb (bool_decide ("/"%char ∈ String.list_ascii_of_string name))
      && endswith name suffix
  | None => false
  end.

(** [folder.glob("*" + suffix)]; the order of a directory listing is that
    of the underlying map. *)
Definition glob (folder : Path) (suffix : string) : M (list Path) :=
  f ← get_fs;
  mret (filter (λ p, glob_match folder suffix p = true) (map_to_list f).*1).

Fixpoint unlink_each (files : list Path) : M unit :=
  match files with
  | [] => mret tt
  | file :: rest =>
      unlink file;;
      log INFO (Deleted file);;
      unlink_each rest
  end.

Definition cleanup_local_files (keep_parquet : bool) : M unit :=
  call (cleanup_local_files_call keep_parquet);;
  log INFO (Text "Cleaning up local files");;
  files ← glob (Config.raw_data_folder cfg) ".tsv.gz";
  unlink_each files;;
  (if negb keep_parquet then
     files ← glob (Config.parquet_data_folder cfg) ".parquet";
     unlink_each files
   else mret tt);;
  log INFO (Text "Cleanup complete").

End Utils.

(** ** ingestion/ingest.py *)

(** [results[table] = success] on an insertion-ordered dictionary. *)
Fixpoint dict_set (results : list (string * bool)) (table : string)
    (success : bool) : list (string * bool) :=
  match results with
  | [] => [(table, success)]
  | (t, s) :: rest =>
      if bool_decide (t = table) then (t, success) :: rest
      else (t, s) :: dict_set rest table success
  end.

Fixpoint dict_get (results : list (string * bool)) (table : string) : option bool :=
  match results with
  | [] => None
  | (t, s) :: rest =>
      if bool_decide (t = table) then Some s else dict_get rest table
  end.

Section Ingest.

Context (env : Env) (cfg : Config.t).

(** The [try] suite of [process_table]. *)
Definition process_table_try (table : string)
    (force_download skip_bigquery : bool) : M bool :=
  let filename := Config.get_table_filename table in
  let raw_path := path_join (Config.raw_data_folder cfg) filename in
  let download_url := Config.base_url cfg +:+ filename in
  fetch ← (if force_download then mret true
           else present ← path_exists raw_path; mret (negb present));
  (if fetch : bool then download_file env download_url raw_path 8192
   else log INFO (Skipping_download raw_path));;
  let table_id := Config.get_table_id table in
  let parquet_path :=
    path_join (Config.parquet_data_folder cfg) (table_id +:+ ".parquet") in
  convert ← (if force_download then mret true
             else present ← path_exists parquet_path; mret (negb present));
  (if convert : bool then convert_to_parquet env raw_path parquet_path "snappy"
   else log INFO (Skipping_conversion parquet_path));;
  let gcs_path := Config.get_gcs_path table in
  gcs_uri ← upload_to_gcs env cfg parquet_path gcs_path None;
  (if negb skip_bigquery then
     load_to_bigquery env cfg gcs_uri (Config.bronze_dataset cfg) table_id
       "WRITE_TRUNCATE"
   else log INFO (Text "Skipping BigQuery load (--skip-bigquery flag)"));;
  log INFO (Successfully_processed table);;
  call (process_table_return table true);;
  mret true.

Definition process_table (table : string) (force_download skip_bigquery : bool)
    : M bool :=
  call (process_table_call table force_download skip_bigquery);;
  log INFO Banner;;
  log INFO (Processing_table table);;
  log INFO Banner;;
  try_except (process_table_try table force_download skip_bigquery)
    [ (Exception,
       λ e, log ERROR (Failed_to_process table e);;
            call (process_table_return table false);;
            mret false) ].

(** The [for i, table in enumerate(tables, 1)] loop of [run_pipeline];
    [n] is [len(tables)] of the whole list. *)
Fixpoint process_tables (i n : Z) (tables : list string)
    (force_download skip_bigquery fail_fast : bool)
    (results : list (string * bool)) : M (list (string * bool)) :=
  match tables with
  | [] => mret results
  | table :: rest =>
      log INFO (Starting i n table);;
      success ← process_table table force_download skip_bigquery;
      let results := dict_set results table success in
      if negb success && fail_fast then
        log ERROR (Text "Stopping due to failure (--fail-fast enabled)");;
        mret results
      else
        process_tables (i + 1) n rest force_download skip_bigquery fail_fast results
  end.

Fixpoint log_items (l : Level) (tables : list string) : M unit :=
  match tables with
  | [] => mret tt
  | table :: rest => log l (Item table);; log_items l rest
  end.

(** [tables or Config.tables] *)
Definition tables_or_default (tables : option (list string)) : list string :=
  match tables with
  | Some (t :: rest) => t :: rest
  | Some [] | None => Config.tables
  end.

(** Lines 128-156 of [run_pipeline]: the tables are resolved and processed;
    the value is the [results] dictionary the rest of the function reads. *)
Definition run_tables (tables : option (list string))
    (force_download skip_bigquery fail_fast : bool) : M (list (string * bool)) :=
  let tables := tables_or_default tables in
  log INFO Banner;;
  log INFO (Text "IMDB Data Ingestion Pipeline");;
  log INFO Banner;;
  log INFO (Project (Config.project_id cfg));;
  log INFO (Bucket (Config.bucket_name cfg));;
  log INFO (Dataset (Config.bronze_dataset cfg));;
  log INFO (Tables_to_process (len tables));;
  log INFO (Force_download force_download);;
  log INFO Banner;;
  process_tables 1 (len tables) tables force_download skip_bigquery fail_fast [].

(** Lines 158-189 of [run_pipeline]: summary, cleanup and exit code. *)
Definition finish_run (results : list (string * bool)) (cleanup : bool) : M Z :=
  log INFO Banner;;
  log INFO (Text "Pipeline Summary");;
  log INFO Banner;;
  let successful := (filter (λ ts, ts.2 = true) results).*1 in
  let failed := (filter (λ ts, ts.2 = false) results).*1 in
  log INFO (Successful (len successful) (len results));;
  log_items INFO successful;;
  (if negb (bool_decide (failed = [])) then
     log ERROR (Failed (len failed) (len results));;
     log_items ERROR failed
   else mret tt);;
  (if cleanup && bool_decide (failed = []) then
     log INFO (Text "Cleaning up local files...");;
     cleanup_local_files cfg true
   else mret tt);;
  if bool_decide (failed = []) then
    log INFO (Text "All tables processed successfully!");;
    mret 0
  else if negb (bool_decide (successful = [])) then
    log WARNING (Text "Pipeline completed with some failures");;
    mret 1
  else
    log ERROR (Text "Pipeline failed completely");;
    mret 2.

Definition run_pipeline (tables : option (list string))
    (force_download skip_bigquery fail_fast cleanup : bool) : M Z :=
  results ← run_tables tables force_download skip_bigquery fail_fast;
  finish_run results cleanup.

(** The command-line entry point; the value is the status passed to
    [sys.exit].  [verbose] only lowers the level of the root logger. *)
Definition main (force_download skip_bigquery : bool) (tables : list string)
    (fail_fast cleanup dry_run verbose : bool) : M Z :=
  let on_error := λ e, log ERROR (Configuration_error e);; mret (Some 2) in
  exited ← try_except (Config.validate cfg;; mret None)
              [ (ValueError, on_error); (FileNotFoundError, on_error) ];
  match exited with
  | Some status => mret status
  | None =>
      if dry_run then
        log INFO (Text "DRY RUN MODE - No changes will be made");;
        log INFO (Text "Configuration:");;
        log INFO (Project (Config.project_id cfg));;
        log INFO (Bucket (Config.bucket_name cfg));;
        log INFO (Dataset (Config.bronze_dataset cfg));;
        log INFO (Tables (tables_or_default (Some tables)));;
        log INFO (Force_download force_download);;
        log INFO (Skip_BigQuery skip_bigquery);;
        mret 0
      else
        run_pipeline
          (if bool_decide (tables = []) then None else Some tables)
          force_download skip_bigquery fail_fast cleanup
  end.

End Ingest.

(** ** app/bigquery_tool.py *)

Record SqlResult := mkSqlResult {
  success : bool;
  data : option DataFrame;
  error : option string;
  rows_returned : Z;
  bytes_processed : option Z
}.

Section BigQueryTool.

Context (env : Env) (CREDENTIALS_PATH : Path).

(** [get_bigquery_client] of the tool module, which reads its own
    [CREDENTIALS_PATH]. *)
Definition tool_get_bigquery_client : M unit :=
  f ← get_fs;
  history ← get_calls;
  match f !! CREDENTIALS_PATH with
  | None => raise (mkExn FileNotFoundError CREDENTIALS_PATH)
  | Some content => lift_err (credentials_from_file env history content)
  end.

(** The [try] suite of [execute_sql]. *)
Definition execute_sql_try (sql_query : string) : M SqlResult :=
  tool_get_bigquery_client;;
  history ← get_calls;
  call (query_call sql_query);;
  query_job ← lift_sum (bq_query env history sql_query);
  df ← lift_sum (query_result query_job);
  mret {| success := true;
          data := Some df;
          error := None;
          rows_returned := len (rows df);
          bytes_processed := total_bytes_processed query_job |}.

Definition execute_sql (sql_query : string) : M SqlResult :=
  call (execute_sql_call sql_query);;
  try_except (execute_sql_try sql_query)
    [ (Exception,
       λ e, mret {| success := false;
                    data := None;
                    error := Some (exn_str e);
                    rows_returned := 0;
                    bytes_processed := Some 0 |}) ].

End BigQueryTool.

(** * Vocabulary of the specification *)

Definition post {A} (Q : World → Res A → World → Prop) (c : M A) : Prop :=
  ∀ w, Q w (c w).1 (c w).2.

Definition steps {A} (R : relation World) (c : M A) : Prop :=
  post (λ w _ w', R w w') c.

(** What kind of work a call belongs to. *)
Inductive Kind := Orchestrate | Fetch | Transform | Publish | Load | Cleanup | Query.

#[global] Instance Kind_eq_dec : EqDecision Kind.
Proof. solve_decision. Defined.

Definition kind (c : Call) : Kind :=
  match c with
  | process_table_call _ _ _ | process_table_return _ _ => Orchestrate
  | download_file_call _ _ | requests_get_call _ => Fetch
  | convert_to_parquet_call _ _ _ => Transform
  | upload_to_gcs_call _ _ | blob_upload_call _ _ _ => Publish
  | load_to_bigquery_call _ _ _ _ | ensure_dataset_exists_call _ _
  | get_dataset_call _ | create_dataset_call _ _
  | load_table_from_uri_call _ _ _ | job_result_call _ | get_table_call _ => Load
  | cleanup_local_files_call _ => Cleanup
  | execute_sql_call _ | query_call _ => Query
  end.

(** [w'] is reached from [w] without deleting a file and by making only calls
    that satisfy [P]. *)
Definition grows (P : Call → Prop) (w w' : World) : Prop :=
  dom (fs w) ⊆ dom (fs w') ∧
  ∃ new, calls w' = calls w ++ new ∧ Forall P new.

(** The four pipeline stages, as opposed to the orchestrator's own events,
    cleanup and warehouse queries. *)
Definition stage (c : Call) : Prop :=
  kind c = Fetch ∨ kind c = Transform ∨ kind c = Publish ∨ kind c = Load.

(** The tables [process_table] was entered for, in order. *)
Fixpoint invocations (events : list Call) : list string :=
  match events with
  | [] => []
  | process_table_call table _ _ :: rest => table :: invocations rest
  | _ :: rest => invocations rest
  end.

(** What the invocations of [process_table] returned, in order. *)
Fixpoint outcomes (events : list Call) : list (string * bool) :=
  match events with
  | [] => []
  | process_table_return table success :: rest => (table, success) :: outcomes rest
  | _ :: rest => outcomes rest
  end.

(** What the last invocation of [process_table] for [table] returned. *)
Definition last_outcome (table : string) (events : list Call) : option bool :=
  snd <$> last (filter (λ tb, tb.1 = table) (outcomes events)).

(** The events of a suite that ends by reporting success for [table]. *)
Definition returns_after (P : Call → Prop) (table : string)
    (w : World) (r : Res bool) (w' : World) : Prop :=
  dom (fs w) ⊆ dom (fs w') ∧
  ∃ inner, Forall P inner ∧
    match r with
    | Ok b => b = true ∧
              calls w' = calls w ++ inner ++ [process_table_return table true]
    | Raise _ => calls w' = calls w ++ inner
    end.

Definition record_outcomes (results : list (string * bool))
    (l : list (string * bool)) : list (string * bool) :=
  foldl (λ d tb, dict_set d tb.1 tb.2) results l.

Definition with_logs (w : World) (l : list (Level * Msg)) : World :=
  mkWorld (fs w) (calls w) (logs w ++ l).

(** The records [run_pipeline] logs before it enters the loop. *)
Definition run_header (cfg : Config.t) (tables : list string)
    (force_download : bool) : list (Level * Msg) :=
  [ (INFO, Banner); (INFO, Text "IMDB Data Ingestion Pipeline"); (INFO, Banner);
    (INFO, Project (Config.project_id cfg));
    (INFO, Bucket (Config.bucket_name cfg));
    (INFO, Dataset (Config.bronze_dataset cfg));
    (INFO, Tables_to_process (len tables));
    (INFO, Force_download force_download); (INFO, Banner) ].

(** What a run of the loop from [w] to [w'] over [tables] guarantees: [new]
    are the events it added and [results'] the dictionary it returns. *)
Record loop_post (tables : list string) (fail_fast : bool)
    (results : list (string * bool)) (w : World)
    (results' : list (string * bool)) (w' : World) (new : list Call) : Prop := {
  loop_files : dom (fs w) ⊆ dom (fs w');
  loop_calls : calls w' = calls w ++ new;
  loop_kinds : Forall (λ c, stage c ∨ kind c = Orchestrate) new;
  loop_returned : invocations new = (outcomes new).*1;
  loop_results : results' = record_outcomes results (outcomes new);
  loop_prefix : invocations new `prefix_of` tables;
  loop_complete :
    invocations new = tables ∨
    (fail_fast = true ∧ ∃ t, last (outcomes new) = Some (t, false))
}.

Definition successful (results : list (string * bool)) : list string :=
  (filter (λ ts, ts.2 = true) results).*1.

Definition failed (results : list (string * bool)) : list string :=
  (filter (λ ts, ts.2 = false) results).*1.

(** The exit code [run_pipeline] derives from the results dictionary. *)
Definition exit_code (results : list (string * bool)) : Z :=
  if bool_decide (failed results = []) then 0
  else if negb (bool_decide (successful results = [])) then 1
  else 2.

(** The argument [main] passes to [run_pipeline] for the [--tables]
    options of the command line. *)
Definition cli_tables (tables : list string) : option (list string) :=
  if bool_decide (tables = []) then None else Some tables.

(** The bytes of a streamed body. *)
Definition received (chunks : list string) : string :=
  foldr String.append "" chunks.

(** The state in which [download_file] issues its request. *)
Definition requesting (url : string) (destination : Path) (w : World)
    : list Call :=
  calls w ++ [download_file_call url destination].

(** The state in which the [try] suite of [process_table] starts. *)
Definition entered (table : string) (force_download skip_bigquery : bool)
    (w : World) : World :=
  mkWorld (fs w)
    (calls w ++ [process_table_call table force_download skip_bigquery])
    (logs w ++ [(INFO, Banner); (INFO, Processing_table table); (INFO, Banner)]).

(** The state in which [process_table] returns [False] for error [e]. *)
Definition failed_with (table : string) (e : Exn) (w : World) : World :=
  mkWorld (fs w) (calls w ++ [process_table_return table false])
    (logs w ++ [(ERROR, Failed_to_process table e)]).

(** The state in which the [try] suite of [execute_sql] starts. *)
Definition asked (sql_query : string) (w : World) : World :=
  mkWorld (fs w) (calls w ++ [execute_sql_call sql_query]) (logs w).

(** The dictionary of a successful query. *)
Definition success_shape (r : SqlResult) : Prop :=
  success r = true ∧ error r = None ∧
  ∃ df, data r = Some df ∧ rows_returned r = len (rows df).

(** The dictionary of a query that failed with [e]. *)
Definition failure_shape (e : Exn) (r : SqlResult) : Prop :=
  success r = false ∧ data r = None ∧ error r = Some (exn_str e) ∧
  rows_returned r = 0.

Definition not_fetch_or_transform (c : Call) : Prop :=
  kind c ≠ Fetch ∧ kind c ≠ Transform.

Section Vocabulary.

Context (env : Env) (cfg : Config.t).

Definition raw_path_of (table : string) : Path :=
  path_join (Config.raw_data_folder cfg) (Config.get_table_filename table).

Definition parquet_path_of (table : string) : Path :=
  path_join (Config.parquet_data_folder cfg)
    (Config.get_table_id table +:+ ".parquet").

(** The state in which [process_table] calls the publish stage when both
    artifacts are cached. *)
Definition at_publish (table : string) (skip_bigquery : bool) (w : World)
    : World :=
  with_logs (entered table false skip_bigquery w)
    [ (INFO, Skipping_download (raw_path_of table));
      (INFO, Skipping_conversion (parquet_path_of table)) ].

(** What [process_table] does from the publish stage on. *)
Definition publish_and_load (table : string) (skip_bigquery : bool) : M bool :=
  gcs_uri ← upload_to_gcs env cfg (parquet_path_of table)
              (Config.get_gcs_path table) None;
  (if negb skip_bigquery then
     load_to_bigquery env cfg gcs_uri (Config.bronze_dataset cfg)
       (Config.get_table_id table) "WRITE_TRUNCATE"
   else log INFO (Text "Skipping BigQuery load (--skip-bigquery flag)"));;
  log INFO (Successfully_processed table);;
  call (process_table_return table true);;
  mret true.

(** What a run over the default catalogue leaves in the Run Result. *)
Definition covers_catalogue (tables : option (list string))
    (force_download skip_bigquery fail_fast : bool) (w : World) : Prop :=
  ∃ results w' new,
    run_tables env cfg tables force_download skip_bigquery fail_fast w
      = (Ok results, w') ∧
    calls w' = calls w ++ new ∧
    ((invocations new = Config.tables ∧
      ∀ t, t ∈ Config.tables → is_Some (dict_get results t)) ∨
     (fail_fast = true ∧ ∃ t, dict_get results t = Some false)).

End Vocabulary.

(** * Concrete environments *)

Module Examples.

Definition frame : DataFrame :=
  mkDataFrame ["tconst"; "averageRating"]
    [ [Some "tt0000001"; Some "5.7"]; [Some "tt0000002"; None] ].

Definition ok_response : Response :=
  {| status_error := None; content_length := HdrInt 6;
     body := ["abc"; ""; "def"]; body_error := None |}.

(** Every service answers. *)
Definition good_env : Env := {|
  requests_get := λ _ _, inr ok_response;
  pd_read_csv := λ _, inr frame;
  df_to_parquet := λ _ _, mkParquetWrite (Some "PQ") None;
  credentials_from_file := λ _ _, None;
  blob_upload := λ _ _ _ _, None;
  bq_get_dataset := λ _ _, None;
  bq_create_dataset := λ _ _ _, None;
  bq_load_table_from_uri := λ _ _ _ _, inr "job-1";
  bq_job_result := λ _ _, None;
  bq_get_table := λ _ _, inr 2;
  bq_query := λ _ _, inr (mkQueryJob (inr frame) (Some 1024))
|}.

Definition with_requests_get (f : list Call → string → Exn + Response)
    (env : Env) : Env :=
  mkEnv f (pd_read_csv env) (df_to_parquet env) (credentials_from_file env)
    (blob_upload env) (bq_get_dataset env) (bq_create_dataset env)
    (bq_load_table_from_uri env) (bq_job_result env) (bq_get_table env)
    (bq_query env).

(** The source host cannot be reached. *)
Definition offline_env : Env :=
  with_requests_get
    (λ _ _, inl (mkExn RequestException "Connection refused")) good_env.

Definition is_requests_get (c : Call) : bool :=
  match c with requests_get_call _ => true | _ => false end.

(** The first download breaks off after three of six bytes; any later
    request would be served in full. *)
Definition flaky_env : Env :=
  with_requests_get
    (λ history _,
       if existsb is_requests_get history then inr ok_response
       else inr {| status_error := None; content_length := HdrInt 6;
                   body := ["abc"];
                   body_error :=
                     Some (mkExn RequestException "Connection broken") |})
    good_env.

(** The bucket rejects uploads. *)
Definition upload_fails_env : Env :=
  mkEnv (requests_get good_env) (pd_read_csv good_env) (df_to_parquet good_env)
    (credentials_from_file good_env)
    (λ _ _ _ _, Some (mkExn GoogleCloudError "503 Service Unavailable"))
    (bq_get_dataset good_env) (bq_create_dataset good_env)
    (bq_load_table_from_uri good_env) (bq_job_result good_env)
    (bq_get_table good_env) (bq_query good_env).

(** Another run creates the dataset between the existence check and the
    creation. *)
Definition race_env : Env :=
  mkEnv (requests_get good_env) (pd_read_csv good_env) (df_to_parquet good_env)
    (credentials_from_file good_env) (blob_upload good_env)
    (λ _ _, Some (mkExn NotFound "404 Not found: Dataset"))
    (λ _ _ _, Some (mkExn Conflict "409 Already Exists: Dataset"))
    (bq_load_table_from_uri good_env) (bq_job_result good_env)
    (bq_get_table good_env) (bq_query good_env).

(** A data frame with one more row than [frame]. *)
Definition longer_env : Env :=
  mkEnv (requests_get good_env)
    (λ _, inr (mkDataFrame (columns frame) ([Some "tt0000003"; None] :: rows frame)))
    (df_to_parquet good_env)
    (credentials_from_file good_env) (blob_upload good_env)
    (bq_get_dataset good_env) (bq_create_dataset good_env)
    (bq_load_table_from_uri good_env) (bq_job_result good_env)
    (bq_get_table good_env) (bq_query good_env).

Definition raw : Path := "data/raw/title.ratings.tsv.gz".
Definition parquet : Path := "data/parquet/title_ratings.parquet".

(** Only the credentials are on disk. *)
Definition fresh : World :=
  mkWorld {[ "./credentials.json" := "{}" ]} [] [].

(** Both artifacts of [title.ratings] are on disk as well. *)
Definition cached : World :=
  mkWorld (<[raw := "abcdef"]> (<[parquet := "PQ"]> (fs fresh))) [] [].

(** Not even the credentials are on disk. *)
Definition bare : World := mkWorld ∅ [] [].

End Examples.

Import Examples.

(** ** app/bigquery_tool.py: the schema *)

(** A [SchemaField] of the BigQuery client; of its nested fields, the name
    and the type. *)
Record SchemaField := mkSchemaField {
  field_name : string;
  field_type : string;
  field_mode : string;
  field_description : option string;
  field_fields : list (string * string)
}.

(** The dictionary [get_schema] builds for a column; [column_fields] is
    [None] when the dictionary has no key ["fields"]. *)
Record ColumnInfo := mkColumnInfo {
  column_name : string;
  column_type : string;
  column_mode : string;
  column_description : string;
  column_fields : option (list (string * string))
}.

Definition Schema := list (string * list ColumnInfo).

(** [schema_info[table_name] = columns] on an insertion-ordered dictionary. *)
Fixpoint schema_set (schema_info : Schema) (table_name : string)
    (columns : list ColumnInfo) : Schema :=
  match schema_info with
  | [] => [(table_name, columns)]
  | (t, c) :: rest =>
      if bool_decide (t = table_name) then (t, columns) :: rest
      else (t, c) :: schema_set rest table_name columns
  end.

Definition column_info (field : SchemaField) : ColumnInfo :=
  {| column_name := field_name field;
     column_type := field_type field;
     column_mode := field_mode field;
     column_description :=
       match field_description field with
       | Some description => if truthy description then description else ""
       | None => ""
       end;
     column_fields :=
       if bool_decide (field_type field = "RECORD")
          && negb (bool_decide (field_fields field = []))
       then Some (field_fields field)
       else None |}.

Section Schema.

Context (env : Env) (table_schema : list Call → string → Exn + list SchemaField).
Context (PROJECT_ID DATASET_ID : string) (CREDENTIALS_PATH : Path).

(** The loop of [get_schema]; [table_schema] is the [schema] of what
    [client.get_table] returns. *)
Fixpoint get_schema_tables (tables : list string) (schema_info : Schema)
    : M Schema :=
  match tables with
  | [] => mret schema_info
  | table_name :: rest =>
      let table_ref := PROJECT_ID +:+ "." +:+ DATASET_ID +:+ "." +:+ table_name in
      history ← get_calls;
      call (get_table_call table_ref);;
      schema ← lift_sum (table_schema history table_ref);
      let columns := column_info <$> schema in
      get_schema_tables rest (schema_set schema_info table_name columns)
  end.

Definition get_schema : M Schema :=
  tool_get_bigquery_client env CREDENTIALS_PATH;;
  get_schema_tables ["movies"; "dim_actors"; "dim_directors"] [].

Definition format_column (prompt : string) (col : ColumnInfo) : string :=
  let prompt :=
    prompt +:+ "- **" +:+ column_name col +:+ "** (" +:+ column_type col +:+ "): " in
  let prompt :=
    match column_fields col with
    | Some fields =>
        let nested := join ", " ((λ f, f.1 +:+ " (" +:+ f.2 +:+ ")") <$> fields) in
        prompt +:+ "STRUCT with fields: " +:+ nested
    | None => prompt
    end in
  prompt +:+ newline.

Definition format_table (prompt : string) (item : string * list ColumnInfo)
    : string :=
  let prompt :=
    prompt +:+ newline +:+ "## Table: " +:+ DATASET_ID +:+ "." +:+ item.1
    +:+ newline +:+ newline in
  foldl format_column prompt item.2.

Definition format_schema_for_llm : M string :=
  schema ← get_schema;
  let prompt :=
    "
        You have access to a BigQuery database with IMDB movie data in the `" +:+ PROJECT_ID +:+ "." +:+ DATASET_ID +:+ "` dataset.

        Here are the available tables and their schemas:

        " in
  let prompt := foldl format_table prompt schema in
  mret (prompt +:+ "

        **Important Notes:**
        - The `movies` table contains nested arrays:
        - `directors`: ARRAY of STRUCT with director information
        - `actors`: ARRAY of STRUCT with actor information
        - Use UNNEST() to query nested arrays: `FROM movies, UNNEST(directors) AS director`
        - Use EXISTS() for filtering on nested fields
        - All queries must be fully qualified: `imdb-analytics.silver.table_name`

        **Example Queries:**

        Find movies by director:
        ```sql
        SELECT title, release_year, average_rating
        FROM `imdb-analytics.silver.movies`
        WHERE EXISTS (
        SELECT 1 FROM UNNEST(directors) AS d
        WHERE d.name LIKE '%Nolan%'
        )
        ORDER BY average_rating DESC
        LIMIT 10
        ```

        Find movies with specific actor:
        ```sql
        SELECT title, release_year, average_rating
        FROM `imdb-analytics.silver.movies`
        WHERE EXISTS (
        SELECT 1 FROM UNNEST(actors) AS a
        WHERE a.name = 'Tom Hanks'
        )
        ORDER BY average_rating DESC
        ```
        ").

End Schema.

(** ** app/agent.py *)

Module Agent.

Record ToolCall := mkToolCall {
  id : string;
  type : string;
  function_name : string;
  function_arguments : string
}.

(** The dictionaries of [messages]. *)
Inductive Message :=
  | message (role : string) (content : option string)
  | assistant_message (content : option string) (tool_calls : list ToolCall)
  | tool_message (tool_call_id : string) (content : string).

Record Usage := mkUsage {
  prompt_tokens : Z;
  completion_tokens : Z;
  total_tokens : Z
}.

(** What [client.chat.completions.create] returns: [usage], and the
    [content] and [tool_calls] of [choices[0].message]. *)
Record ChatCompletion := mkChatCompletion {
  usage : option Usage;
  content : option string;
  tool_calls : option (list ToolCall)
}.

(** A call of [client.chat.completions.create]; [tools] and [tool_choice]
    are the same in all of them. *)
Record Request := mkRequest {
  request_model : string;
  request_messages : list Message
}.

(** [tool_response], the dictionary handed to [json.dumps]. *)
Inductive ToolResponse :=
  | tool_success (rows_returned : Z) (data : list (list (string * option string)))
  | tool_failure (error : option string).

(** The collaborators of the agent: the chat completions endpoint, whose
    answer may depend on the requests made so far, [json], and
    [DataFrame.to_dict(orient="records")]. *)
Record Services := mkServices {
  table_schema : list Call → string → Exn + list SchemaField;
  chat_completions_create : list Request → Request → Exn + ChatCompletion;
  json_loads_sql_query : string → Exn + string;   (* [json.loads(s)["sql_query"]] *)
  to_dict_records : DataFrame → list (list (string * option string));
  json_dumps : ToolResponse → Exn + string
}.

(** The state of a conversation turn: the world of the query tool and the
    requests sent to the model, oldest first. *)
Record Session := mkSession {
  world : World;
  requests : list Request
}.

Definition Turn (T : Type) : Type := Session → Res T * Session.

#[global] Instance Turn_ret : MRet Turn := λ T a s, (Ok a, s).

#[global] Instance Turn_bind : MBind Turn := λ T U k c s,
  match c s with
  | (Ok a, s') => k a s'
  | (Raise e, s') => (Raise e, s')
  end.

(** A computation of the tool module, run on the world of the session. *)
Definition in_world {T} (c : M T) : Turn T :=
  λ s, let (r, w) := c (world s) in (r, mkSession w (requests s)).

Definition lift {T} (r : Exn + T) : Turn T :=
  λ s, match r with inl e => (Raise e, s) | inr a => (Ok a, s) end.

(** [tool_response] for the [result] of [execute_sql]. *)
Definition tool_response_of (services : Services) (result : SqlResult)
    : ToolResponse :=
  if success result then
    tool_success (rows_returned result)
      match data result with
      | Some df => to_dict_records services df
      | None => []
      end
  else tool_failure (error result).

(** [query_result["data"] if query_result and query_result["success"] else None] *)
Definition data_of (query_result : option SqlResult) : option DataFrame :=
  match query_result with
  | Some result => if success result then data result else None
  | None => None
  end.

(** What [run_agent] returns. *)
Record Result := mkResult {
  answer : option string;
  sql_query : option string;
  data : option DataFrame;
  error : option string;
  result_usage : Usage
}.

(** The local variables of [run_agent] that its loops update. *)
Record Vars := mkVars {
  messages : list Message;
  sql_executed : option string;
  query_result : option SqlResult
}.

Section Agent.

Context (env : Env) (services : Services).
Context (PROJECT_ID DATASET_ID : string) (CREDENTIALS_PATH : Path).
Context (OPENAI_MODEL : string).

Definition create_system_prompt : M string :=
  schema_info ← format_schema_for_llm env (table_schema services) PROJECT_ID
                   DATASET_ID CREDENTIALS_PATH;
  mret ("You are an expert SQL assistant for an IMDB movie database.

Your role is to:
1. Understand natural language questions about movies, actors, and directors
2. Generate correct BigQuery SQL queries
3. Execute queries and interpret results
4. Provide clear, concise answers

" +:+ schema_info +:+ "

**Guidelines:**
- Always use fully qualified table names: `imdb-analytics.silver.table_name`
- Use backticks for table names with hyphens
- For nested arrays (directors, actors), use UNNEST() and EXISTS()
- Keep queries efficient (use LIMIT when appropriate)
- If a question is ambiguous, make reasonable assumptions
- Return results in a user-friendly format

**Response Style:**
- Be conversational and helpful
- Explain what you found
- Suggest related queries if relevant
- If no results, explain why and suggest alternatives
").

(** [client.chat.completions.create(model=model, messages=messages, ...)] *)
Definition create (model : string) (messages : list Message)
    : Turn ChatCompletion :=
  λ s, let request := mkRequest model messages in
       let s' := mkSession (world s) (requests s ++ [request]) in
       match chat_completions_create services (requests s) request with
       | inl e => (Raise e, s')
       | inr response => (Ok response, s')
       end.

(** [total_usage[...] += response.usage....], when [response.usage] is there. *)
Definition track_usage (total_usage : Usage) (response : ChatCompletion) : Usage :=
  match usage response with
  | Some u =>
      {| prompt_tokens := prompt_tokens total_usage + prompt_tokens u;
         completion_tokens := completion_tokens total_usage + completion_tokens u;
         total_tokens := total_tokens total_usage + total_tokens u |}
  | None => total_usage
  end.

(** The loop over the tool calls of one response. *)
Fixpoint execute_tool_calls (tool_calls : list ToolCall) (vars : Vars) : Turn Vars :=
  match tool_calls with
  | [] => mret vars
  | tool_call :: rest =>
      if bool_decide (function_name tool_call = "execute_bigquery_sql") then
        sql_query ← lift (json_loads_sql_query services (function_arguments tool_call));
        result ← in_world (execute_sql env CREDENTIALS_PATH sql_query);
        let tool_response := tool_response_of services result in
        content ← lift (json_dumps services tool_response);
        execute_tool_calls rest
          {| messages := messages vars ++ [tool_message (id tool_call) content];
             sql_executed := Some sql_query;
             query_result := Some result |}
      else execute_tool_calls rest vars
  end.

(** The agent loop, with [iterations] rounds left. *)
Fixpoint agent_loop (iterations : nat) (model : string) (vars : Vars)
    (total_usage : Usage) : Turn Result :=
  match iterations with
  | O =>
      mret {| answer := Some "I'm sorry, I couldn't complete the query. Please try rephrasing your question.";
              sql_query := sql_executed vars;
              data := None;
              error := Some "Max iterations reached";
              result_usage := total_usage |}
  | S iterations =>
      response ← create model (messages vars);
      let total_usage := track_usage total_usage response in
      match tool_calls response with
      | Some (tool_call :: rest) =>
          let requested := tool_call :: rest in
          let vars :=
            {| messages :=
                 messages vars ++ [assistant_message (content response) requested];
               sql_executed := sql_executed vars;
               query_result := query_result vars |} in
          vars ← execute_tool_calls requested vars;
          agent_loop iterations model vars total_usage
      | _ =>
          mret {| answer := content response;
                  sql_query := sql_executed vars;
                  data := data_of (query_result vars);
                  error := None;
                  result_usage := total_usage |}
      end
  end.

Definition run_agent (user_question : string)
    (conversation_history : option (list Message)) (model : option string)
    : Turn Result :=
  let model := default OPENAI_MODEL model in
  let conversation_history := default [] conversation_history in
  system_prompt ← in_world create_system_prompt;
  let messages :=
    [message "system" (Some system_prompt)] ++ conversation_history
    ++ [message "user" (Some user_question)] in
  agent_loop 3 model (mkVars messages None None) (mkUsage 0 0 0).

End Agent.

End Agent.

(** ** app/stats.py *)

Module Stats.

(** An entry of [query_history]. *)
Record Query := mkQuery {
  timestamp : Z;
  question : string;
  model : string;
  input_tokens : Z;
  output_tokens : Z;
  sql_executed : bool
}.

(** [ConversationStats]; a time is a reading of the clock, in microseconds. *)
Record ConversationStats := mk {
  total_questions : Z;
  total_input_tokens : Z;
  total_output_tokens : Z;
  model_usage : gmap string Z;
  query_history : list Query;
  session_start : Z
}.

(** [ConversationStats()] created when the clock reads [now]. *)
Definition new (now : Z) : ConversationStats :=
  mk 0 0 0 ∅ [] now.

(** [self.add_query(...)] called when the clock reads [now]; the value is
    the object after the call. *)
Definition add_query (self : ConversationStats) (now : Z) (model : string)
    (input_tokens output_tokens : Z) (question : string) (sql_executed : bool)
    : ConversationStats :=
  {| total_questions := total_questions self + 1;
     total_input_tokens := total_input_tokens self + input_tokens;
     total_output_tokens := total_output_tokens self + output_tokens;
     model_usage :=
       <[model := default 0 (model_usage self !! model) + 1]> (model_usage self);
     query_history :=
       query_history self
       ++ [mkQuery now question model input_tokens output_tokens sql_executed];
     session_start := session_start self |}.

(** The dictionary [get_summary] returns. *)
Record Summary := mkSummary {
  summary_total_questions : Z;
  summary_total_tokens : Z;
  summary_input_tokens : Z;
  summary_output_tokens : Z;
  summary_session_duration_minutes : Q;
  summary_model_usage : gmap string Z
}.

(** [self.get_summary()] called when the clock reads [now]; [round1] is
    [round(x, 1)]. *)
Definition get_summary (round1 : Q → Q) (self : ConversationStats) (now : Z)
    : Summary :=
  let total_tokens := total_input_tokens self + total_output_tokens self in
  let total_seconds := (inject_Z (now - session_start self) / 1000000)%Q in
  let session_duration := (total_seconds / 60)%Q in
  {| summary_total_questions := total_questions self;
     summary_total_tokens := total_tokens;
     summary_input_tokens := total_input_tokens self;
     summary_output_tokens := total_output_tokens self;
     summary_session_duration_minutes := round1 session_duration;
     summary_model_usage := model_usage self |}.

(** [count_tokens]: [encoding_for_model] is tiktoken's lookup, which raises
    for a model it does not know, and gives the encoder of a text. *)
Definition count_tokens
    (encoding_for_model : string → Exn + (string → Exn + list Z))
    (text model : string) : M Z :=
  try_except
    (encoding ← lift_sum (encoding_for_model model);
     tokens ← lift_sum (encoding text);
     mret (len tokens))
    [ (Exception, λ _, mret (len_str text `div` 4)) ].

(** A call of [add_query]. *)
Record Added := mkAdded {
  at_time : Z;
  with_model : string;
  tokens_in : Z;
  tokens_out : Z;
  asked : string;
  ran_sql : bool
}.

(** The object after the calls [adds] of [add_query], oldest first, on a
    [ConversationStats()] created at [start]. *)
Definition replay (start : Z) (adds : list Added) : ConversationStats :=
  foldl (λ self a, add_query self (at_time a) (with_model a) (tokens_in a)
                     (tokens_out a) (asked a) (ran_sql a))
    (new start) adds.

Definition sum (l : list Z) : Z := foldr Z.add 0 l.

(** How many entries of the history name the model [m]. *)
Definition uses (m : string) (history : list Query) : Z :=
  len (filter (λ q, model q = m) history).

End Stats.

(** ** Vocabulary for the further properties *)

Definition chars (s : string) : list Ascii.ascii := String.list_ascii_of_string s.


(** [w'] differs from [w] at most in the files at the paths in [S]. *)
Definition touches (S : Path → Prop) (w w' : World) : Prop :=
  ∀ p, ¬ S p → fs w' !! p = fs w !! p.

(** The two artifacts of a table. *)
Definition artifact_of (cfg : Config.t) (table : string) (p : Path) : Prop :=
  p = raw_path_of cfg table ∨ p = parquet_path_of cfg table.

(** The bucket [upload_to_gcs] writes to. *)
Definition bucket_or_default (cfg : Config.t) (bucket_name : option string)
    : string :=
  match bucket_name with
  | Some b => if truthy b then b else Config.bucket_name cfg
  | None => Config.bucket_name cfg
  end.

(** The state in which [load_to_bigquery] builds its client and provisions
    the dataset. *)
Definition loading (gcs_uri dataset_id table_id write_disposition : string)
    (w : World) : World :=
  mkWorld (fs w)
    (calls w ++ [load_to_bigquery_call gcs_uri dataset_id table_id write_disposition])
    (logs w ++ [(INFO, Loading gcs_uri dataset_id table_id)]).

(** The state in which [ensure_dataset_exists] builds its client and checks
    for the dataset. *)
Definition ensuring (dataset_id location : string) (w : World) : World :=
  mkWorld (fs w) (calls w ++ [ensure_dataset_exists_call dataset_id location])
    (logs w).

(** Whether [process_table] runs a cached stage whose output is [p]. *)
Definition stage_needed (force_download : bool) (p : Path) (w : World) : bool :=
  force_download || negb (bool_decide (is_Some (fs w !! p))).

(** [p] is a file directly in [folder] whose name ends with [suffix]. *)
Definition in_folder (folder : Path) (suffix : string) (p : Path) : Prop :=
  ∃ stem, p = path_join folder (stem +:+ suffix) ∧
          "/"%char ∉ chars (stem +:+ suffix).

(** Both artifacts of [table] are on disk. *)
Definition cached_in (cfg : Config.t) (table : string) (w : World) : Prop :=
  is_Some (fs w !! raw_path_of cfg table) ∧
  is_Some (fs w !! parquet_path_of cfg table).

(** The source host declares a [content-length] that is no number. *)
Definition bad_header_response : Response :=
  {| status_error := None; content_length := HdrBad "unknown";
     body := ["abc"]; body_error := None |}.

Definition bad_header_env : Env :=
  with_requests_get (λ _ _, inr bad_header_response) good_env.

(** ** Vocabulary for the stages of one table *)

(** The fetch stage of [process_table] takes [w] to [w']: the download ran
    and returned, or the raw artifact was there and the stage was skipped. *)
Definition fetched (env : Env) (cfg : Config.t) (table : string)
    (force_download : bool) (w w' : World) : Prop :=
  if stage_needed force_download (raw_path_of cfg table) w
  then download_file env
         (Config.base_url cfg +:+ Config.get_table_filename table)
         (raw_path_of cfg table) 8192 w = (Ok tt, w')
  else w' = with_logs w [(INFO, Skipping_download (raw_path_of cfg table))].

(** The transform stage of [process_table] takes [w] to [w']: the conversion
    ran and returned, or the columnar artifact was there and the stage was
    skipped. *)
Definition converted (env : Env) (cfg : Config.t) (table : string)
    (force_download : bool) (w w' : World) : Prop :=
  if stage_needed force_download (parquet_path_of cfg table) w
  then convert_to_parquet env (raw_path_of cfg table)
         (parquet_path_of cfg table) "snappy" w = (Ok tt, w')
  else w' = with_logs w [(INFO, Skipping_conversion (parquet_path_of cfg table))].

(** ** Vocabulary for the agent *)

(** The queries handed to [execute_sql] among [cs], oldest first. *)
Definition executed (cs : list Call) : list string :=
  omap (λ c, match c with execute_sql_call q => Some q | _ => None end) cs.

(** The answers of the endpoint to the requests [new], made after [old]. *)
Fixpoint answers (services : Agent.Services) (old new : list Agent.Request)
    : list (Exn + Agent.ChatCompletion) :=
  match new with
  | [] => []
  | request :: rest =>
      Agent.chat_completions_create services old request
      :: answers services (old ++ [request]) rest
  end.

(** The tool calls a response asks for. *)
Definition requested (response : Agent.ChatCompletion) : list Agent.ToolCall :=
  default [] (Agent.tool_calls response).

(** The query a tool call stands for, when it names the query tool and its
    arguments parse. *)
Definition query_of (services : Agent.Services) (tool_call : Agent.ToolCall)
    : option string :=
  if bool_decide (Agent.function_name tool_call = "execute_bigquery_sql") then
    match Agent.json_loads_sql_query services (Agent.function_arguments tool_call) with
    | inr q => Some q
    | inl _ => None
    end
  else None.

Definition total_usage (responses : list Agent.ChatCompletion) : Agent.Usage :=
  foldl Agent.track_usage (Agent.mkUsage 0 0 0) responses.

Definition is_tool_message (m : Agent.Message) : Prop :=
  match m with Agent.tool_message _ _ => True | _ => False end.

(** What the conversation gains from a response that asks for tools. *)
Definition follow_up (response : Agent.ChatCompletion) (added : list Agent.Message)
    : Prop :=
  ∃ tool_messages,
    added = Agent.assistant_message (Agent.content response) (requested response)
            :: tool_messages ∧
    Forall is_tool_message tool_messages ∧
    (length tool_messages ≤ length (requested response))%nat.

Definition apology : string :=
  "I'm sorry, I couldn't complete the query. Please try rephrasing your question.".

(** ** A concrete conversation *)

(** The model asks for one query, then answers. *)
Definition example_services : Agent.Services := {|
  Agent.table_schema := λ _ _,
    inr [ mkSchemaField "title" "STRING" "NULLABLE" None [];
          mkSchemaField "directors" "RECORD" "REPEATED" (Some "Directors")
            [("name", "STRING")] ];
  Agent.chat_completions_create := λ history _,
    match history with
    | [] =>
        inr (Agent.mkChatCompletion (Some (Agent.mkUsage 900 30 930)) None
               (Some [Agent.mkToolCall "call_1" "function"
                        "execute_bigquery_sql" "{sql_query}"]))
    | _ =>
        inr (Agent.mkChatCompletion (Some (Agent.mkUsage 1000 12 1012))
               (Some "There are two titles.") None)
    end;
  Agent.json_loads_sql_query := λ _, inr "SELECT tconst, averageRating FROM t";
  Agent.to_dict_records := λ df, (λ row, zip (columns df) row) <$> rows df;
  Agent.json_dumps := λ _, inr "{...}"
|}.

(** The turn [example_services] answers: no history, the default model. *)
Definition example_turn : Res Agent.Result * Agent.Session :=
  Agent.run_agent good_env example_services "imdb-analytics" "silver"
    "./credentials.json" "gpt-4o" "How many titles are there?" None None
    (Agent.mkSession fresh []).

(** * Reasoning principles *)

Lemma isinstance_Exception (e : Exn) : isinstance e Exception = true.
Proof. destruct e as [c s]; destruct c; reflexivity. Qed.

Lemma bind_eq {A B} (c : M A) (k : A → M B) (w : World) :
  (c ≫= k) w =
  match c w with
  | (Ok a, w') => k a w'
  | (Raise e, w') => (Raise e, w')
  end.
Proof. reflexivity. Qed.

Lemma bind_ok {A B} (c : M A) (k : A → M B) w a w' :
  c w = (Ok a, w') → (c ≫= k) w = k a w'.
Proof. intros H. rewrite bind_eq, H. reflexivity. Qed.

Lemma bind_raise {A B} (c : M A) (k : A → M B) w e w' :
  c w = (Raise e, w') → (c ≫= k) w = (Raise e, w').
Proof. intros H. rewrite bind_eq, H. reflexivity. Qed.

(** A single [except Exception] clause handles whatever the suite raises. *)
Lemma try_except_Exception {A} (body : M A) (h : Exn → M A) (w : World) :
  try_except body [(Exception, h)] w =
  match body w with
  | (Ok a, w') => (Ok a, w')
  | (Raise e, w') => h e w'
  end.
Proof.
  unfold try_except. destruct (body w) as [[a|e] w']; [reflexivity|].
  simpl. rewrite isinstance_Exception. reflexivity.
Qed.

(** ** Postconditions that hold whatever the outcome *)

Lemma grows_refl P w : grows P w w.
Proof. split; [done|]. exists []. by rewrite app_nil_r. Qed.

Lemma grows_trans P w1 w2 w3 : grows P w1 w2 → grows P w2 w3 → grows P w1 w3.
Proof.
  intros [Hd1 (n1 & E1 & F1)] [Hd2 (n2 & E2 & F2)]. split; [set_solver|].
  exists (n1 ++ n2). rewrite E2, E1, app_assoc. split; [done|].
  by apply Forall_app.
Qed.

Section Grows.

Context (P : Call → Prop).

Lemma steps_mret {A} (a : A) : steps (grows P) (mret a).
Proof. intros w. apply grows_refl. Qed.

Lemma steps_raise {A} (e : Exn) : steps (grows P) (@raise A e).
Proof. intros w. apply grows_refl. Qed.

Lemma steps_bind {A B} (c : M A) (k : A → M B) :
  steps (grows P) c → (∀ a, steps (grows P) (k a)) →
  steps (grows P) (c ≫= k).
Proof.
  intros Hc Hk w. specialize (Hc w). rewrite bind_eq.
  destruct (c w) as [[a|e] w1]; simpl in *; [|done].
  eapply grows_trans; [exact Hc|]. apply Hk.
Qed.

Lemma steps_try_except {A} (body : M A) (clauses : list (ExnClass * (Exn → M A))) :
  steps (grows P) body →
  Forall (λ ch, ∀ e, steps (grows P) (ch.2 e)) clauses →
  steps (grows P) (try_except body clauses).
Proof.
  intros Hb Hc w. specialize (Hb w). unfold try_except.
  destruct (body w) as [[a|e] w1]; simpl in *; [done|].
  destruct (select_clause e clauses) as [h|] eqn:Hs; simpl; [|done].
  eapply grows_trans; [exact Hb|].
  clear Hb. induction Hc as [|[c h'] rest Hh _ IH]; simpl in Hs; [done|].
  destruct (isinstance e c).
  - injection Hs as <-. apply Hh.
  - by apply IH.
Qed.

Lemma steps_get_fs : steps (grows P) get_fs.
Proof. intros w. apply grows_refl. Qed.

Lemma steps_get_calls : steps (grows P) get_calls.
Proof. intros w. apply grows_refl. Qed.

Lemma steps_log l m : steps (grows P) (log l m).
Proof. intros w. split; [done|]. exists []. by rewrite app_nil_r. Qed.

Lemma steps_call c : P c → steps (grows P) (call c).
Proof. intros Hc w. split; [done|]. exists [c]. split; [done|]. by constructor. Qed.

Lemma steps_write_file p content : steps (grows P) (write_file p content).
Proof.
  intros w. split; [simpl; rewrite dom_insert_L; set_solver|].
  exists []. by rewrite app_nil_r.
Qed.

Lemma steps_path_exists p : steps (grows P) (path_exists p).
Proof. intros w. apply grows_refl. Qed.

Lemma steps_stat_size p : steps (grows P) (stat_size p).
Proof.
  intros w. unfold stat_size. rewrite bind_eq. simpl.
  destruct (fs w !! p); apply grows_refl.
Qed.

Lemma steps_lift_sum {A} (r : Exn + A) : steps (grows P) (lift_sum r).
Proof. destruct r; intros w; apply grows_refl. Qed.

Lemma steps_lift_err (r : option Exn) : steps (grows P) (lift_err r).
Proof. destruct r; intros w; apply grows_refl. Qed.

End Grows.

Create HintDb steps.

#[global] Hint Resolve steps_mret steps_raise steps_get_fs steps_get_calls
  steps_log steps_write_file steps_path_exists steps_stat_size
  steps_lift_sum steps_lift_err : steps.

(** Decompose a goal [steps (grows P) c] along the structure of [c]. *)
Ltac steps_tac :=
  repeat first
    [ match goal with |- ∀ _, _ => intro end
    | solve [eauto with steps]
    | apply steps_call; solve [eauto]
    | apply steps_bind
    | apply steps_try_except; [|repeat (apply List.Forall_cons; [simpl|]); try apply List.Forall_nil]
    | match goal with
      | |- steps _ (if ?b then _ else _) => destruct b
      | |- steps _ (match ?x with _ => _ end) => destruct x
      | |- steps _ (let _ := _ in _) => cbv zeta
      end ].

Section StagesGrow.

Context (env : Env) (cfg : Config.t) (P : Call → Prop).

Lemma steps_write_chunks destination chunk_size total_size chunks downloaded_size :
  steps (grows P)
    (write_chunks destination chunk_size total_size chunks downloaded_size).
Proof.
  revert downloaded_size.
  induction chunks as [|chunk rest IH]; intros d; simpl; unfold file_write;
    steps_tac.
Qed.

Lemma steps_download_file url destination chunk_size :
  (∀ c, kind c = Fetch → P c) →
  steps (grows P) (download_file env url destination chunk_size).
Proof.
  intros HP. unfold download_file, int_content_length.
  unfold open_wb. pose proof steps_write_chunks. steps_tac.
Qed.

Lemma steps_convert_to_parquet tsv_path parquet_path compression :
  (∀ c, kind c = Transform → P c) →
  steps (grows P) (convert_to_parquet env tsv_path parquet_path compression).
Proof.
  intros HP. unfold convert_to_parquet, read_csv, to_parquet, compression_ratio.
  steps_tac.
Qed.

End StagesGrow.

Section MoreStagesGrow.

Context (env : Env) (cfg : Config.t) (P : Call → Prop).

Lemma steps_get_client : steps (grows P) (get_client env cfg).
Proof. unfold get_client. steps_tac. Qed.

Lemma steps_upload_to_gcs local_path gcs_path bucket_name :
  (∀ c, kind c = Publish → P c) →
  steps (grows P) (upload_to_gcs env cfg local_path gcs_path bucket_name).
Proof.
  intros HP. pose proof steps_get_client.
  unfold upload_to_gcs, get_gcs_client, upload_from_filename. steps_tac.
Qed.

Lemma steps_ensure_dataset_exists dataset_id location :
  (∀ c, kind c = Load → P c) →
  steps (grows P) (ensure_dataset_exists env cfg dataset_id location).
Proof.
  intros HP. pose proof steps_get_client.
  unfold ensure_dataset_exists, get_bigquery_client. steps_tac.
Qed.

Lemma steps_load_to_bigquery gcs_uri dataset_id table_id write_disposition :
  (∀ c, kind c = Load → P c) →
  steps (grows P)
    (load_to_bigquery env cfg gcs_uri dataset_id table_id write_disposition).
Proof.
  intros HP. pose proof steps_get_client.
  pose proof (steps_ensure_dataset_exists dataset_id "EU" HP).
  unfold load_to_bigquery, get_bigquery_client. steps_tac.
Qed.

End MoreStagesGrow.

Lemma post_bind_grows {A} (P : Call → Prop) table (c : M A) (k : A → M bool) :
  steps (grows P) c → (∀ a, post (returns_after P table) (k a)) →
  post (returns_after P table) (c ≫= k).
Proof.
  intros Hc Hk w. specialize (Hc w). rewrite bind_eq.
  destruct (c w) as [[a|e] w1]; simpl in *.
  - destruct Hc as [Hd (n1 & E1 & F1)].
    destruct (Hk a w1) as [Hd2 (n2 & F2 & H2)].
    split; [set_solver|]. exists (n1 ++ n2). split; [by apply Forall_app|].
    destruct ((k a w1).1) as [b|e]; rewrite E1 in H2.
    + destruct H2 as [-> H2]. split; [done|]. by rewrite H2, !app_assoc.
    + by rewrite H2, app_assoc.
  - destruct Hc as [Hd (n1 & E1 & F1)]. split; [done|]. by exists n1.
Qed.

Lemma bind_call {B} (c : Call) (k : () → M B) (w : World) :
  (call c ≫= k) w = k tt (mkWorld (fs w) (calls w ++ [c]) (logs w)).
Proof. reflexivity. Qed.

Lemma bind_log {B} (l : Level) (m : Msg) (k : () → M B) (w : World) :
  (log l m ≫= k) w = k tt (mkWorld (fs w) (calls w) (logs w ++ [(l, m)])).
Proof. reflexivity. Qed.

Section ProcessTable.

Context (env : Env) (cfg : Config.t).

Lemma stage_Fetch c : kind c = Fetch → stage c.
Proof. unfold stage. tauto. Qed.
Lemma stage_Transform c : kind c = Transform → stage c.
Proof. unfold stage. tauto. Qed.
Lemma stage_Publish c : kind c = Publish → stage c.
Proof. unfold stage. tauto. Qed.
Lemma stage_Load c : kind c = Load → stage c.
Proof. unfold stage. tauto. Qed.

Lemma process_table_try_post table force_download skip_bigquery :
  post (returns_after stage table)
    (process_table_try env cfg table force_download skip_bigquery).
Proof.
  pose proof (steps_download_file env stage) as Hd.
  pose proof (steps_convert_to_parquet env stage) as Hc.
  pose proof (steps_upload_to_gcs env cfg stage) as Hu.
  pose proof (steps_load_to_bigquery env cfg stage) as Hl.
  pose proof stage_Fetch. pose proof stage_Transform.
  pose proof stage_Publish. pose proof stage_Load.
  unfold process_table_try.
  do 7 (apply post_bind_grows; [steps_tac|intros]).
  intros w. split; [done|]. exists []. simpl. by split.
Qed.

(** [process_table] always returns, and its events are its entry, the
    calls of the stages, and its return. *)
Lemma process_table_shape table force_download skip_bigquery (w : World) :
  ∃ b w' inner,
    process_table env cfg table force_download skip_bigquery w = (Ok b, w') ∧
    dom (fs w) ⊆ dom (fs w') ∧
    Forall stage inner ∧
    calls w' = calls w
      ++ process_table_call table force_download skip_bigquery
      :: inner ++ [process_table_return table b].
Proof.
  unfold process_table. rewrite bind_call, !bind_log, try_except_Exception.
  match goal with |- context [process_table_try _ _ _ _ _ ?w0] =>
    pose proof (process_table_try_post table force_download skip_bigquery w0) as H;
    destruct (process_table_try env cfg table force_download skip_bigquery w0)
      as [[b|e] w1] end;
  simpl in H; destruct H as [Hd (inner & F & H)].
  - destruct H as [-> H]. exists true, w1, inner.
    rewrite H. simpl. by rewrite <- app_assoc.
  - rewrite bind_log, bind_call. eexists false, _, inner.
    split; [reflexivity|].
    simpl. rewrite H. simpl. by rewrite <- !app_assoc.
Qed.

End ProcessTable.

(** ** The results dictionary *)

Lemma dict_get_set results table success t :
  dict_get (dict_set results table success) t =
  if bool_decide (table = t) then Some success else dict_get results t.
Proof.
  induction results as [|[t' s'] rest IH]; simpl.
  - reflexivity.
  - destruct (bool_decide_reflect (t' = table)) as [->|Hne]; simpl.
    + by destruct (bool_decide (table = t)).
    + rewrite IH. destruct (bool_decide_reflect (t' = t)) as [->|Hne']; [|done].
      by rewrite bool_decide_eq_false_2.
Qed.


Lemma record_outcomes_snoc results l tb :
  record_outcomes results (l ++ [tb]) =
  dict_set (record_outcomes results l) tb.1 tb.2.
Proof. unfold record_outcomes. by rewrite foldl_app. Qed.


Lemma dict_get_record_outcomes results l t :
  dict_get (record_outcomes results l) t =
  match last (filter (λ tb, tb.1 = t) l) with
  | Some tb => Some tb.2
  | None => dict_get results t
  end.
Proof.
  induction l as [|[t' b] l IH] using rev_ind; [done|].
  rewrite record_outcomes_snoc, dict_get_set, filter_app. simpl.
  destruct (bool_decide_reflect (t' = t)) as [->|Hne].
  - rewrite filter_cons_True by done. by rewrite filter_nil, last_snoc.
  - rewrite filter_cons_False by done. by rewrite filter_nil, app_nil_r.
Qed.

(** ** Events of the orchestrator *)

Lemma invocations_app l1 l2 :
  invocations (l1 ++ l2) = invocations l1 ++ invocations l2.
Proof.
  induction l1 as [|c l1 IH]; [done|]. destruct c; simpl; by rewrite ?IH.
Qed.

Lemma outcomes_app l1 l2 : outcomes (l1 ++ l2) = outcomes l1 ++ outcomes l2.
Proof.
  induction l1 as [|c l1 IH]; [done|]. destruct c; simpl; by rewrite ?IH.
Qed.

Lemma stage_not_orchestrate c : stage c → kind c ≠ Orchestrate.
Proof. intros [H|[H|[H|H]]]; rewrite H; done. Qed.

Lemma invocations_stage l : Forall stage l → invocations l = [].
Proof.
  induction 1 as [|c l Hc _ IH]; [done|].
  apply stage_not_orchestrate in Hc. destruct c; simpl; done.
Qed.

Lemma outcomes_stage l : Forall stage l → outcomes l = [].
Proof.
  induction 1 as [|c l Hc _ IH]; [done|].
  apply stage_not_orchestrate in Hc. destruct c; simpl; done.
Qed.

Lemma elem_of_invocations t l :
  t ∈ invocations l ↔ ∃ f s, process_table_call t f s ∈ l.
Proof.
  induction l as [|c l IH]; simpl.
  - split; [by intros ?%elem_of_nil|by intros (?&?&?%elem_of_nil)].
  - destruct c; simpl; rewrite ?elem_of_cons, IH;
      (split; [intros H|intros (f & s & H%elem_of_cons)]);
      try (destruct H as [->|(f & s & H)]; [by eexists _, _; left|]);
      try (destruct H as (f & s & H));
      try (by exists f, s; right);
      try (destruct H as [H|H]; [by inversion H; auto|]);
      try (right); eauto.
Qed.

Lemma elem_of_outcomes t b l :
  (t, b) ∈ outcomes l ↔ process_table_return t b ∈ l.
Proof.
  induction l as [|c l IH]; simpl.
  - split; by intros ?%elem_of_nil.
  - destruct c; simpl; rewrite ?elem_of_cons, IH;
      try (split; [by right|by intros [?|?]]).
    split; (intros [H|H]; [inversion H; by left|by right]).
Qed.

(** ** The loop over the tables *)

Section Loop.

Context (env : Env) (cfg : Config.t).

Lemma process_tables_cons i n table rest force_download skip_bigquery
    fail_fast results :
  process_tables env cfg i n (table :: rest) force_download skip_bigquery
    fail_fast results =
  (log INFO (Starting i n table);;
   success ← process_table env cfg table force_download skip_bigquery;
   let results := dict_set results table success in
   if negb success && fail_fast then
     log ERROR (Text "Stopping due to failure (--fail-fast enabled)");;
     mret results
   else
     process_tables env cfg (i + 1) n rest force_download skip_bigquery
       fail_fast results).
Proof. reflexivity. Qed.

Lemma process_tables_spec force_download skip_bigquery fail_fast tables :
  ∀ i n results w, ∃ results' w' new,
    process_tables env cfg i n tables force_download skip_bigquery fail_fast
      results w = (Ok results', w') ∧
    loop_post tables fail_fast results w results' w' new.
Proof.
  induction tables as [|table rest IH]; intros i n results w.
  - exists results, w, []. split; [done|].
    split; simpl; rewrite ?app_nil_r; auto. 
  - rewrite process_tables_cons, bind_log.
    match goal with |- context [mbind _ _ ?w0] =>
      destruct (process_table_shape env cfg table force_download skip_bigquery w0)
        as (b & w1 & inner & E & Hd & F & Hc) end.
    rewrite (bind_ok _ _ _ _ _ E). simpl in Hd, Hc.
    set (new1 := process_table_call table force_download skip_bigquery
                 :: inner ++ [process_table_return table b]) in *.
    assert (Hinv : invocations new1 = [table]).
    { unfold new1. simpl. rewrite invocations_app, invocations_stage by done.
      done. }
    assert (Hout : outcomes new1 = [(table, b)]).
    { unfold new1. simpl. rewrite outcomes_app, outcomes_stage by done.
      done. }
    assert (Hk : Forall (λ c, stage c ∨ kind c = Orchestrate) new1).
    { unfold new1. constructor; [by right|]. apply Forall_app. split.
      - eapply Forall_impl; [exact F|]. by left.
      - constructor; [by right|constructor]. }
    destruct (negb b && fail_fast) eqn:Hstop.
    + rewrite bind_log. simpl. eexists _, _, new1. split; [reflexivity|].
      apply andb_true_iff in Hstop as [Hb ->]. apply negb_true_iff in Hb as ->.
      split.
      * done.
      * done.
      * done.
      * by rewrite Hinv, Hout.
      * by rewrite Hout.
      * rewrite Hinv. by apply prefix_cons, prefix_nil.
      * right. split; [done|]. exists table. by rewrite Hout.
    + destruct (IH (i + 1) n (dict_set results table b) w1)
        as (results' & w' & new2 & E2 & H2).
      exists results', w', (new1 ++ new2). split; [exact E2|].
      destruct H2 as [Hf2 Hc2 Hk2 Hr2 Hres2 Hp2 Hcomp2]. split.
      * by etrans.
      * by rewrite Hc2, Hc, app_assoc.
      * by apply Forall_app.
      * by rewrite invocations_app, outcomes_app, fmap_app, Hr2, Hinv, Hout.
      * by rewrite outcomes_app, Hout.
      * rewrite invocations_app, Hinv. by apply prefix_cons.
      * rewrite invocations_app, outcomes_app, Hinv, Hout.
        destruct Hcomp2 as [->|[-> (t & Hl)]]; [by left|].
        right. split; [done|]. exists t.
        destruct (outcomes new2) as [|x l]; [done|].
        by rewrite last_app_cons in *.
Qed.


Lemma run_tables_eq tables force_download skip_bigquery fail_fast w :
  run_tables env cfg tables force_download skip_bigquery fail_fast w =
  process_tables env cfg 1 (len (tables_or_default tables))
    (tables_or_default tables) force_download skip_bigquery fail_fast []
    (with_logs w (run_header cfg (tables_or_default tables) force_download)).
Proof.
  unfold run_tables, with_logs, run_header.
  generalize (tables_or_default tables). intros ts.
  rewrite !bind_log. simpl. by rewrite <- !app_assoc.
Qed.

(** The first part of [run_pipeline] always yields a results dictionary. *)
Lemma run_tables_spec tables force_download skip_bigquery fail_fast w :
  ∃ results w' new,
    run_tables env cfg tables force_download skip_bigquery fail_fast w
      = (Ok results, w') ∧
    loop_post (tables_or_default tables) fail_fast [] w results w' new.
Proof.
  rewrite run_tables_eq.
  destruct (process_tables_spec force_download skip_bigquery fail_fast
    (tables_or_default tables) 1 (len (tables_or_default tables)) []
    (with_logs w (run_header cfg (tables_or_default tables) force_download)))
    as (results & w' & new & E & H).
  exists results, w', new. split; [exact E|].
  destruct H. by split.
Qed.


End Loop.

(** ** Cleanup and the end of a run *)

Lemma log_items_eq l tables w :
  log_items l tables w = (Ok tt, with_logs w ((λ t, (l, Item t)) <$> tables)).
Proof.
  revert w. induction tables as [|t rest IH]; intros w; simpl.
  - unfold with_logs. rewrite app_nil_r. by destruct w.
  - rewrite bind_log, IH. unfold with_logs. simpl. by rewrite <- app_assoc.
Qed.

Lemma unlink_each_spec files w :
  ∃ w', unlink_each files w = (Ok tt, w') ∧
        calls w' = calls w ∧
        ∀ p, fs w' !! p = if bool_decide (p ∈ files) then None else fs w !! p.
Proof.
  revert w. induction files as [|file rest IH]; intros w.
  - exists w. by repeat split.
  - simpl. rewrite bind_eq. simpl. rewrite bind_log.
    match goal with |- context [unlink_each rest ?w0] =>
      destruct (IH w0) as (w' & E & Hc & Hf) end.
    exists w'. split; [exact E|]. split; [exact Hc|].
    intros p. rewrite Hf. simpl.
    destruct (bool_decide_reflect (p ∈ rest)) as [Hin|Hnin].
    + rewrite bool_decide_eq_true_2; [done|by right].
    + destruct (decide (p = file)) as [->|Hne].
      * rewrite bool_decide_eq_true_2 by left. apply lookup_delete_eq.
      * rewrite bool_decide_eq_false_2 by (by intros [?|?]%elem_of_cons).
        by apply lookup_delete_ne.
Qed.

Section Cleanup.

Context (cfg : Config.t).

Lemma glob_spec folder suffix w :
  ∃ files, glob folder suffix w = (Ok files, w) ∧
    ∀ p, p ∈ files ↔ is_Some (fs w !! p) ∧ glob_match folder suffix p = true.
Proof.
  eexists. split; [reflexivity|]. intros p.
  rewrite list_elem_of_filter, list_elem_of_fmap. split.
  - intros [Hm ([p' x] & -> & Hin)]. apply elem_of_map_to_list in Hin.
    split; [by eexists|done].
  - intros [[x Hx] Hm]. split; [done|]. exists (p, x).
    split; [done|]. by apply elem_of_map_to_list.
Qed.

(** [cleanup_local_files] always returns; it removes the matching files of
    the raw folder (and of the columnar folder unless [keep_parquet]) and
    nothing else. *)
Lemma cleanup_local_files_spec keep_parquet w :
  ∃ w', cleanup_local_files cfg keep_parquet w = (Ok tt, w') ∧
    calls w' = calls w ++ [cleanup_local_files_call keep_parquet] ∧
    ∀ p, fs w' !! p =
         if glob_match (Config.raw_data_folder cfg) ".tsv.gz" p
            || negb keep_parquet
               && glob_match (Config.parquet_data_folder cfg) ".parquet" p
         then None else fs w !! p.
Proof.
  unfold cleanup_local_files. rewrite bind_call, bind_log.
  match goal with |- context [mbind _ (glob ?d ?s) ?w0] =>
    destruct (glob_spec d s w0) as (files & E & Hfiles);
    rewrite (bind_ok _ _ _ _ _ E) end.
  destruct (unlink_each_spec files
    (mkWorld (fs w) (calls w ++ [cleanup_local_files_call keep_parquet])
       (logs w ++ [(INFO, Text "Cleaning up local files")])))
    as (w1 & E1 & Hc1 & Hf1).
  rewrite (bind_ok _ _ _ _ _ E1).
  assert (Hraw : ∀ p, fs w1 !! p =
    if glob_match (Config.raw_data_folder cfg) ".tsv.gz" p then None
    else fs w !! p).
  { intros p. rewrite Hf1. simpl.
    destruct (glob_match _ _ p) eqn:Hm.
    - destruct (fs w !! p) as [x|] eqn:Hx.
      + rewrite bool_decide_eq_true_2; [done|]. apply Hfiles. simpl.
        rewrite Hx. by split.
      + by destruct (bool_decide _).
    - rewrite bool_decide_eq_false_2; [done|]. intros [_ ?]%Hfiles. congruence. }
  destruct keep_parquet; simpl negb; cbv iota.
  - rewrite bind_eq. simpl. eexists. split; [reflexivity|]. simpl.
    split; [done|]. intros p. rewrite Hraw.
    by destruct (glob_match (Config.raw_data_folder cfg) _ p).
  - destruct (glob_spec (Config.parquet_data_folder cfg) ".parquet" w1)
      as (files2 & E2 & Hfiles2).
    destruct (unlink_each_spec files2 w1) as (w2 & E3 & Hc2 & Hf2).
    rewrite (bind_eq (_ ≫= _)), (bind_ok _ _ _ _ _ E2), E3.
    eexists. split; [reflexivity|]. simpl. split; [by rewrite Hc2|].
    intros p. rewrite Hf2, Hraw.
    destruct (glob_match (Config.raw_data_folder cfg) _ p) eqn:Hm1; simpl.
    + by destruct (bool_decide _).
    + destruct (glob_match (Config.parquet_data_folder cfg) _ p) eqn:Hm.
      * destruct (fs w1 !! p) as [x|] eqn:Hx.
        -- rewrite bool_decide_eq_true_2; [done|]. apply Hfiles2.
           rewrite Hx. by split.
        -- rewrite Hraw, Hm1 in Hx. rewrite Hx. by destruct (bool_decide _).
      * rewrite bool_decide_eq_false_2; [done|].
        intros [_ ?]%Hfiles2. congruence.
Qed.

End Cleanup.

Lemma bind_log_items {B} l tables (k : () → M B) w :
  (log_items l tables ≫= k) w =
  k tt (with_logs w ((λ t, (l, Item t)) <$> tables)).
Proof. by rewrite bind_eq, log_items_eq. Qed.

Lemma filter_outcome_nil (b0 : bool) (results : list (string * bool)) :
  (filter (λ ts : string * bool, ts.2 = b0) results).*1 = [] ↔
  ∀ t b, (t, b) ∈ results → b = negb b0.
Proof.
  split.
  - intros H%fmap_nil_inv t b Hin.
    destruct (decide (b = b0)) as [->|Hne]; [|by destruct b, b0].
    assert ((t, b0) ∈ filter (λ ts : string * bool, ts.2 = b0) results)
      as Hf by (by apply list_elem_of_filter).
    rewrite H in Hf. by apply elem_of_nil in Hf.
  - intros H. destruct (filter _ results) as [|[t b] l] eqn:E; [done|].
    assert ((t, b) ∈ filter (λ ts : string * bool, ts.2 = b0) results)
      as [Hb Hin]%list_elem_of_filter by (rewrite E; left).
    simpl in Hb. apply H in Hin. subst. by destruct b0.
Qed.

Lemma failed_nil results :
  failed results = [] ↔ ∀ t b, (t, b) ∈ results → b = true.
Proof. apply (filter_outcome_nil false). Qed.


Section Finish.

Context (env : Env) (cfg : Config.t).

(** The second part of [run_pipeline] always returns, with the exit code
    of the results; it touches the files only through the cleanup, which
    it calls exactly when asked to and nothing has failed. *)
Lemma finish_run_spec results cleanup w :
  ∃ w', finish_run cfg results cleanup w = (Ok (exit_code results), w') ∧
    if cleanup && bool_decide (failed results = []) then
      calls w' = calls w ++ [cleanup_local_files_call true] ∧
      ∀ p, fs w' !! p =
           if glob_match (Config.raw_data_folder cfg) ".tsv.gz" p
           then None else fs w !! p
    else calls w' = calls w ∧ fs w' = fs w.
Proof.
  unfold finish_run, exit_code. rewrite !bind_log. cbv zeta.
  fold (successful results). fold (failed results).
  rewrite bind_log_items.
  destruct (bool_decide (failed results = [])) eqn:Hf; simpl negb; cbv iota.
  - rewrite (bind_eq (mret tt)). simpl.
    destruct cleanup; simpl andb; cbv iota.
    + rewrite bind_eq, bind_log.
      match goal with |- context [cleanup_local_files cfg true ?w0] =>
        destruct (cleanup_local_files_spec cfg true w0) as (w1 & E & Hc & Hfs)
      end.
      rewrite E. rewrite bind_log. eexists. split; [reflexivity|]. simpl.
      split; [exact Hc|]. intros p. rewrite Hfs. simpl.
      by rewrite orb_false_r.
    + rewrite bind_eq. simpl. eexists. split; [reflexivity|]. done.
  - rewrite andb_false_r.
    rewrite (bind_eq (log _ _ ≫= _)), bind_log, log_items_eq.
    rewrite bind_eq. simpl.
    destruct (bool_decide (successful results = [])); simpl;
      eexists; (split; [reflexivity|]); done.
Qed.

Lemma run_pipeline_eq tables force_download skip_bigquery fail_fast cleanup
    w results w1 :
  run_tables env cfg tables force_download skip_bigquery fail_fast w
    = (Ok results, w1) →
  run_pipeline env cfg tables force_download skip_bigquery fail_fast cleanup w
    = finish_run cfg results cleanup w1.
Proof. intros E. unfold run_pipeline. by rewrite (bind_ok _ _ _ _ _ E). Qed.

(** [Config.validate] only reads; it fails with one of the two classes
    [main] handles. *)
Lemma validate_cases w :
  Config.validate cfg w = (Ok tt, w) ∨
  ∃ e, Config.validate cfg w = (Raise e, w) ∧
       (exn_class e = ValueError ∨ exn_class e = FileNotFoundError).
Proof.
  unfold Config.validate. cbv zeta.
  destruct (negb (bool_decide (_ = []))).
  - right. eexists. split; [reflexivity|]. by left.
  - rewrite bind_eq. simpl.
    destruct (bool_decide (is_Some (fs w !! Config.credentials_path cfg))); simpl.
    + by left.
    + right. eexists. split; [reflexivity|]. by right.
Qed.

Lemma main_validate_ok force_download skip_bigquery tables fail_fast cleanup
    verbose w :
  Config.validate cfg w = (Ok tt, w) →
  main env cfg force_download skip_bigquery tables fail_fast cleanup false
    verbose w =
  run_pipeline env cfg (cli_tables tables) force_download skip_bigquery
    fail_fast cleanup w.
Proof.
  intros E. unfold main. cbv zeta. rewrite bind_eq. unfold try_except.
  rewrite (bind_ok _ _ _ _ _ E). reflexivity.
Qed.

Lemma main_validate_error force_download skip_bigquery tables fail_fast cleanup
    dry_run verbose w e :
  Config.validate cfg w = (Raise e, w) →
  main env cfg force_download skip_bigquery tables fail_fast cleanup dry_run
    verbose w = (Ok 2, with_logs w [(ERROR, Configuration_error e)]).
Proof.
  intros E. destruct (validate_cases w) as [E'|(e' & E' & Hcls)]; [congruence|].
  assert (e' = e) as -> by congruence.
  unfold main. cbv zeta. rewrite bind_eq. unfold try_except.
  rewrite (bind_raise _ _ _ _ _ E). simpl. unfold isinstance.
  destruct Hcls as [-> | ->]; reflexivity.
Qed.

End Finish.

(** * The claims *)

Section ExitStatus.

Context (env : Env) (cfg : Config.t).





End ExitStatus.

Section RunResult.

Context (env : Env) (cfg : Config.t).

Lemma last_outcome_record_outcomes new t :
  dict_get (record_outcomes [] (outcomes new)) t = last_outcome t new.
Proof.
  rewrite dict_get_record_outcomes. unfold last_outcome.
  by destruct (last _).
Qed.

Lemma last_outcome_unanimous new t b :
  process_table_return t b ∈ new →
  (∀ b', process_table_return t b' ∈ new → b' = b) →
  last_outcome t new = Some b.
Proof.
  intros Hin Hall. unfold last_outcome.
  destruct (last (filter (λ tb : string * bool, tb.1 = t) (outcomes new)))
    as [[t' b']|] eqn:E.
  - apply last_Some_elem_of, list_elem_of_filter in E as [Ht E].
    simpl in Ht. subst t'. apply elem_of_outcomes in E.
    simpl. f_equal. by apply Hall.
  - apply last_None in E.
    assert ((t, b) ∈ filter (λ tb : string * bool, tb.1 = t) (outcomes new))
      as Hf by (apply list_elem_of_filter; split; [done|by apply elem_of_outcomes]).
    rewrite E in Hf. by apply elem_of_nil in Hf.
Qed.

(** With [fail_fast] set and a first table that fails, the loop stops
    after that table. *)
Lemma process_tables_fail_fast i n table rest force_download skip_bigquery
    results w wA :
  process_table env cfg table force_download skip_bigquery
    (with_logs w [(INFO, Starting i n table)]) = (Ok false, wA) →
  process_tables env cfg i n (table :: rest) force_download skip_bigquery true
    results w =
  (Ok (dict_set results table false),
   with_logs wA
     [(ERROR, Text "Stopping due to failure (--fail-fast enabled)")]).
Proof.
  intros E. rewrite process_tables_cons, bind_log.
  unfold with_logs in E. by rewrite (bind_ok _ _ _ _ _ E).
Qed.

(** C2. For every table list, the Run Result has an entry for a table
    exactly when [process_table] was invoked for it, and the entry is what
    the (last) invocation for that table returned; in particular it is [b]
    when every invocation for the table returned [b].  With [fail_fast] and
    tables [A; B; C] where [A] fails, the run ends in the state in which
    the processing of [A] ended (one log record apart): [process_table]
    is entered for [A] only and the Run Result is [{A: false}]. *)
Theorem run_result_law (force_download skip_bigquery : bool) (w : World) :
  (∀ tables fail_fast, ∃ results w' new,
     run_tables env cfg tables force_download skip_bigquery fail_fast w
       = (Ok results, w') ∧
     calls w' = calls w ++ new ∧
     (∀ t, (∃ f s, process_table_call t f s ∈ new)
           ↔ is_Some (dict_get results t)) ∧
     (∀ t, dict_get results t = last_outcome t new) ∧
     (∀ t b, process_table_return t b ∈ new →
             (∀ b', process_table_return t b' ∈ new → b' = b) →
             dict_get results t = Some b)) ∧
  (∀ A B C wA,
     process_table env cfg A force_download skip_bigquery
       (with_logs w (run_header cfg [A; B; C] force_download
                     ++ [(INFO, Starting 1 3 A)])) = (Ok false, wA) →
     run_tables env cfg (Some [A; B; C]) force_download skip_bigquery true w
       = (Ok [(A, false)],
          with_logs wA
            [(ERROR, Text "Stopping due to failure (--fail-fast enabled)")]) ∧
     ∃ new, calls wA = calls w ++ new ∧ invocations new = [A]).
Proof.
  split.
  - intros tables fail_fast.
    destruct (run_tables_spec env cfg tables force_download skip_bigquery
                fail_fast w) as (results & w' & new & E & Hpost).
    destruct Hpost as [_ Hc _ Hr -> _ _].
    exists (record_outcomes [] (outcomes new)), w', new.
    split; [exact E|]. split; [exact Hc|].
    assert (Hlast : ∀ t, dict_get (record_outcomes [] (outcomes new)) t
                         = last_outcome t new)
      by apply last_outcome_record_outcomes.
    split; [|split; [exact Hlast|]].
    + intros t. rewrite <- elem_of_invocations, Hr, Hlast.
      unfold last_outcome. rewrite fmap_is_Some, last_is_Some.
      rewrite list_elem_of_fmap. split.
      * intros ([t' b] & -> & Hin) Hnil. simpl in Hnil.
        assert ((t', b) ∈ filter (λ tb : string * bool, tb.1 = t')
                  (outcomes new)) as Hf.
        { apply list_elem_of_filter. by split. }
        rewrite Hnil in Hf. by apply elem_of_nil in Hf.
      * intros Hne.
        destruct (filter (λ tb : string * bool, tb.1 = t) (outcomes new))
          as [|[t' b] l] eqn:Ef; [done|].
        assert ((t', b) ∈ filter (λ tb : string * bool, tb.1 = t)
                  (outcomes new)) as [Ht Hin]%list_elem_of_filter
          by (rewrite Ef; left).
        simpl in Ht. subst. by exists (t, b).
    + intros t b Hin Hall. rewrite Hlast.
      by apply last_outcome_unanimous.
  - intros A B C wA E. split.
    + rewrite run_tables_eq. simpl tables_or_default.
      rewrite (process_tables_fail_fast _ _ _ _ _ _ _ _ wA); [done|].
      unfold with_logs in *. simpl. rewrite <- app_assoc. exact E.
    + match type of E with process_table _ _ _ _ _ ?w0 = _ =>
        destruct (process_table_shape env cfg A force_download skip_bigquery w0)
          as (b & w1 & inner & E1 & _ & F & Hc) end.
      rewrite E in E1. injection E1 as <- <-.
      eexists. split; [exact Hc|]. simpl.
      rewrite invocations_app, invocations_stage by done. done.
Qed.

End RunResult.

Section CleanupGuard.

Context (env : Env) (cfg : Config.t).

Lemma loop_no_cleanup (new : list Call) k :
  Forall (λ c, stage c ∨ kind c = Orchestrate) new →
  cleanup_local_files_call k ∉ new.
Proof.
  intros F Hin. rewrite Forall_forall in F. apply F in Hin.
  destruct Hin as [[H|[H|[H|H]]]|H]; discriminate H.
Qed.

(** C4. [run_pipeline] calls [cleanup_local_files] exactly when [cleanup]
    is set and no outcome in the Run Result is a failure.  No file is
    deleted while the tables are processed, and when some outcome is a
    failure the files are, at the end of the run, those the processing
    left, whatever [cleanup] is.  When the cleanup does run, it removes the
    [*.tsv.gz] files of the raw folder and nothing else. *)
Theorem cleanup_guard (tables : option (list string))
    (force_download skip_bigquery fail_fast cleanup : bool) (w : World) :
  ∃ results w1 code w2 new,
    run_tables env cfg tables force_download skip_bigquery fail_fast w
      = (Ok results, w1) ∧
    run_pipeline env cfg tables force_download skip_bigquery fail_fast cleanup w
      = (Ok code, w2) ∧
    calls w2 = calls w ++ new ∧
    dom (fs w) ⊆ dom (fs w1) ∧
    ((∃ k, cleanup_local_files_call k ∈ new) ↔
     cleanup = true ∧ ∀ t b, (t, b) ∈ results → b = true) ∧
    ((∃ t, (t, false) ∈ results) →
     fs w2 = fs w1 ∧ dom (fs w) ⊆ dom (fs w2)) ∧
    (cleanup = true → (∀ t b, (t, b) ∈ results → b = true) →
     ∀ p, fs w2 !! p =
          if glob_match (Config.raw_data_folder cfg) ".tsv.gz" p
          then None else fs w1 !! p).
Proof.
  destruct (run_tables_spec env cfg tables force_download skip_bigquery
              fail_fast w) as (results & w1 & new1 & E & Hpost).
  destruct (finish_run_spec cfg results cleanup w1) as (w2 & E2 & Hfin).
  destruct Hpost as [Hd Hc Hk _ _ _ _].
  assert (Hrun : run_pipeline env cfg tables force_download skip_bigquery
                   fail_fast cleanup w = (Ok (exit_code results), w2)).
  { by rewrite (run_pipeline_eq _ _ _ _ _ _ _ _ _ _ E). }
  destruct (bool_decide_reflect (failed results = [])) as [Hf|Hf].
  - pose proof (proj1 (failed_nil results) Hf) as Hall.
    destruct cleanup; simpl in Hfin.
    + destruct Hfin as [Hc2 Hfs].
      exists results, w1, (exit_code results), w2,
        (new1 ++ [cleanup_local_files_call true]).
      split; [exact E|]. split; [exact Hrun|].
      split; [by rewrite Hc2, Hc, app_assoc|]. split; [exact Hd|].
      split; [|split].
      * split; [done|]. intros _. exists true.
        apply elem_of_app. right. left.
      * intros [t Ht]. by apply Hall in Ht.
      * intros _ _. exact Hfs.
    + destruct Hfin as [Hc2 Hfs].
      exists results, w1, (exit_code results), w2, new1.
      split; [exact E|]. split; [exact Hrun|].
      split; [by rewrite Hc2, Hc|]. split; [exact Hd|].
      split; [|split].
      * split; [|by intros [? _]]. intros [k Hin].
        by apply loop_no_cleanup in Hin.
      * intros [t Ht]. by apply Hall in Ht.
      * done.
  - rewrite andb_false_r in Hfin. destruct Hfin as [Hc2 Hfs].
    exists results, w1, (exit_code results), w2, new1.
    split; [exact E|]. split; [exact Hrun|].
    split; [by rewrite Hc2, Hc|]. split; [exact Hd|].
    split; [|split].
    + split.
      * intros [k Hin]. by apply loop_no_cleanup in Hin.
      * intros [_ Hall]. by apply failed_nil in Hall.
    + intros _. by rewrite Hfs.
    + intros _ Hall. by apply failed_nil in Hall.
Qed.

End CleanupGuard.

Lemma record_outcomes_keys (l : list (string * bool)) t :
  is_Some (dict_get (record_outcomes [] l) t) ↔ t ∈ l.*1.
Proof.
  rewrite dict_get_record_outcomes, list_elem_of_fmap. split.
  - destruct (last (filter (λ tb : string * bool, tb.1 = t) l))
      as [[t' b]|] eqn:E; [|by intros [? ?]].
    apply last_Some_elem_of, list_elem_of_filter in E as [Ht E].
    simpl in Ht. subst. intros _. by exists (t, b).
  - intros ([t' b] & -> & Hin). simpl.
    destruct (last (filter (λ tb : string * bool, tb.1 = t') l)) eqn:E; [done|].
    apply last_None in E.
    assert ((t', b) ∈ filter (λ tb : string * bool, tb.1 = t') l) as Hf
      by (by apply list_elem_of_filter).
    rewrite E in Hf. by apply elem_of_nil in Hf.
Qed.

Lemma record_outcomes_last (l : list (string * bool)) t b :
  last l = Some (t, b) → dict_get (record_outcomes [] l) t = Some b.
Proof.
  intros [l' ->]%last_Some.
  by rewrite record_outcomes_snoc, dict_get_set, bool_decide_eq_true_2.
Qed.

Section DefaultCatalogue.

Context (env : Env) (cfg : Config.t).

Lemma covers_catalogue_default tables force_download skip_bigquery fail_fast w :
  tables_or_default tables = Config.tables →
  covers_catalogue env cfg tables force_download skip_bigquery fail_fast w.
Proof.
  intros Hdef.
  destruct (run_tables_spec env cfg tables force_download skip_bigquery
              fail_fast w) as (results & w' & new & E & Hpost).
  destruct Hpost as [_ Hc _ Hr -> _ Hcomp]. rewrite Hdef in Hcomp.
  eexists _, w', new. split; [exact E|]. split; [exact Hc|].
  destruct Hcomp as [Hall|[-> [t Hl]]].
  - left. split; [exact Hall|]. intros t Ht.
    apply record_outcomes_keys. by rewrite <- Hr, Hall.
  - right. split; [done|]. exists t. by apply record_outcomes_last.
Qed.

Lemma run_pipeline_default tables tables' force_download skip_bigquery
    fail_fast cleanup :
  tables_or_default tables = tables_or_default tables' →
  run_pipeline env cfg tables force_download skip_bigquery fail_fast cleanup
  = run_pipeline env cfg tables' force_download skip_bigquery fail_fast cleanup.
Proof. intros H. unfold run_pipeline, run_tables. by rewrite H. Qed.

(** C10. The default catalogue has seven tables.  [run_pipeline] called
    with [None] or with the empty list behaves as when called with the
    catalogue: [process_table] is entered for each catalogue table in
    order and each has an entry in the Run Result, unless [fail_fast] is
    set and the Run Result holds a failure. *)
Theorem default_catalogue_law
    (force_download skip_bigquery fail_fast cleanup : bool) (w : World) :
  length Config.tables = 7%nat ∧
  run_pipeline env cfg None force_download skip_bigquery fail_fast cleanup w
  = run_pipeline env cfg (Some Config.tables) force_download skip_bigquery
      fail_fast cleanup w ∧
  run_pipeline env cfg (Some []) force_download skip_bigquery fail_fast cleanup w
  = run_pipeline env cfg (Some Config.tables) force_download skip_bigquery
      fail_fast cleanup w ∧
  covers_catalogue env cfg None force_download skip_bigquery fail_fast w ∧
  covers_catalogue env cfg (Some []) force_download skip_bigquery fail_fast w.
Proof.
  split; [reflexivity|].
  split; [by rewrite (run_pipeline_default None (Some Config.tables))|].
  split; [by rewrite (run_pipeline_default (Some []) (Some Config.tables))|].
  split; by apply covers_catalogue_default.
Qed.

End DefaultCatalogue.

Section Errors.

Context (env : Env) (cfg : Config.t).

Lemma process_table_eq table force_download skip_bigquery w :
  process_table env cfg table force_download skip_bigquery w =
  match process_table_try env cfg table force_download skip_bigquery
          (entered table force_download skip_bigquery w) with
  | (Ok b, w1) => (Ok b, w1)
  | (Raise e, w1) => (Ok false, failed_with table e w1)
  end.
Proof.
  unfold process_table. rewrite bind_call, !bind_log, try_except_Exception.
  unfold entered. simpl. rewrite <- !app_assoc. simpl.
  destruct (process_table_try _ _ _ _ _ _) as [[b|e] w1]; [done|].
  by rewrite bind_log, bind_call.
Qed.

Lemma run_pipeline_returns tables force_download skip_bigquery fail_fast
    cleanup w :
  ∃ code w', run_pipeline env cfg tables force_download skip_bigquery
               fail_fast cleanup w = (Ok code, w').
Proof.
  destruct (run_tables_spec env cfg tables force_download skip_bigquery
              fail_fast w) as (results & w1 & new & E & _).
  destruct (finish_run_spec cfg results cleanup w1) as (w2 & E2 & _).
  exists (exit_code results), w2.
  by rewrite (run_pipeline_eq _ _ _ _ _ _ _ _ _ _ E).
Qed.

Lemma main_dry_run force_download skip_bigquery tables fail_fast cleanup
    verbose w :
  Config.validate cfg w = (Ok tt, w) →
  ∃ w', main env cfg force_download skip_bigquery tables fail_fast cleanup
          true verbose w = (Ok 0, w') ∧
        fs w' = fs w ∧ calls w' = calls w.
Proof.
  intros E. unfold main. cbv zeta. rewrite bind_eq. unfold try_except.
  rewrite (bind_ok _ _ _ _ _ E). simpl.
  rewrite !bind_log. eexists. split; [reflexivity|]. done.
Qed.

End Errors.

Section QueryTool.

Context (env : Env) (CREDENTIALS_PATH : Path).

Lemma execute_sql_try_success sql_query w r w' :
  execute_sql_try env CREDENTIALS_PATH sql_query w = (Ok r, w') →
  success_shape r.
Proof.
  unfold execute_sql_try, tool_get_bigquery_client.
  unfold mbind, M_bind, mret, M_ret, get_fs, get_calls, call, raise. simpl.
  destruct (fs w !! CREDENTIALS_PATH) as [content|]; simpl; [|done].
  destruct (credentials_from_file env (calls w) content); simpl; [done|].
  destruct (bq_query env (calls w) sql_query) as [e|job]; simpl; [done|].
  destruct (query_result job) as [e|df]; simpl; [done|].
  intros [= <- <-]. repeat split. by exists df.
Qed.

(** C9. [execute_sql] always returns a dictionary and never raises.  When
    the credentials load, the query is accepted and its result converts to
    a frame, [success] is [True], [error] is [None], [data] is the frame
    and [rows_returned] is its number of rows.  When the credentials file
    is missing, the credentials are rejected, the query raises or its
    result does, [success] is [False], [data] is [None], [error] is the
    text of that error and [rows_returned] is 0. *)
Theorem execute_sql_law (sql_query : string) (w : World) :
  ∃ r w',
    execute_sql env CREDENTIALS_PATH sql_query w = (Ok r, w') ∧
    let history := calls w ++ [execute_sql_call sql_query] in
    match fs w !! CREDENTIALS_PATH with
    | None => ∃ e, exn_class e = FileNotFoundError ∧ failure_shape e r
    | Some content =>
        match credentials_from_file env history content with
        | Some e => failure_shape e r
        | None =>
            match bq_query env history sql_query with
            | inl e => failure_shape e r
            | inr query_job =>
                match query_result query_job with
                | inl e => failure_shape e r
                | inr df =>
                    success_shape r ∧ data r = Some df ∧
                    bytes_processed r = total_bytes_processed query_job
                end
            end
        end
    end.
Proof.
  unfold execute_sql. rewrite bind_call, try_except_Exception.
  unfold execute_sql_try, tool_get_bigquery_client.
  unfold mbind, M_bind, mret, M_ret, get_fs, get_calls, call, raise, lift_sum,
    lift_err. simpl.
  destruct (fs w !! CREDENTIALS_PATH) as [content|]; simpl.
  2: { eexists _, _. split; [reflexivity|].
       exists (mkExn FileNotFoundError CREDENTIALS_PATH). by repeat split. }
  destruct (credentials_from_file env _ content); simpl; [by eexists _, _|].
  destruct (bq_query env _ sql_query) as [e|job]; simpl; [by eexists _, _|].
  destruct (query_result job) as [e|df]; simpl; [by eexists _, _|].
  eexists _, _. split; [reflexivity|]. simpl. split; [|done].
  repeat split. by exists df.
Qed.

End QueryTool.

Section CacheHit.

Context (env : Env) (cfg : Config.t).

Lemma process_table_try_cached table skip_bigquery w :
  is_Some (fs w !! raw_path_of cfg table) →
  is_Some (fs w !! parquet_path_of cfg table) →
  process_table_try env cfg table false skip_bigquery
    (entered table false skip_bigquery w)
  = publish_and_load env cfg table skip_bigquery (at_publish cfg table skip_bigquery w).
Proof.
  intros Hraw Hpq. unfold process_table_try. cbv zeta.
  fold (raw_path_of cfg table). fold (parquet_path_of cfg table).
  rewrite bind_eq. unfold path_exists at 1. rewrite !bind_eq. simpl.
  rewrite (bool_decide_eq_true_2 _ Hraw). simpl.
  rewrite bind_log.
  rewrite bind_eq. unfold path_exists at 1. rewrite !bind_eq. simpl.
  rewrite (bool_decide_eq_true_2 _ Hpq). simpl.
  rewrite bind_log.
  unfold publish_and_load, at_publish, with_logs, entered. simpl.
  by rewrite <- !app_assoc.
Qed.

Lemma upload_to_gcs_shape local_path gcs_path bucket_name w :
  ∃ rest,
    calls (upload_to_gcs env cfg local_path gcs_path bucket_name w).2
    = calls w ++ upload_to_gcs_call local_path gcs_path :: rest ∧
    Forall (λ c, kind c = Publish) rest.
Proof.
  unfold upload_to_gcs. rewrite bind_call.
  match goal with |- ∃ rest, calls (?body ?u ?w1).2 = _ ∧ _ =>
    assert (steps (grows (λ c, kind c = Publish)) (body u)) as H
  end.
  { pose proof (steps_get_client env cfg (λ c, kind c = Publish)).
    unfold get_gcs_client, upload_from_filename. steps_tac. }
  match goal with |- ∃ rest, calls (?body ?u ?w1).2 = _ ∧ _ =>
    destruct (H w1) as [_ (n & En & Fn)] end.
  exists n. simpl in En. rewrite En. by rewrite <- app_assoc.
Qed.

Lemma load_to_bigquery_shape gcs_uri dataset_id table_id write_disposition w :
  ∃ rest,
    calls (load_to_bigquery env cfg gcs_uri dataset_id table_id
             write_disposition w).2
    = calls w
      ++ load_to_bigquery_call gcs_uri dataset_id table_id write_disposition
      :: rest ∧
    Forall (λ c, kind c = Load) rest.
Proof.
  unfold load_to_bigquery. rewrite bind_call.
  match goal with |- ∃ rest, calls (?body ?u ?w1).2 = _ ∧ _ =>
    assert (steps (grows (λ c, kind c = Load)) (body u)) as H
  end.
  { pose proof (steps_get_client env cfg (λ c, kind c = Load)).
    pose proof (steps_ensure_dataset_exists env cfg (λ c, kind c = Load)).
    unfold get_bigquery_client. steps_tac. }
  match goal with |- ∃ rest, calls (?body ?u ?w1).2 = _ ∧ _ =>
    destruct (H w1) as [_ (n & En & Fn)] end.
  exists n. simpl in En. rewrite En. by rewrite <- app_assoc.
Qed.

End CacheHit.

Section CacheHitLaw.

Context (env : Env) (cfg : Config.t).

Lemma Forall_kind_weaken (k : Kind) (Q : Call → Prop) (l : list Call) :
  (∀ c, kind c = k → Q c) → Forall (λ c, kind c = k) l → Forall Q l.
Proof. intros H F. eapply Forall_impl; [exact F|]. auto. Qed.

(** C3 (amended). With [force] false and both artifacts of the table on
    disk, [process_table] makes no fetch and no transform call; it makes
    the publish call, and it makes the load call exactly when that publish
    call returns a URI and [skip_bigquery] is not set.  When the publish
    call raises, the table fails without a load call. *)
Theorem cache_hit_law (table : string) (skip_bigquery : bool) (w : World) :
  is_Some (fs w !! raw_path_of cfg table) →
  is_Some (fs w !! parquet_path_of cfg table) →
  ∃ b w' rest,
    process_table env cfg table false skip_bigquery w = (Ok b, w') ∧
    calls w' = calls w
      ++ process_table_call table false skip_bigquery
      :: upload_to_gcs_call (parquet_path_of cfg table)
           (Config.get_gcs_path table)
      :: rest ∧
    Forall not_fetch_or_transform rest ∧
    match upload_to_gcs env cfg (parquet_path_of cfg table)
            (Config.get_gcs_path table) None
            (at_publish cfg table skip_bigquery w) with
    | (Ok gcs_uri, _) =>
        if skip_bigquery then Forall (λ c, kind c ≠ Load) rest
        else load_to_bigquery_call gcs_uri (Config.bronze_dataset cfg)
               (Config.get_table_id table) "WRITE_TRUNCATE" ∈ rest
    | (Raise _, _) => b = false ∧ Forall (λ c, kind c ≠ Load) rest
    end.
Proof.
  intros Hraw Hpq.
  rewrite process_table_eq, (process_table_try_cached env cfg) by done.
  unfold publish_and_load. rewrite bind_eq.
  destruct (upload_to_gcs_shape env cfg (parquet_path_of cfg table)
              (Config.get_gcs_path table) None
              (at_publish cfg table skip_bigquery w)) as (n1 & E1 & F1).
  assert (F1a : Forall not_fetch_or_transform n1).
  { eapply Forall_kind_weaken; [|exact F1]. intros c Hk.
    unfold not_fetch_or_transform. by rewrite Hk. }
  assert (F1b : Forall (λ c, kind c ≠ Load) n1).
  { eapply Forall_kind_weaken; [|exact F1]. intros c Hk. by rewrite Hk. }
  destruct (upload_to_gcs env cfg _ _ None _) as [[gcs_uri|e] w2];
    simpl in E1.
  - destruct skip_bigquery; simpl negb; cbv iota.
    + rewrite !bind_log, bind_call.
      eexists true, _, (n1 ++ [process_table_return table true]).
      split; [reflexivity|]. simpl. rewrite E1.
      split; [by rewrite <- !app_assoc|].
      split; apply Forall_app; (split; [done|]);
        repeat constructor; done.
    + rewrite bind_eq.
      destruct (load_to_bigquery_shape env cfg gcs_uri
                  (Config.bronze_dataset cfg) (Config.get_table_id table)
                  "WRITE_TRUNCATE" w2) as (n2 & E2 & F2).
      assert (F2a : Forall not_fetch_or_transform n2).
      { eapply Forall_kind_weaken; [|exact F2]. intros c Hk.
    unfold not_fetch_or_transform. by rewrite Hk. }
      destruct (load_to_bigquery env cfg _ _ _ _ w2) as [[[]|e] w3];
        simpl in E2.
      * rewrite bind_log, bind_call.
        eexists true, _,
          (n1 ++ load_to_bigquery_call gcs_uri (Config.bronze_dataset cfg)
                   (Config.get_table_id table) "WRITE_TRUNCATE"
              :: n2 ++ [process_table_return table true]).
        split; [reflexivity|]. simpl. rewrite E2, E1.
        split; [by rewrite <- !app_assoc|]. split.
        -- apply Forall_app. split; [done|]. constructor; [done|].
           apply Forall_app. split; [done|]. repeat constructor; done.
        -- apply elem_of_app. right. left.
      * eexists false, _,
          (n1 ++ load_to_bigquery_call gcs_uri (Config.bronze_dataset cfg)
                   (Config.get_table_id table) "WRITE_TRUNCATE"
              :: n2 ++ [process_table_return table false]).
        split; [reflexivity|]. simpl. rewrite E2, E1.
        split; [by rewrite <- !app_assoc|]. split.
        -- apply Forall_app. split; [done|]. constructor; [done|].
           apply Forall_app. split; [done|]. repeat constructor; done.
        -- apply elem_of_app. right. left.
  - eexists false, _, (n1 ++ [process_table_return table false]).
    split; [reflexivity|]. simpl. rewrite E1.
    split; [by rewrite <- !app_assoc|].
    split; [|split; [done|]]; apply Forall_app; (split; [done|]);
      repeat constructor; done.
Qed.

End CacheHitLaw.

(** * Fetch, transform and dataset provisioning *)

Lemma string_app_cons a s t : String a s +:+ t = String a (s +:+ t).
Proof. reflexivity. Qed.

Lemma string_app_nil_r s : s +:+ "" = s.
Proof.
  induction s as [|a s IH]; [done|]. by rewrite string_app_cons, IH.
Qed.

Lemma string_app_assoc s1 s2 s3 : (s1 +:+ s2) +:+ s3 = s1 +:+ s2 +:+ s3.
Proof.
  induction s1 as [|a s1 IH]; [done|]. by rewrite !string_app_cons, IH.
Qed.

Section Fetch.

Context (env : Env) (cfg : Config.t).

(** [write_chunks] appends the chunks to the open destination and does
    nothing else to the files. *)
Lemma write_chunks_spec destination chunk_size total_size chunks :
  ∀ downloaded_size w content,
    fs w !! destination = Some content →
    ∃ n w',
      write_chunks destination chunk_size total_size chunks downloaded_size w
        = (Ok n, w') ∧
      fs w' = <[destination := content +:+ received chunks]> (fs w) ∧
      calls w' = calls w.
Proof.
  induction chunks as [|chunk rest IH]; intros d w content Hc; simpl.
  - exists d, w. split; [done|]. split; [|done].
    by rewrite string_app_nil_r, insert_id.
  - unfold truthy. destruct (bool_decide_reflect (chunk = "")) as [->|Hne]; simpl.
    + apply (IH d w content Hc).
    + unfold file_write. rewrite !bind_eq. simpl. rewrite Hc. simpl.
      set (w1 := mkWorld (<[destination := content +:+ chunk]> (fs w))
                   (calls w) (logs w)).
      destruct (bool_decide _); simpl.
      * edestruct (IH (d + len_str chunk)
                     (mkWorld (fs w1) (calls w1)
                        (logs w1 ++ [(INFO, Progress (d + len_str chunk)
                                              total_size)]))
                     (content +:+ chunk)) as (n & w' & E & Hf & Hcalls).
        { simpl. apply lookup_insert_eq. }
        exists n, w'. split; [exact E|]. split; [|done].
        rewrite Hf. simpl. by rewrite insert_insert_eq, string_app_assoc.
      * edestruct (IH (d + len_str chunk) w1 (content +:+ chunk))
          as (n & w' & E & Hf & Hcalls).
        { simpl. apply lookup_insert_eq. }
        exists n, w'. split; [exact E|]. split; [|done].
        rewrite Hf. simpl. by rewrite insert_insert_eq, string_app_assoc.
Qed.

Lemma download_file_request_error url destination chunk_size w e :
  requests_get env (requesting url destination w) url = inl e →
  ∃ w', download_file env url destination chunk_size w = (Raise e, w') ∧
        fs w' = fs w.
Proof.
  intros Hreq. unfold download_file, requesting in *.
  rewrite bind_call, bind_log. unfold try_except.
  rewrite bind_eq. simpl. rewrite bind_call. rewrite bind_eq. simpl.
  rewrite Hreq. simpl.
  destruct (isinstance e RequestException); [|by eexists].
  rewrite bind_log. by eexists.
Qed.

Lemma download_file_status_error url destination chunk_size w r e :
  requests_get env (requesting url destination w) url = inr r →
  status_error r = Some e →
  ∃ w', download_file env url destination chunk_size w = (Raise e, w') ∧
        fs w' = fs w.
Proof.
  intros Hreq Hst. unfold download_file, requesting in *.
  rewrite bind_call, bind_log. unfold try_except.
  rewrite bind_eq. simpl. rewrite bind_call. rewrite bind_eq. simpl.
  rewrite Hreq. simpl. rewrite bind_eq. rewrite Hst. simpl.
  destruct (isinstance e RequestException); [|by eexists].
  rewrite bind_log. by eexists.
Qed.

Lemma download_file_interrupted url destination chunk_size w r e :
  requests_get env (requesting url destination w) url = inr r →
  status_error r = None →
  (∀ raw, content_length r ≠ HdrBad raw) →
  body_error r = Some e →
  ∃ w', download_file env url destination chunk_size w = (Raise e, w') ∧
        fs w' = <[destination := received (body r)]> (fs w).
Proof.
  intros Hreq Hst Hhdr Hbody. unfold download_file, requesting in *.
  rewrite bind_call, bind_log. unfold try_except.
  rewrite bind_eq. simpl. rewrite bind_call. rewrite bind_eq. simpl.
  rewrite Hreq. simpl. rewrite bind_eq. rewrite Hst. simpl.
  unfold int_content_length.
  destruct (content_length r) as [|raw|n] eqn:Hlen; [|by destruct (Hhdr raw)|];
    rewrite bind_eq; simpl; rewrite bind_eq; unfold open_wb; simpl;
    match goal with |- context [mbind _ (write_chunks ?d ?c ?t ?b ?z) ?w1] =>
      destruct (write_chunks_spec d c t b z w1 "") as (k & w2 & E & Hf & _);
      [simpl; apply lookup_insert_eq|] end;
    rewrite (bind_ok _ _ _ _ _ E); rewrite bind_eq; rewrite Hbody; simpl;
    (assert (Hfs : fs w2 = <[destination := received (body r)]> (fs w))
       by (rewrite Hf; simpl; by rewrite insert_insert_eq));
    (destruct (isinstance e RequestException); [|by eexists]);
    rewrite bind_log; by eexists.
Qed.

(** With the raw artifact on disk and [force] false, [process_table] makes
    no call of the fetch stage. *)
Lemma process_table_raw_cached table skip_bigquery w :
  is_Some (fs w !! raw_path_of cfg table) →
  ∃ new,
    calls (process_table env cfg table false skip_bigquery w).2
    = calls w ++ new ∧
    Forall (λ c, kind c ≠ Fetch) new.
Proof.
  intros Hraw. rewrite process_table_eq.
  set (P := λ c : Call, kind c ≠ Fetch).
  unfold process_table_try. cbv zeta. fold (raw_path_of cfg table).
  rewrite bind_eq. unfold path_exists at 1. rewrite !bind_eq. simpl.
  rewrite (bool_decide_eq_true_2 _ Hraw). simpl. rewrite bind_log.
  match goal with |- context [mbind ?k ?c ?w0] =>
    assert (post (returns_after P table) (mbind k c)) as Hpost end.
  { pose proof (steps_convert_to_parquet env P) as Hc.
    pose proof (steps_upload_to_gcs env cfg P) as Hu.
    pose proof (steps_load_to_bigquery env cfg P) as Hl.
    assert (HT : ∀ c, kind c = Transform → P c) by (by intros c Hk; unfold P; rewrite Hk).
    assert (HP : ∀ c, kind c = Publish → P c) by (by intros c Hk; unfold P; rewrite Hk).
    assert (HL : ∀ c, kind c = Load → P c) by (by intros c Hk; unfold P; rewrite Hk).
    do 5 (apply post_bind_grows; [steps_tac|intros]).
    intros w0. split; [done|]. exists []. simpl. by split. }
  match goal with |- context [mbind ?k ?c ?w0] =>
    specialize (Hpost w0); destruct (mbind k c w0) as [[b|e] w1] end;
    simpl in Hpost; destruct Hpost as (_ & inner & F & H).
  - destruct H as [-> H]. simpl. rewrite H. simpl.
    eexists. rewrite <- !app_assoc. split; [reflexivity|].
    constructor; [done|]. apply Forall_app. split; [done|].
    by repeat constructor.
  - simpl. rewrite H. simpl.
    eexists. rewrite <- !app_assoc. split; [reflexivity|].
    constructor; [done|]. apply Forall_app. split; [done|].
    by repeat constructor.
Qed.

End Fetch.

Section FetchLaw.

Context (env : Env) (cfg : Config.t).

(** C5 (amended). When the request fails or the response has an error
    status, [download_file] raises and leaves the files as they were.  When
    the stream breaks off after the destination has been opened,
    [download_file] raises and the destination holds the bytes received so
    far; and whenever the raw artifact of a table is on disk,
    [process_table] with [force] false makes no fetch call. *)
Theorem fetch_failure_law (url : string) (destination : Path)
    (chunk_size : Z) (w : World) :
  (∀ e, requests_get env (requesting url destination w) url = inl e →
        ∃ w', download_file env url destination chunk_size w = (Raise e, w') ∧
              fs w' = fs w) ∧
  (∀ r e, requests_get env (requesting url destination w) url = inr r →
          status_error r = Some e →
          ∃ w', download_file env url destination chunk_size w = (Raise e, w') ∧
                fs w' = fs w) ∧
  (∀ r e, requests_get env (requesting url destination w) url = inr r →
          status_error r = None →
          (∀ raw, content_length r ≠ HdrBad raw) →
          body_error r = Some e →
            ∃ w', download_file env url destination chunk_size w
                  = (Raise e, w') ∧
                  fs w' = <[destination := received (body r)]> (fs w)) ∧
  (∀ table skip_bigquery w0,
     is_Some (fs w0 !! raw_path_of cfg table) →
     ∃ new,
       calls (process_table env cfg table false skip_bigquery w0).2
       = calls w0 ++ new ∧
       Forall (λ c, kind c ≠ Fetch) new).
Proof.
  split; [|split; [|split]].
  - intros e. apply download_file_request_error.
  - intros r e. apply download_file_status_error.
  - intros r e. apply download_file_interrupted.
  - intros table skip_bigquery w0. apply process_table_raw_cached.
Qed.

End FetchLaw.

Section Transform.

Context (env : Env).

Lemma convert_to_parquet_success tsv_path parquet_path compression w
    content df written original :
  fs w !! tsv_path = Some content →
  pd_read_csv env content = inr df →
  df_to_parquet env df compression = mkParquetWrite (Some written) None →
  <[parquet_path := written]> (fs w) !! tsv_path = Some original →
  original ≠ "" →
  convert_to_parquet env tsv_path parquet_path compression w =
  (Ok tt,
   mkWorld (<[parquet_path := written]> (fs w))
     (calls w ++ [convert_to_parquet_call tsv_path parquet_path compression])
     (logs w ++
      [ (INFO, Converting tsv_path parquet_path);
        (INFO, Read_rows (len (rows df)) (len (columns df)));
        (INFO, Conversion_complete parquet_path
                 ((1 - inject_Z (len_str written) / inject_Z (len_str original))
                  * 100)%Q) ])).
Proof.
  intros Hc Hread Hwrite Horig Hne.
  unfold convert_to_parquet. rewrite bind_call, bind_log, try_except_Exception.
  unfold read_csv, to_parquet, stat_size, compression_ratio.
  unfold mbind, M_bind, mret, M_ret, get_fs, get_calls, call, log, raise,
    write_file, lift_sum, lift_err.
  simpl. rewrite Hc, Hread. simpl. rewrite Hwrite. simpl.
  rewrite Horig. simpl. rewrite lookup_insert_eq. simpl.
  assert (Hlen : bool_decide (Z.of_nat (String.length original) = 0) = false).
  { apply bool_decide_eq_false_2. destruct original; [done|]. simpl. lia. }
  rewrite Hlen. simpl. unfold len_str. by rewrite <- !app_assoc.
Qed.

(** C6 (amended). For every successfully converted input,
    [convert_to_parquet] returns nothing ([None]); it writes the columnar
    file and logs the row count, the column count and the size reduction
    [(1 - parquet_size / original_size) * 100], the sizes being those of
    the two files on disk after the conversion. *)
Theorem conversion_report_law (tsv_path parquet_path : Path)
    (compression : string) (w : World) (content : string) (df : DataFrame)
    (written original : string) :
  fs w !! tsv_path = Some content →
  pd_read_csv env content = inr df →
  df_to_parquet env df compression = mkParquetWrite (Some written) None →
  <[parquet_path := written]> (fs w) !! tsv_path = Some original →
  original ≠ "" →
  ∃ w',
    convert_to_parquet env tsv_path parquet_path compression w = (Ok tt, w') ∧
    fs w' = <[parquet_path := written]> (fs w) ∧
    logs w' = logs w ++
      [ (INFO, Converting tsv_path parquet_path);
        (INFO, Read_rows (len (rows df)) (len (columns df)));
        (INFO, Conversion_complete parquet_path
                 ((1 - inject_Z (len_str written) / inject_Z (len_str original))
                  * 100)%Q) ].
Proof.
  intros Hc Hread Hwrite Horig Hne. eexists. split.
  - by eapply convert_to_parquet_success.
  - done.
Qed.

End Transform.

(** * Concrete runs *)

Section Provisioning.

Context (env : Env) (cfg : Config.t).

(** A failure of [create_dataset] leaves [ensure_dataset_exists] as an
    exception, whatever its class: the handler of [NotFound] is not
    guarded. *)
Lemma ensure_dataset_exists_create_error dataset_id location w content e1 e2 :
  fs w !! Config.credentials_path cfg = Some content →
  credentials_from_file env
    (calls w ++ [ensure_dataset_exists_call dataset_id location]) content
    = None →
  bq_get_dataset env
    (calls w ++ [ensure_dataset_exists_call dataset_id location])
    (Config.project_id cfg +:+ "." +:+ dataset_id) = Some e1 →
  isinstance e1 NotFound = true →
  bq_create_dataset env
    ((calls w ++ [ensure_dataset_exists_call dataset_id location])
     ++ [get_dataset_call (Config.project_id cfg +:+ "." +:+ dataset_id)])
    (Config.project_id cfg +:+ "." +:+ dataset_id) location = Some e2 →
  (ensure_dataset_exists env cfg dataset_id location w).1 = Raise e2.
Proof.
  intros Hcred Hok Hget Hnf Hcreate.
  unfold ensure_dataset_exists, get_bigquery_client, get_client, try_except.
  unfold mbind, M_bind, mret, M_ret, get_fs, get_calls, call, log, raise,
    lift_err.
  simpl. rewrite Hcred, Hok. simpl. rewrite Hget. simpl. rewrite Hnf. simpl.
  by rewrite Hcreate.
Qed.

End Provisioning.

(** C3, as stated, fails: both artifacts are cached and [skip_bigquery] is
    not set, the publish call is made and raises, and no load call follows. *)
Lemma cache_hit_without_load :
  is_Some (fs cached !! raw_path_of Config.defaults "title.ratings") ∧
  is_Some (fs cached !! parquet_path_of Config.defaults "title.ratings") ∧
  (process_table upload_fails_env Config.defaults "title.ratings" false false
     cached).1 = Ok false ∧
  calls (process_table upload_fails_env Config.defaults "title.ratings" false
           false cached).2 =
  [ process_table_call "title.ratings" false false;
    upload_to_gcs_call parquet "imdb/title_ratings/title_ratings.parquet";
    blob_upload_call "imdb-data-id2608"
      "imdb/title_ratings/title_ratings.parquet" parquet;
    process_table_return "title.ratings" false ].
Proof.
  split; [by exists "abcdef"|]. split; [by exists "PQ"|].
  split; vm_compute; reflexivity.
Qed.

(** C5, as stated, fails: the first run is cut off after three of six bytes
    and fails; the three bytes stay at the destination, and the retry with
    [force] false takes them for the artifact, makes no fetch call although
    the source would now answer in full, and succeeds. *)
Lemma interrupted_download_is_cache_hit :
  let first :=
    process_table flaky_env Config.defaults "title.ratings" false true fresh in
  let retry :=
    process_table flaky_env Config.defaults "title.ratings" false true first.2 in
  first.1 = Ok false ∧
  fs first.2 !! raw = Some "abc" ∧
  retry.1 = Ok true ∧
  fs retry.2 !! raw = Some "abc" ∧
  calls retry.2 = calls first.2 ++
    [ process_table_call "title.ratings" false true;
      convert_to_parquet_call raw parquet "snappy";
      upload_to_gcs_call parquet "imdb/title_ratings/title_ratings.parquet";
      blob_upload_call "imdb-data-id2608"
        "imdb/title_ratings/title_ratings.parquet" parquet;
      process_table_return "title.ratings" true ].
Proof. vm_compute. repeat split. Qed.

(** C6, as stated, fails: [convert_to_parquet] returns the same value for
    inputs of different row counts, so no row count can be read off it. *)
Lemma conversion_returns_no_report :
  ¬ ∃ row_count : unit → Z,
      ∀ env tsv_path parquet_path w content df r w',
        fs w !! tsv_path = Some content →
        pd_read_csv env content = inr df →
        convert_to_parquet env tsv_path parquet_path "snappy" w = (Ok r, w') →
        row_count r = len (rows df).
Proof.
  intros [row_count H].
  assert (H2 : row_count tt = 2).
  { eapply (H good_env raw parquet cached "abcdef" frame);
      [reflexivity|reflexivity|vm_compute; reflexivity]. }
  assert (H3 : row_count tt = 3).
  { eapply (H longer_env raw parquet cached "abcdef"
              (mkDataFrame (columns frame) ([Some "tt0000003"; None] :: rows frame)));
      [reflexivity|reflexivity|vm_compute; reflexivity]. }
  congruence.
Qed.

(** C7 at the failing input: the dataset is absent when checked and present
    when created.  The conflict leaves [ensure_dataset_exists] and
    [load_to_bigquery] as an exception, and the table fails. *)
Theorem dataset_race_propagates :
  (ensure_dataset_exists race_env Config.defaults "bronze_id2608" "EU" fresh).1
  = Raise (mkExn Conflict "409 Already Exists: Dataset") ∧
  (load_to_bigquery race_env Config.defaults
     (Config.get_gcs_uri Config.defaults "title.ratings") "bronze_id2608"
     "title_ratings" "WRITE_TRUNCATE" fresh).1
  = Raise (mkExn Conflict "409 Already Exists: Dataset") ∧
  (process_table race_env Config.defaults "title.ratings" false false cached).1
  = Ok false ∧
  (ensure_dataset_exists good_env Config.defaults "bronze_id2608" "EU" fresh).1
  = Ok tt.
Proof. vm_compute. repeat split. Qed.

(** * Witnesses *)

Lemma cache_hit_law_witness :
  is_Some (fs cached !! raw_path_of Config.defaults "title.ratings") ∧
  is_Some (fs cached !! parquet_path_of Config.defaults "title.ratings") ∧
  ∃ b w' rest,
    process_table good_env Config.defaults "title.ratings" false false cached
    = (Ok b, w') ∧
    calls w' = calls cached
      ++ process_table_call "title.ratings" false false
      :: upload_to_gcs_call (parquet_path_of Config.defaults "title.ratings")
           (Config.get_gcs_path "title.ratings")
      :: rest ∧
    Forall not_fetch_or_transform rest ∧
    match upload_to_gcs good_env Config.defaults
            (parquet_path_of Config.defaults "title.ratings")
            (Config.get_gcs_path "title.ratings") None
            (at_publish Config.defaults "title.ratings" false cached) with
    | (Ok gcs_uri, _) =>
        if false then Forall (λ c, kind c ≠ Load) rest
        else load_to_bigquery_call gcs_uri
               (Config.bronze_dataset Config.defaults)
               (Config.get_table_id "title.ratings") "WRITE_TRUNCATE" ∈ rest
    | (Raise _, _) => b = false ∧ Forall (λ c, kind c ≠ Load) rest
    end.
Proof.
  assert (H1 : is_Some (fs cached !! raw_path_of Config.defaults "title.ratings"))
    by (exists "abcdef"; reflexivity).
  assert (H2 : is_Some (fs cached !! parquet_path_of Config.defaults "title.ratings"))
    by (exists "PQ"; reflexivity).
  split; [exact H1|]. split; [exact H2|].
  exact (cache_hit_law good_env Config.defaults "title.ratings" false cached
           H1 H2).
Defined.

Lemma conversion_report_law_witness :
  ∃ w',
    convert_to_parquet good_env raw parquet "snappy" cached = (Ok tt, w') ∧
    fs w' = <[parquet := "PQ"]> (fs cached) ∧
    logs w' = logs cached ++
      [ (INFO, Converting raw parquet);
        (INFO, Read_rows 2 2);
        (INFO, Conversion_complete parquet
                 ((1 - inject_Z 2 / inject_Z 6) * 100)%Q) ].
Proof.
  apply (conversion_report_law good_env raw parquet "snappy" cached "abcdef"
           frame "PQ" "abcdef"); [reflexivity|reflexivity|reflexivity| |done].
  vm_compute. reflexivity.
Defined.

Lemma fetch_failure_law_witness :
  ∃ w',
    download_file flaky_env "https://datasets.imdbws.com/title.ratings.tsv.gz"
      raw 8192 fresh
    = (Raise (mkExn RequestException "Connection broken"), w') ∧
    fs w' = <[raw := "abc"]> (fs fresh).
Proof.
  apply (proj1 (proj2 (proj2
           (fetch_failure_law flaky_env Config.defaults
              "https://datasets.imdbws.com/title.ratings.tsv.gz" raw 8192 fresh)))
           {| status_error := None; content_length := HdrInt 6; body := ["abc"];
              body_error := Some (mkExn RequestException "Connection broken") |});
    done.
Defined.

Lemma run_result_law_witness :
  ∃ wA,
    process_table offline_env Config.defaults "name.basics" false false
      (with_logs fresh
         (run_header Config.defaults ["name.basics"; "title.akas"; "title.crew"]
            false ++ [(INFO, Starting 1 3 "name.basics")]))
    = (Ok false, wA) ∧
    run_tables offline_env Config.defaults
      (Some ["name.basics"; "title.akas"; "title.crew"]) false false true fresh
    = (Ok [("name.basics", false)],
       with_logs wA
         [(ERROR, Text "Stopping due to failure (--fail-fast enabled)")]).
Proof.
  eexists. split.
  2: { apply (proj2 (run_result_law offline_env Config.defaults false false fresh)
                "name.basics" "title.akas" "title.crew").
       vm_compute. reflexivity. }
  vm_compute. reflexivity.
Defined.


Lemma cleanup_guard_witness :
  ∃ results w1 code w2,
    run_tables offline_env Config.defaults None false false false fresh
    = (Ok results, w1) ∧
    run_pipeline offline_env Config.defaults None false false false true fresh
    = (Ok code, w2) ∧
    ("name.basics", false) ∈ results ∧
    fs w2 = fs w1.
Proof.
  destruct (cleanup_guard offline_env Config.defaults None false false false true
              fresh)
    as (results & w1 & code & w2 & new & E & E2 & _ & _ & _ & Hkeep & _).
  exists results, w1, code, w2. split; [exact E|]. split; [exact E2|].
  assert (Hin : ("name.basics", false) ∈ results).
  { revert E. vm_compute. intros [= <- _]. left. }
  split; [exact Hin|]. apply Hkeep. by exists "name.basics".
Defined.

Lemma execute_sql_law_witness :
  ∃ r w',
    execute_sql good_env "./credentials.json" "SELECT 1" bare = (Ok r, w') ∧
    success r = false ∧ data r = None ∧ rows_returned r = 0.
Proof.
  destruct (execute_sql_law good_env "./credentials.json" "SELECT 1" bare)
    as (r & w' & E & H).
  exists r, w'. split; [exact E|].
  cbv zeta in H. change (fs bare !! "./credentials.json") with (@None string) in H.
  destruct H as (e & _ & Hs & Hd & _ & Hr). done.
Defined.

(** * Further properties of the code *)

(** ** Table identifiers and artifact paths *)

Lemma chars_app s1 s2 : chars (s1 +:+ s2) = chars s1 ++ chars s2.
Proof.
  induction s1 as [|a s1 IH]; [done|].
  rewrite string_app_cons. unfold chars in *. simpl. by rewrite IH.
Qed.

Lemma chars_inj s1 s2 : chars s1 = chars s2 → s1 = s2.
Proof.
  intros H. rewrite <- (String.string_of_list_ascii_of_string s1),
    <- (String.string_of_list_ascii_of_string s2). unfold chars in H. by rewrite H.
Qed.

Lemma string_app_inv_tail s1 s2 t : s1 +:+ t = s2 +:+ t → s1 = s2.
Proof.
  intros H. apply chars_inj. apply (f_equal chars) in H.
  rewrite !chars_app in H. by apply app_inv_tail in H.
Qed.

Lemma string_app_inv_head s t1 t2 : s +:+ t1 = s +:+ t2 → t1 = t2.
Proof.
  intros H. apply chars_inj. apply (f_equal chars) in H.
  rewrite !chars_app in H. by apply app_inv_head in H.
Qed.

Lemma chars_replace_char old new s :
  chars (replace_char old new s)
  = (λ c, if bool_decide (c = old) then new else c) <$> chars s.
Proof.
  induction s as [|a s IH]; [done|]. unfold chars in *. simpl. by rewrite IH.
Qed.

(** X1. [Config.get_table_id] keeps the length of the name, leaves no dot
    in it, changes nothing but dots, and is idempotent. *)
Theorem get_table_id_law (table : string) :
  String.length (Config.get_table_id table) = String.length table ∧
  ("."%char ∉ chars (Config.get_table_id table)) ∧
  ("."%char ∉ chars table → Config.get_table_id table = table) ∧
  Config.get_table_id (Config.get_table_id table) = Config.get_table_id table.
Proof.
  unfold Config.get_table_id.
  assert (Hlen : String.length (replace_char "." "_" table) = String.length table).
  { induction table as [|a s IH]; [done|]. simpl. by rewrite IH. }
  assert (Hdot : "."%char ∉ chars (replace_char "." "_" table)).
  { rewrite chars_replace_char. intros (c & Hc & _)%list_elem_of_fmap.
    destruct (bool_decide_reflect (c = "."%char)); [done|]. by subst. }
  assert (Hid : ∀ s, "."%char ∉ chars s → replace_char "." "_" s = s).
  { induction s as [|a s IH]; [done|]. unfold chars. simpl. intros Hn.
    apply not_elem_of_cons in Hn as [Hne Hn].
    rewrite bool_decide_eq_false_2 by done. by rewrite IH. }
  split; [exact Hlen|]. split; [exact Hdot|]. split; [apply Hid|].
  by apply Hid.
Qed.

Lemma chars_length s : length (chars s) = String.length s.
Proof. induction s as [|a s IH]; [done|]. unfold chars in *. simpl. by rewrite IH. Qed.

Lemma replace_char_inj_on old new s1 s2 :
  new ∉ chars s1 → new ∉ chars s2 →
  replace_char old new s1 = replace_char old new s2 → s1 = s2.
Proof.
  revert s2. induction s1 as [|a s1 IH]; intros [|b s2]; try done.
  unfold chars. simpl. intros [Ha H1]%not_elem_of_cons [Hb H2]%not_elem_of_cons.
  intros [= Hab Hrest]. f_equal; [|by apply IH].
  destruct (bool_decide_reflect (a = old)), (bool_decide_reflect (b = old));
    congruence.
Qed.

(** X2. For table names without a slash, distinct tables have distinct raw
    artifacts; their columnar artifacts, blob paths and warehouse tables
    are distinct as well when neither name contains an underscore, and may
    coincide otherwise. *)
Theorem artifact_paths_distinct (cfg : Config.t) (t1 t2 : string) :
  "/"%char ∉ chars t1 → "/"%char ∉ chars t2 →
  (raw_path_of cfg t1 = raw_path_of cfg t2 → t1 = t2) ∧
  ("_"%char ∉ chars t1 → "_"%char ∉ chars t2 →
   (Config.get_table_id t1 = Config.get_table_id t2 → t1 = t2) ∧
   (parquet_path_of cfg t1 = parquet_path_of cfg t2 → t1 = t2) ∧
   (Config.get_gcs_path t1 = Config.get_gcs_path t2 → t1 = t2)) ∧
  parquet_path_of cfg "title.akas" = parquet_path_of cfg "title_akas".
Proof.
  intros _ _. split; [|split; [|reflexivity]].
  - unfold raw_path_of, path_join, Config.get_table_filename.
    intros H. do 2 apply string_app_inv_head in H.
    by apply string_app_inv_tail in H.
  - intros H1 H2.
    assert (Hid : Config.get_table_id t1 = Config.get_table_id t2 → t1 = t2)
      by (unfold Config.get_table_id; by apply replace_char_inj_on).
    split; [exact Hid|]. split.
    + unfold parquet_path_of, path_join. intros H.
      do 2 apply string_app_inv_head in H.
      apply string_app_inv_tail in H. by apply Hid.
    + unfold Config.get_gcs_path. cbv zeta. intros H.
      apply string_app_inv_head in H. apply Hid.
      apply (f_equal chars) in H. rewrite !chars_app in H.
      apply (f_equal length) in H as Hlen. rewrite !length_app in Hlen.
      simpl in Hlen.
      apply app_inj_1 in H as [H _]; [by apply chars_inj|lia].
Qed.

Lemma artifact_paths_distinct_witness :
  ("/"%char ∉ chars "title.akas") ∧ ("/"%char ∉ chars "title.basics") ∧
  (raw_path_of Config.defaults "title.akas"
   = raw_path_of Config.defaults "title.basics" →
   "title.akas" = "title.basics").
Proof.
  assert (H1 : "/"%char ∉ chars "title.akas")
    by (apply (bool_decide_unpack _); vm_compute; exact I).
  assert (H2 : "/"%char ∉ chars "title.basics")
    by (apply (bool_decide_unpack _); vm_compute; exact I).
  split; [exact H1|]. split; [exact H2|].
  exact (proj1 (artifact_paths_distinct Config.defaults "title.akas"
                  "title.basics" H1 H2)).
Defined.

(** ** Configuration check *)




(** ** Which files a function may change *)

Lemma touches_refl S w : touches S w w.
Proof. by intros p _. Qed.

Lemma touches_trans S w1 w2 w3 :
  touches S w1 w2 → touches S w2 w3 → touches S w1 w3.
Proof. intros H1 H2 p Hp. by rewrite H2, H1. Qed.

Lemma touches_mono (S S' : Path → Prop) w w' :
  (∀ p, S p → S' p) → touches S w w' → touches S' w w'.
Proof. intros HS H p Hp. apply H. auto. Qed.

Lemma touches_nothing w w' : touches (λ _, False) w w' → fs w' = fs w.
Proof. intros H. apply map_eq. intros p. apply H. tauto. Qed.

Section Touches.

Context (S : Path → Prop).

Lemma touch_mret {A} (a : A) : steps (touches S) (mret a).
Proof. intros w. apply touches_refl. Qed.

Lemma touch_raise {A} (e : Exn) : steps (touches S) (@raise A e).
Proof. intros w. apply touches_refl. Qed.

Lemma touch_bind {A B} (c : M A) (k : A → M B) :
  steps (touches S) c → (∀ a, steps (touches S) (k a)) →
  steps (touches S) (c ≫= k).
Proof.
  intros Hc Hk w. specialize (Hc w). rewrite bind_eq.
  destruct (c w) as [[a|e] w1]; simpl in *; [|done].
  eapply touches_trans; [exact Hc|]. apply Hk.
Qed.

Lemma touch_try_except {A} (body : M A)
    (clauses : list (ExnClass * (Exn → M A))) :
  steps (touches S) body →
  Forall (λ ch, ∀ e, steps (touches S) (ch.2 e)) clauses →
  steps (touches S) (try_except body clauses).
Proof.
  intros Hb Hc w. specialize (Hb w). unfold try_except.
  destruct (body w) as [[a|e] w1]; simpl in *; [done|].
  destruct (select_clause e clauses) as [h|] eqn:Hs; simpl; [|done].
  eapply touches_trans; [exact Hb|].
  clear Hb. induction Hc as [|[c h'] rest Hh _ IH]; simpl in Hs; [done|].
  destruct (isinstance e c).
  - injection Hs as <-. apply Hh.
  - by apply IH.
Qed.

Lemma touch_get_fs : steps (touches S) get_fs.
Proof. intros w. apply touches_refl. Qed.

Lemma touch_get_calls : steps (touches S) get_calls.
Proof. intros w. apply touches_refl. Qed.

Lemma touch_log l m : steps (touches S) (log l m).
Proof. by intros w p _. Qed.

Lemma touch_call c : steps (touches S) (call c).
Proof. by intros w p _. Qed.

Lemma touch_write_file p content : S p → steps (touches S) (write_file p content).
Proof.
  intros Hp w q Hq. simpl. apply lookup_insert_ne. by intros ->.
Qed.

Lemma touch_unlink p : S p → steps (touches S) (unlink p).
Proof.
  intros Hp w q Hq. simpl. apply lookup_delete_ne. by intros ->.
Qed.

Lemma touch_path_exists p : steps (touches S) (path_exists p).
Proof. intros w. apply touches_refl. Qed.

Lemma touch_stat_size p : steps (touches S) (stat_size p).
Proof.
  intros w. unfold stat_size. rewrite bind_eq. simpl.
  destruct (fs w !! p); apply touches_refl.
Qed.

Lemma touch_lift_sum {A} (r : Exn + A) : steps (touches S) (lift_sum r).
Proof. destruct r; intros w; apply touches_refl. Qed.

Lemma touch_lift_err (r : option Exn) : steps (touches S) (lift_err r).
Proof. destruct r; intros w; apply touches_refl. Qed.

End Touches.

Create HintDb touch.

#[global] Hint Resolve touch_mret touch_raise touch_get_fs touch_get_calls
  touch_log touch_call touch_path_exists touch_stat_size touch_lift_sum
  touch_lift_err : touch.

(** Decompose a goal [steps (touches S) c] along the structure of [c]. *)
Ltac touch_tac :=
  repeat first
    [ match goal with |- ∀ _, _ => intro end
    | solve [eauto with touch]
    | apply touch_write_file; solve [eauto]
    | apply touch_bind
    | apply touch_try_except;
        [|repeat (apply List.Forall_cons; [simpl|]); try apply List.Forall_nil]
    | match goal with
      | |- steps _ (if ?b then _ else _) => destruct b
      | |- steps _ (match ?x with _ => _ end) => destruct x
      | |- steps _ (let _ := _ in _) => cbv zeta
      end ].

Section StagesTouch.

Context (env : Env) (cfg : Config.t).

Lemma touch_write_chunks S destination chunk_size total_size chunks downloaded_size :
  S destination →
  steps (touches S)
    (write_chunks destination chunk_size total_size chunks downloaded_size).
Proof.
  intros HS. revert downloaded_size.
  induction chunks as [|chunk rest IH]; intros d; simpl; unfold file_write;
    touch_tac.
Qed.

Lemma touch_download_file S url destination chunk_size :
  S destination →
  steps (touches S) (download_file env url destination chunk_size).
Proof.
  intros HS. unfold download_file, int_content_length, open_wb.
  pose proof (λ c t ch d, touch_write_chunks S destination c t ch d HS).
  touch_tac.
Qed.

Lemma touch_convert_to_parquet S tsv_path parquet_path compression :
  S parquet_path →
  steps (touches S) (convert_to_parquet env tsv_path parquet_path compression).
Proof.
  intros HS.
  unfold convert_to_parquet, read_csv, to_parquet, compression_ratio.
  touch_tac.
Qed.

Lemma touch_get_client S : steps (touches S) (get_client env cfg).
Proof. unfold get_client. touch_tac. Qed.

Lemma touch_upload_to_gcs S local_path gcs_path bucket_name :
  steps (touches S) (upload_to_gcs env cfg local_path gcs_path bucket_name).
Proof.
  pose proof (touch_get_client S).
  unfold upload_to_gcs, get_gcs_client, upload_from_filename. touch_tac.
Qed.

Lemma touch_ensure_dataset_exists S dataset_id location :
  steps (touches S) (ensure_dataset_exists env cfg dataset_id location).
Proof.
  pose proof (touch_get_client S).
  unfold ensure_dataset_exists, get_bigquery_client. touch_tac.
Qed.

Lemma touch_load_to_bigquery S gcs_uri dataset_id table_id write_disposition :
  steps (touches S)
    (load_to_bigquery env cfg gcs_uri dataset_id table_id write_disposition).
Proof.
  pose proof (touch_get_client S).
  pose proof (touch_ensure_dataset_exists S dataset_id "EU").
  unfold load_to_bigquery, get_bigquery_client. touch_tac.
Qed.

Lemma touch_process_table table force_download skip_bigquery :
  steps (touches (artifact_of cfg table))
    (process_table env cfg table force_download skip_bigquery).
Proof.
  pose proof (touch_download_file (artifact_of cfg table)) as Hd.
  pose proof (touch_convert_to_parquet (artifact_of cfg table)) as Hc.
  pose proof (touch_upload_to_gcs (artifact_of cfg table)) as Hu.
  pose proof (touch_load_to_bigquery (artifact_of cfg table)) as Hl.
  assert (H1 : artifact_of cfg table (raw_path_of cfg table)) by (by left).
  assert (H2 : artifact_of cfg table (parquet_path_of cfg table)) by (by right).
  unfold process_table, process_table_try. cbv zeta.
  fold (raw_path_of cfg table). fold (parquet_path_of cfg table).
  touch_tac.
Qed.

End StagesTouch.

Ltac mrun :=
  unfold mbind, M_bind, mret, M_ret, get_fs, get_calls, call, log, raise,
    lift_sum, lift_err, try_except, write_file; simpl.

Section Publish.

Context (env : Env) (cfg : Config.t).

(** X7. [upload_to_gcs] changes no local file.  When it returns, the value
    is [gs://bucket/path] for the given bucket, or the configured one when
    none or an empty one is given, and the local file exists; for the
    columnar artifact of a table this is [Config.get_gcs_uri]. *)
Theorem upload_to_gcs_law (local_path : Path) (gcs_path : string)
    (bucket_name : option string) (w : World) :
  fs (upload_to_gcs env cfg local_path gcs_path bucket_name w).2 = fs w ∧
  (∀ uri, (upload_to_gcs env cfg local_path gcs_path bucket_name w).1 = Ok uri →
     uri = "gs://" +:+ bucket_or_default cfg bucket_name +:+ "/" +:+ gcs_path ∧
     is_Some (fs w !! local_path)) ∧
  (∀ table uri,
     (upload_to_gcs env cfg (parquet_path_of cfg table)
        (Config.get_gcs_path table) None w).1 = Ok uri →
     uri = Config.get_gcs_uri cfg table).
Proof.
  assert (Hret : ∀ lp gp bn uri,
            (upload_to_gcs env cfg lp gp bn w).1 = Ok uri →
            uri = "gs://" +:+ bucket_or_default cfg bn +:+ "/" +:+ gp ∧
            is_Some (fs w !! lp)).
  { intros lp gp bn uri. unfold upload_to_gcs, get_gcs_client, get_client,
      upload_from_filename. fold (bucket_or_default cfg bn).
    generalize (bucket_or_default cfg bn). intros b. mrun.
    destruct (fs w !! Config.credentials_path cfg) as [c|]; simpl;
      rewrite ?isinstance_Exception; simpl; [|done].
    destruct (credentials_from_file env _ c); simpl;
      rewrite ?isinstance_Exception; simpl; [done|].
    destruct (fs w !! lp) as [content|]; simpl;
      rewrite ?isinstance_Exception; simpl; [|done].
    destruct (blob_upload env _ b gp content); simpl;
      rewrite ?isinstance_Exception; simpl; [done|].
    intros [= <-]. split; [done|by eexists]. }
  split; [|split].
  - apply touches_nothing, (touch_upload_to_gcs env cfg).
  - apply Hret.
  - intros table uri H. apply Hret in H as [-> _]. done.
Qed.

End Publish.

Section Load.

Context (env : Env) (cfg : Config.t).

Lemma get_client_cases w :
  get_client env cfg w = (Ok tt, w) ∨ ∃ e, get_client env cfg w = (Raise e, w).
Proof.
  unfold get_client. mrun.
  destruct (fs w !! Config.credentials_path cfg) as [c|]; simpl; [|by eauto].
  destruct (credentials_from_file env (calls w) c); simpl; by eauto.
Qed.

Lemma load_to_bigquery_eq gcs_uri dataset_id table_id write_disposition w :
  load_to_bigquery env cfg gcs_uri dataset_id table_id write_disposition w =
  let w1 := loading gcs_uri dataset_id table_id write_disposition w in
  let table_ref :=
    Config.project_id cfg +:+ "." +:+ dataset_id +:+ "." +:+ table_id in
  let fail e w' := (Raise e, with_logs w' [(ERROR, Load_failed e)]) in
  match get_client env cfg w1 with
  | (Raise e, w') => fail e w'
  | (Ok _, _) =>
      match ensure_dataset_exists env cfg dataset_id "EU" w1 with
      | (Raise e, w2) => fail e w2
      | (Ok _, w2) =>
          let w3 := mkWorld (fs w2)
                      (calls w2 ++ [load_table_from_uri_call gcs_uri table_ref
                                      write_disposition]) (logs w2) in
          match bq_load_table_from_uri env (calls w2) gcs_uri table_ref
                  write_disposition with
          | inl e => fail e w3
          | inr job_id =>
              let w4 := mkWorld (fs w3) (calls w3 ++ [job_result_call job_id])
                          (logs w3 ++ [(INFO, Job_started job_id)]) in
              match bq_job_result env (calls w3) job_id with
              | Some e => fail e w4
              | None =>
                  let w5 := mkWorld (fs w4) (calls w4 ++ [get_table_call table_ref])
                              (logs w4) in
                  match bq_get_table env (calls w4) table_ref with
                  | inl e => fail e w5
                  | inr num_rows =>
                      (Ok tt, with_logs w5 [(INFO, Load_complete num_rows table_ref)])
                  end
              end
          end
      end
  end.
Proof.
  unfold load_to_bigquery. rewrite bind_call, bind_log, try_except_Exception.
  cbn [fs calls logs]. fold (loading gcs_uri dataset_id table_id write_disposition w).
  generalize (loading gcs_uri dataset_id table_id write_disposition w).
  intros w1. cbv zeta. unfold get_bigquery_client. rewrite bind_eq.
  destruct (get_client_cases w1) as [E|[e E]]; rewrite E; cbn beta iota;
    [|by rewrite bind_log].
  rewrite bind_eq.
  destruct (ensure_dataset_exists env cfg dataset_id "EU" w1) as [[[]|e] w2];
    cbn beta iota; [|by rewrite bind_log].
  mrun. destruct (bq_load_table_from_uri env _ _ _ _) as [e|job]; simpl; [done|].
  destruct (bq_job_result env _ job) as [e|]; simpl; [done|].
  destruct (bq_get_table env _ _) as [e|n]; simpl; done.
Qed.

(** X8. [load_to_bigquery] changes no local file.  It submits the load job
    only after the dataset has been provisioned: when it returns, the
    provisioning returned, and the calls that followed it are the
    submission of the job, the wait for it and the read of the table; when
    the provisioning raises, nothing is submitted and the error is logged
    and raised again. *)
Theorem load_to_bigquery_law (gcs_uri dataset_id table_id write_disposition : string)
    (w : World) :
  let w1 := loading gcs_uri dataset_id table_id write_disposition w in
  let table_ref :=
    Config.project_id cfg +:+ "." +:+ dataset_id +:+ "." +:+ table_id in
  fs (load_to_bigquery env cfg gcs_uri dataset_id table_id write_disposition w).2
  = fs w ∧
  (∀ w', load_to_bigquery env cfg gcs_uri dataset_id table_id write_disposition w
         = (Ok tt, w') →
     ∃ w2 job_id,
       ensure_dataset_exists env cfg dataset_id "EU" w1 = (Ok tt, w2) ∧
       calls w' = calls w2 ++
         [ load_table_from_uri_call gcs_uri table_ref write_disposition;
           job_result_call job_id; get_table_call table_ref ]) ∧
  (∀ e w2,
     get_client env cfg w1 = (Ok tt, w1) →
     ensure_dataset_exists env cfg dataset_id "EU" w1 = (Raise e, w2) →
     load_to_bigquery env cfg gcs_uri dataset_id table_id write_disposition w
     = (Raise e, with_logs w2 [(ERROR, Load_failed e)])).
Proof.
  cbv zeta. split; [|split].
  - apply touches_nothing, (touch_load_to_bigquery env cfg).
  - intros w'. rewrite load_to_bigquery_eq. cbv zeta.
    destruct (get_client env cfg _) as [[[]|e] w0]; [|done].
    destruct (ensure_dataset_exists env cfg dataset_id "EU" _) as [[[]|e] w2];
      [|done].
    destruct (bq_load_table_from_uri env _ _ _ _) as [e|job]; [done|].
    destruct (bq_job_result env _ job) as [e|]; [done|].
    destruct (bq_get_table env _ _) as [e|n]; [done|].
    intros [= <-]. exists w2, job. split; [done|]. simpl.
    by rewrite <- !app_assoc.
  - intros e w2 Hc He. rewrite load_to_bigquery_eq. cbv zeta.
    by rewrite Hc, He.
Qed.

End Load.

Section Provision.

Context (env : Env) (cfg : Config.t).

Lemma ensure_dataset_exists_eq dataset_id location w :
  get_client env cfg (ensuring dataset_id location w)
  = (Ok tt, ensuring dataset_id location w) →
  ensure_dataset_exists env cfg dataset_id location w =
  let w1 := ensuring dataset_id location w in
  let dataset_ref := Config.project_id cfg +:+ "." +:+ dataset_id in
  let w2 := mkWorld (fs w1) (calls w1 ++ [get_dataset_call dataset_ref]) (logs w1) in
  match bq_get_dataset env (calls w1) dataset_ref with
  | None => (Ok tt, with_logs w2 [(INFO, Dataset_already_exists dataset_ref)])
  | Some e1 =>
      if isinstance e1 NotFound then
        let w3 := mkWorld (fs w2)
                    (calls w2 ++ [create_dataset_call dataset_ref location])
                    (logs w2 ++ [(INFO, Creating_dataset dataset_ref)]) in
        match bq_create_dataset env (calls w2) dataset_ref location with
        | None => (Ok tt, with_logs w3 [(INFO, Dataset_created dataset_ref)])
        | Some e2 => (Raise e2, w3)
        end
      else (Raise e1, with_logs w2 [(ERROR, Dataset_check_failed e1)])
  end.
Proof.
  intros Hc. unfold ensure_dataset_exists. rewrite bind_call.
  cbn [fs calls logs]. fold (ensuring dataset_id location w).
  unfold get_bigquery_client. rewrite (bind_ok _ _ _ _ _ Hc).
  generalize (ensuring dataset_id location w). intros w1. cbv zeta.
  mrun. destruct (bq_get_dataset env (calls w1) _) as [e1|]; simpl; [|done].
  destruct (isinstance e1 NotFound); simpl.
  - destruct (bq_create_dataset env _ _ location) as [e2|]; simpl; done.
  - by rewrite isinstance_Exception.
Qed.

(** X9. Once its client is built, [ensure_dataset_exists] checks for the
    dataset first.  If the dataset is there, it returns without a creation
    request.  A creation request is made only when the check raised
    [NotFound], and for the requested dataset and location.  It returns
    only when the dataset was there or the creation went through.  No local
    file changes. *)
Theorem ensure_dataset_exists_law (dataset_id location : string) (w : World) :
  let w1 := ensuring dataset_id location w in
  let dataset_ref := Config.project_id cfg +:+ "." +:+ dataset_id in
  let r := ensure_dataset_exists env cfg dataset_id location w in
  get_client env cfg w1 = (Ok tt, w1) →
  fs r.2 = fs w ∧
  (bq_get_dataset env (calls w1) dataset_ref = None →
   r.1 = Ok tt ∧ calls r.2 = calls w1 ++ [get_dataset_call dataset_ref]) ∧
  (∀ ref loc, create_dataset_call ref loc ∈ calls r.2 →
     create_dataset_call ref loc ∈ calls w ∨
     ref = dataset_ref ∧ loc = location ∧
     ∃ e, bq_get_dataset env (calls w1) dataset_ref = Some e ∧
          isinstance e NotFound = true) ∧
  (r.1 = Ok tt →
   bq_get_dataset env (calls w1) dataset_ref = None ∨
   bq_create_dataset env (calls w1 ++ [get_dataset_call dataset_ref])
     dataset_ref location = None).
Proof.
  cbv zeta. intros Hc. rewrite (ensure_dataset_exists_eq _ _ _ Hc). cbv zeta.
  destruct (bq_get_dataset env _ _) as [e1|] eqn:Hget.
  - destruct (isinstance e1 NotFound) eqn:Hnf.
    + destruct (bq_create_dataset env _ _ location) as [e2|] eqn:Hcr; simpl.
      * split; [done|]. split; [done|]. split; [|done].
        intros ref loc. rewrite !elem_of_app, !list_elem_of_singleton.
        intros [[[?|[=]]|[=]]|[= -> ->]]; [by left|]. right. eauto.
      * split; [done|]. split; [done|]. split; [|by right].
        intros ref loc. rewrite !elem_of_app, !list_elem_of_singleton.
        intros [[[?|[=]]|[=]]|[= -> ->]]; [by left|]. right. eauto.
    + simpl. split; [done|]. split; [done|]. split; [|done].
      intros ref loc. rewrite !elem_of_app, !list_elem_of_singleton.
      intros [[?|[=]]|[=]]. by left.
  - simpl. split; [done|]. split; [done|]. split; [|by left].
    intros ref loc. rewrite !elem_of_app, !list_elem_of_singleton.
    intros [[?|[=]]|[=]]. by left.
Qed.

End Provision.

Lemma ensure_dataset_exists_law_witness :
  get_client good_env Config.defaults (ensuring "bronze_id2608" "EU" fresh)
  = (Ok tt, ensuring "bronze_id2608" "EU" fresh) ∧
  fs (ensure_dataset_exists good_env Config.defaults "bronze_id2608" "EU" fresh).2
  = fs fresh.
Proof.
  assert (H : get_client good_env Config.defaults (ensuring "bronze_id2608" "EU" fresh)
              = (Ok tt, ensuring "bronze_id2608" "EU" fresh))
    by (vm_compute; reflexivity).
  split; [exact H|].
  exact (proj1 (ensure_dataset_exists_law good_env Config.defaults
                  "bronze_id2608" "EU" fresh H)).
Defined.

Section Download.

Context (env : Env).

Lemma download_file_complete url destination chunk_size w r :
  requests_get env (requesting url destination w) url = inr r →
  status_error r = None →
  (∀ raw, content_length r ≠ HdrBad raw) →
  body_error r = None →
  ∃ w', download_file env url destination chunk_size w = (Ok tt, w') ∧
        fs w' = <[destination := received (body r)]> (fs w) ∧
        calls w' = requesting url destination w ++ [requests_get_call url].
Proof.
  intros Hreq Hst Hhdr Hbody. unfold download_file, requesting in *.
  rewrite bind_call, bind_log. unfold try_except.
  rewrite bind_eq. simpl. rewrite bind_call. rewrite bind_eq. simpl.
  rewrite Hreq. simpl. rewrite bind_eq. rewrite Hst. simpl.
  unfold int_content_length.
  destruct (content_length r) as [|raw|n] eqn:Hlen; [|by destruct (Hhdr raw)|];
    rewrite bind_eq; simpl; rewrite bind_eq; unfold open_wb; simpl;
    match goal with |- context [mbind _ (write_chunks ?d ?c ?t ?b ?z) ?w1] =>
      destruct (write_chunks_spec d c t b z w1 "") as (k & w2 & E & Hf & Hcalls);
      [simpl; apply lookup_insert_eq|] end;
    rewrite (bind_ok _ _ _ _ _ E); rewrite bind_eq; rewrite Hbody; simpl;
    eexists; (split; [reflexivity|]); simpl;
    (split; [|done]); rewrite Hf; simpl; by rewrite insert_insert_eq.
Qed.

Lemma download_file_bad_header url destination chunk_size w r raw :
  requests_get env (requesting url destination w) url = inr r →
  status_error r = None →
  content_length r = HdrBad raw →
  download_file env url destination chunk_size w =
  (Raise (mkExn ValueError ("invalid literal for int() with base 10: " +:+ raw)),
   mkWorld (fs w) (requesting url destination w ++ [requests_get_call url])
     (logs w ++ [(INFO, Downloading url destination)])).
Proof.
  intros Hreq Hst Hlen. unfold download_file, requesting in *.
  rewrite bind_call, bind_log. unfold try_except.
  rewrite bind_eq. simpl. rewrite bind_call. rewrite bind_eq. simpl.
  rewrite Hreq. simpl. rewrite bind_eq. rewrite Hst. simpl.
  unfold int_content_length. rewrite Hlen. rewrite bind_eq. simpl. done.
Qed.

(** What a download that returns has done. *)
Lemma download_file_returns url destination chunk_size w :
  (download_file env url destination chunk_size w).1 = Ok tt →
  ∃ r, requests_get env (requesting url destination w) url = inr r ∧
       status_error r = None ∧
       (∀ raw, content_length r ≠ HdrBad raw) ∧
       body_error r = None ∧
       fs (download_file env url destination chunk_size w).2
       = <[destination := received (body r)]> (fs w) ∧
       calls (download_file env url destination chunk_size w).2
       = calls w ++ [download_file_call url destination; requests_get_call url].
Proof.
  intros Hok.
  destruct (requests_get env (requesting url destination w) url)
    as [e|r] eqn:Hreq.
  { destruct (download_file_request_error env url destination chunk_size w e
                Hreq) as (w' & E & _). by rewrite E in Hok. }
  destruct (status_error r) as [e|] eqn:Hst.
  { destruct (download_file_status_error env url destination chunk_size w r e
                Hreq Hst) as (w' & E & _). by rewrite E in Hok. }
  assert (Hhdr : ∀ raw, content_length r ≠ HdrBad raw).
  { intros raw Hlen.
    by rewrite (download_file_bad_header _ _ _ _ _ _ Hreq Hst Hlen) in Hok. }
  destruct (body_error r) as [e|] eqn:Hbody.
  { destruct (download_file_interrupted env url destination chunk_size w r e
                Hreq Hst Hhdr Hbody) as (w' & E & _). by rewrite E in Hok. }
  destruct (download_file_complete url destination chunk_size w r
              Hreq Hst Hhdr Hbody) as (w' & E & Hf & Hc).
  exists r. rewrite E. simpl. rewrite Hc. unfold requesting.
  by rewrite <- app_assoc.
Qed.

(** X4. [download_file] returns normally only when the request is
    answered without an error status, with a usable [content-length], and
    the body streams to its end; the destination then holds the bytes of
    the body and nothing of what it held before, and one request was made.
    When the request raises, or the status is an error, that error is
    raised and no file changes. *)
Theorem download_file_law (url : string) (destination : Path) (chunk_size : Z)
    (w : World) :
  ((download_file env url destination chunk_size w).1 = Ok tt →
   ∃ r, requests_get env (requesting url destination w) url = inr r ∧
        status_error r = None ∧
        (∀ raw, content_length r ≠ HdrBad raw) ∧
        body_error r = None ∧
        fs (download_file env url destination chunk_size w).2
        = <[destination := received (body r)]> (fs w) ∧
        calls (download_file env url destination chunk_size w).2
        = calls w ++ [download_file_call url destination; requests_get_call url]) ∧
  (∀ e, requests_get env (requesting url destination w) url = inl e →
     (download_file env url destination chunk_size w).1 = Raise e ∧
     fs (download_file env url destination chunk_size w).2 = fs w) ∧
  (∀ r e, requests_get env (requesting url destination w) url = inr r →
     status_error r = Some e →
     (download_file env url destination chunk_size w).1 = Raise e ∧
     fs (download_file env url destination chunk_size w).2 = fs w).
Proof.
  split; [apply download_file_returns|]. split.
  - intros e Hreq.
    destruct (download_file_request_error env url destination chunk_size w e
                Hreq) as (w' & -> & Hf). done.
  - intros r e Hreq Hst.
    destruct (download_file_status_error env url destination chunk_size w r e
                Hreq Hst) as (w' & -> & Hf). done.
Qed.

(** X5. A [content-length] header that is not a number makes
    [download_file] raise [ValueError] before the destination is opened: no
    file changes, and, the error being no [RequestException], nothing is
    logged about the failure. *)
Theorem download_file_bad_header_law (url : string) (destination : Path)
    (chunk_size : Z) (w : World) (r : Response) (raw : string) :
  requests_get env (requesting url destination w) url = inr r →
  status_error r = None →
  content_length r = HdrBad raw →
  ∃ e w',
    download_file env url destination chunk_size w = (Raise e, w') ∧
    exn_class e = ValueError ∧
    fs w' = fs w ∧
    logs w' = logs w ++ [(INFO, Downloading url destination)].
Proof.
  intros Hreq Hst Hlen.
  rewrite (download_file_bad_header _ _ _ _ _ _ Hreq Hst Hlen).
  by eexists _, _.
Qed.

End Download.

Lemma download_file_bad_header_law_witness :
  ∃ e w',
    download_file bad_header_env
      "https://datasets.imdbws.com/title.ratings.tsv.gz" raw 8192 fresh
    = (Raise e, w') ∧
    exn_class e = ValueError ∧
    fs w' = fs fresh ∧
    logs w' = logs fresh
              ++ [(INFO, Downloading
                           "https://datasets.imdbws.com/title.ratings.tsv.gz" raw)].
Proof.
  apply (download_file_bad_header_law bad_header_env
           "https://datasets.imdbws.com/title.ratings.tsv.gz" raw 8192 fresh
           bad_header_response "unknown"); reflexivity.
Defined.

Section Convert.

Context (env : Env).

Lemma convert_to_parquet_ok tsv_path parquet_path compression w w' :
  convert_to_parquet env tsv_path parquet_path compression w = (Ok tt, w') →
  is_Some (fs w !! tsv_path) ∧ is_Some (fs w' !! parquet_path).
Proof.
  unfold convert_to_parquet. rewrite bind_call, bind_log, try_except_Exception.
  unfold read_csv, to_parquet, stat_size, compression_ratio. mrun.
  destruct (fs w !! tsv_path) as [content|] eqn:Hc; simpl; [|done].
  destruct (pd_read_csv env content) as [e|df]; simpl; [done|].
  destruct (pq_written (df_to_parquet env df compression)) as [written|];
    simpl;
    (destruct (pq_error (df_to_parquet env df compression)); simpl; [done|]).
  - destruct (<[parquet_path:=written]> (fs w) !! tsv_path); simpl; [|done].
    rewrite lookup_insert_eq. simpl.
    destruct (bool_decide _); simpl; [done|].
    intros [= <-]. simpl. rewrite lookup_insert_eq. by split; eexists.
  - rewrite Hc. simpl.
    destruct (fs w !! parquet_path) as [pq|] eqn:Hpq; simpl; [|done].
    destruct (bool_decide _); simpl; [done|].
    intros [= <-]. simpl. rewrite Hpq. by split; eexists.
Qed.

Lemma convert_to_parquet_missing tsv_path parquet_path compression w :
  fs w !! tsv_path = None →
  convert_to_parquet env tsv_path parquet_path compression w =
  (Raise (mkExn FileNotFoundError tsv_path),
   mkWorld (fs w)
     (calls w ++ [convert_to_parquet_call tsv_path parquet_path compression])
     (logs w ++ [ (INFO, Converting tsv_path parquet_path);
                  (ERROR, Conversion_failed (mkExn FileNotFoundError tsv_path)) ])).
Proof.
  intros Hc.
  unfold convert_to_parquet. rewrite bind_call, bind_log, try_except_Exception.
  unfold read_csv. mrun. rewrite Hc. simpl. by rewrite <- app_assoc.
Qed.

(** X6. [convert_to_parquet] changes no file but its output.  Without the
    input file it raises [FileNotFoundError], logs the failure and writes
    nothing; when it returns, the input was there and the output is. *)
Theorem convert_to_parquet_law (tsv_path parquet_path : Path)
    (compression : string) (w : World) :
  (∀ p, p ≠ parquet_path →
        fs (convert_to_parquet env tsv_path parquet_path compression w).2 !! p
        = fs w !! p) ∧
  (fs w !! tsv_path = None →
   ∃ e w',
     convert_to_parquet env tsv_path parquet_path compression w = (Raise e, w') ∧
     exn_class e = FileNotFoundError ∧
     fs w' = fs w ∧
     logs w' = logs w ++ [ (INFO, Converting tsv_path parquet_path);
                           (ERROR, Conversion_failed e) ]) ∧
  (∀ w', convert_to_parquet env tsv_path parquet_path compression w = (Ok tt, w') →
         is_Some (fs w !! tsv_path) ∧ is_Some (fs w' !! parquet_path)).
Proof.
  split; [|split].
  - intros p Hp.
    apply (touch_convert_to_parquet env (λ q, q = parquet_path) tsv_path
             parquet_path compression eq_refl w p). done.
  - intros Hc. rewrite (convert_to_parquet_missing _ _ _ _ Hc). by eexists _, _.
  - intros w'. apply convert_to_parquet_ok.
Qed.

End Convert.

(** ** The stages of one table *)

Section Stages.

Context (env : Env) (cfg : Config.t).

Lemma stage_decision (force_download : bool) (p : Path) (w : World) :
  ((if force_download then mret true
    else present ← path_exists p; mret (negb present)) : M bool) w
  = (Ok (stage_needed force_download p w), w).
Proof. by destruct force_download. Qed.

(** The [try] suite of [process_table], stage by stage. *)
Lemma process_table_try_eq table force_download skip_bigquery w :
  process_table_try env cfg table force_download skip_bigquery w =
  match (if stage_needed force_download (raw_path_of cfg table) w
         then download_file env
                (Config.base_url cfg +:+ Config.get_table_filename table)
                (raw_path_of cfg table) 8192
         else log INFO (Skipping_download (raw_path_of cfg table))) w with
  | (Raise e, w1) => (Raise e, w1)
  | (Ok _, w1) =>
      match (if stage_needed force_download (parquet_path_of cfg table) w1
             then convert_to_parquet env (raw_path_of cfg table)
                    (parquet_path_of cfg table) "snappy"
             else log INFO (Skipping_conversion (parquet_path_of cfg table))) w1
      with
      | (Raise e, w2) => (Raise e, w2)
      | (Ok _, w2) => publish_and_load env cfg table skip_bigquery w2
      end
  end.
Proof.
  unfold process_table_try. cbv zeta.
  fold (raw_path_of cfg table). fold (parquet_path_of cfg table).
  rewrite bind_eq, stage_decision. rewrite bind_eq.
  match goal with |- context [(if ?b then ?x else ?y) w] =>
    destruct ((if b then x else y) w) as [[[]|e] w1] end; [|done].
  rewrite bind_eq, stage_decision. rewrite bind_eq.
  match goal with |- context [(if ?b then ?x else ?y) w1] =>
    destruct ((if b then x else y) w1) as [[[]|e] w2] end; done.
Qed.

Lemma steps_publish_and_load P table skip_bigquery :
  (∀ c, kind c = Orchestrate → P c) →
  (∀ c, kind c = Publish → P c) →
  (skip_bigquery = false → ∀ c, kind c = Load → P c) →
  steps (grows P) (publish_and_load env cfg table skip_bigquery).
Proof.
  intros HO HP HL.
  pose proof (steps_upload_to_gcs env cfg P) as Hu.
  pose proof (steps_load_to_bigquery env cfg P) as Hl.
  assert (Hr : P (process_table_return table true)) by (by apply HO).
  unfold publish_and_load. destruct skip_bigquery; cbn [negb].
  - steps_tac.
  - specialize (HL eq_refl). steps_tac.
Qed.

Lemma download_file_shape url destination chunk_size w :
  ∃ rest,
    calls (download_file env url destination chunk_size w).2
    = calls w ++ download_file_call url destination :: rest.
Proof.
  unfold download_file. rewrite bind_call.
  match goal with |- ∃ rest, calls (?body ?u ?w1).2 = _ =>
    assert (steps (grows (λ _, True)) (body u)) as H
  end.
  { pose proof (steps_write_chunks (λ _, True)).
    unfold int_content_length, open_wb. steps_tac. }
  match goal with |- ∃ rest, calls (?body ?u ?w1).2 = _ =>
    destruct (H w1) as [_ (n & En & _)] end.
  exists n. simpl in En. rewrite En. by rewrite <- app_assoc.
Qed.

End Stages.

Section Stages2.

Context (env : Env) (cfg : Config.t).

Lemma grows_calls P w w' : grows P w w' → ∃ new, calls w' = calls w ++ new.
Proof. intros [_ (n & E & _)]. by exists n. Qed.

Lemma process_table_fetches table force_download skip_bigquery w :
  stage_needed force_download (raw_path_of cfg table) w = true →
  ∃ rest,
    calls (process_table env cfg table force_download skip_bigquery w).2
    = calls w
      ++ process_table_call table force_download skip_bigquery
      :: download_file_call
           (Config.base_url cfg +:+ Config.get_table_filename table)
           (raw_path_of cfg table)
      :: rest.
Proof.
  intros Hneed. rewrite process_table_eq, process_table_try_eq.
  assert (Hn : stage_needed force_download (raw_path_of cfg table)
                 (entered table force_download skip_bigquery w) = true)
    by exact Hneed.
  rewrite Hn.
  destruct (download_file_shape env
              (Config.base_url cfg +:+ Config.get_table_filename table)
              (raw_path_of cfg table) 8192
              (entered table force_download skip_bigquery w)) as (r1 & E1).
  destruct (download_file env _ _ 8192 _) as [[[]|e] w1]; simpl in E1.
  2: { simpl. rewrite E1. eexists. by rewrite <- !app_assoc. }
  assert (H2 : ∃ n2 r2 w2,
            (if stage_needed force_download (parquet_path_of cfg table) w1
             then convert_to_parquet env (raw_path_of cfg table)
                    (parquet_path_of cfg table) "snappy"
             else log INFO (Skipping_conversion (parquet_path_of cfg table))) w1
            = (r2, w2) ∧ calls w2 = calls w1 ++ n2).
  { destruct (stage_needed force_download (parquet_path_of cfg table) w1).
    - destruct (steps_convert_to_parquet env (λ _, True) (raw_path_of cfg table)
                  (parquet_path_of cfg table) "snappy" ltac:(done) w1)
        as [_ (n & En & _)].
      destruct (convert_to_parquet env _ _ _ w1) as [r2 w2]. by exists n, r2, w2.
    - exists [], (Ok tt), (with_logs w1
         [(INFO, Skipping_conversion (parquet_path_of cfg table))]).
      split; [done|]. simpl. by rewrite app_nil_r. }
  destruct H2 as (n2 & r2 & w2 & E2 & Hc2). rewrite E2.
  destruct r2 as [[]|e].
  2: { simpl. rewrite Hc2, E1. eexists. by rewrite <- !app_assoc. }
  destruct (steps_publish_and_load env cfg (λ _, True) table skip_bigquery
              ltac:(done) ltac:(done) ltac:(done) w2) as [_ (n3 & E3 & _)].
  destruct (publish_and_load env cfg table skip_bigquery w2) as [[b|e] w3];
    simpl in *; rewrite E3, Hc2, E1; eexists; by rewrite <- !app_assoc.
Qed.

(** X12. [process_table] calls the fetch stage exactly when [force] is set
    or the raw artifact is missing; the call is then its first, for the
    file of the table under the base URL. *)
Theorem fetch_decision_law (table : string) (force_download skip_bigquery : bool)
    (w : World) :
  ∃ new,
    calls (process_table env cfg table force_download skip_bigquery w).2
    = calls w ++ process_table_call table force_download skip_bigquery :: new ∧
    ((∃ c, c ∈ new ∧ kind c = Fetch) ↔
     force_download = true ∨ fs w !! raw_path_of cfg table = None) ∧
    (force_download = true ∨ fs w !! raw_path_of cfg table = None →
     head new = Some (download_file_call
                        (Config.base_url cfg +:+ Config.get_table_filename table)
                        (raw_path_of cfg table))).
Proof.
  destruct (stage_needed force_download (raw_path_of cfg table) w) eqn:Hneed.
  - assert (Hor : force_download = true ∨ fs w !! raw_path_of cfg table = None).
    { unfold stage_needed in Hneed. destruct force_download; [by left|right].
      simpl in Hneed. apply negb_true_iff, bool_decide_eq_false in Hneed.
      destruct (fs w !! raw_path_of cfg table); [|done].
      destruct Hneed. by eexists. }
    destruct (process_table_fetches table force_download skip_bigquery w Hneed)
      as (rest & E).
    eexists. split; [exact E|]. split; [|done].
    split; [done|]. intros _. eexists. split; [left|done].
  - assert (Hf : force_download = false ∧ is_Some (fs w !! raw_path_of cfg table)).
    { unfold stage_needed in Hneed. destruct force_download; [done|].
      simpl in Hneed. apply negb_false_iff, bool_decide_eq_true in Hneed. done. }
    destruct Hf as [-> Hraw].
    destruct (process_table_raw_cached env cfg table skip_bigquery w Hraw)
      as (new & E & F).
    destruct (process_table_shape env cfg table false skip_bigquery w)
      as (b & w' & inner & E' & _ & _ & Hc).
    rewrite E' in E. simpl in E. rewrite Hc in E. apply app_inv_head in E.
    subst new. apply Forall_cons in F as [_ F].
    eexists. rewrite E'. split; [exact Hc|]. split.
    + split.
      * intros (c & Hin & Hk). rewrite Forall_forall in F. by apply F in Hin.
      * intros [[=]|Hnone]. rewrite Hnone in Hraw. by destruct Hraw.
    + intros [[=]|Hnone]. rewrite Hnone in Hraw. by destruct Hraw.
Qed.

(** X17. With [skip_bigquery] set, [process_table] makes no call of the load
    stage: no client is built for the warehouse, no dataset is checked or
    created, no job is submitted. *)
Theorem skip_bigquery_law (table : string) (force_download : bool) (w : World) :
  ∃ new,
    calls (process_table env cfg table force_download true w).2 = calls w ++ new ∧
    Forall (λ c, kind c ≠ Load) new.
Proof.
  set (P := λ c : Call, kind c ≠ Load).
  assert (HO : ∀ c, kind c = Orchestrate → P c) by (by intros c Hk; unfold P; rewrite Hk).
  assert (HF : ∀ c, kind c = Fetch → P c) by (by intros c Hk; unfold P; rewrite Hk).
  assert (HT : ∀ c, kind c = Transform → P c) by (by intros c Hk; unfold P; rewrite Hk).
  assert (HP : ∀ c, kind c = Publish → P c) by (by intros c Hk; unfold P; rewrite Hk).
  assert (H : steps (grows P) (process_table env cfg table force_download true)).
  { pose proof (steps_download_file env P) as Hd.
    pose proof (steps_convert_to_parquet env P) as Hc.
    pose proof (steps_upload_to_gcs env cfg P) as Hu.
    assert (H1 : P (process_table_call table force_download true)) by (by apply HO).
    assert (H2 : ∀ b, P (process_table_return table b)) by (intros b; by apply HO).
    unfold process_table, process_table_try. cbn [negb]. steps_tac. }
  destruct (H w) as [_ (new & E & F)]. by exists new.
Qed.

End Stages2.

Section Idempotency.

Context (env : Env) (cfg : Config.t).

Lemma grows_is_Some P w w' p :
  grows P w w' → is_Some (fs w !! p) → is_Some (fs w' !! p).
Proof. intros [Hd _] H. apply elem_of_dom. apply Hd. by apply elem_of_dom. Qed.

Lemma process_table_success_cached table force_download skip_bigquery w w' :
  process_table env cfg table force_download skip_bigquery w = (Ok true, w') →
  is_Some (fs w' !! raw_path_of cfg table) ∧
  is_Some (fs w' !! parquet_path_of cfg table).
Proof.
  rewrite process_table_eq, process_table_try_eq.
  set (w0 := entered table force_download skip_bigquery w).
  (* fetch *)
  assert (H1 : ∀ w1,
    (if stage_needed force_download (raw_path_of cfg table) w0
     then download_file env
            (Config.base_url cfg +:+ Config.get_table_filename table)
            (raw_path_of cfg table) 8192
     else log INFO (Skipping_download (raw_path_of cfg table))) w0 = (Ok tt, w1) →
    is_Some (fs w1 !! raw_path_of cfg table)).
  { intros w1. destruct (stage_needed _ _ w0) eqn:Hn.
    - intros E.
      pose proof (download_file_returns env
        (Config.base_url cfg +:+ Config.get_table_filename table)
        (raw_path_of cfg table) 8192 w0) as Hl.
      rewrite E in Hl. destruct (Hl eq_refl) as (r & _ & _ & _ & _ & Hf & _).
      simpl in Hf. rewrite Hf, lookup_insert_eq. by eexists.
    - intros [= <-]. simpl. unfold stage_needed in Hn.
      destruct force_download; [done|]. simpl in Hn.
      by apply negb_false_iff, bool_decide_eq_true in Hn. }
  match goal with |- context [(if ?b then ?x else ?y) w0] =>
    destruct ((if b then x else y) w0) as [[[]|e] w1] eqn:E1 end; [|done].
  specialize (H1 w1 eq_refl).
  (* transform *)
  assert (H2 : ∀ w2,
    (if stage_needed force_download (parquet_path_of cfg table) w1
     then convert_to_parquet env (raw_path_of cfg table)
            (parquet_path_of cfg table) "snappy"
     else log INFO (Skipping_conversion (parquet_path_of cfg table))) w1
    = (Ok tt, w2) →
    is_Some (fs w2 !! raw_path_of cfg table) ∧
    is_Some (fs w2 !! parquet_path_of cfg table)).
  { intros w2. destruct (stage_needed _ _ w1) eqn:Hn.
    - intros E. split.
      + pose proof (steps_convert_to_parquet env (λ _, True)
                      (raw_path_of cfg table) (parquet_path_of cfg table)
                      "snappy" ltac:(done) w1) as Hg.
        rewrite E in Hg. by eapply grows_is_Some.
      + by apply (convert_to_parquet_ok env _ _ _ _ _ E).
    - intros [= <-]. simpl. split; [done|]. unfold stage_needed in Hn.
      destruct force_download; [done|]. simpl in Hn.
      by apply negb_false_iff, bool_decide_eq_true in Hn. }
  match goal with |- context [(if ?b then ?x else ?y) w1] =>
    destruct ((if b then x else y) w1) as [[[]|e] w2] eqn:E2 end; [|done].
  destruct (H2 w2 eq_refl) as [Hr Hp].
  pose proof (steps_publish_and_load env cfg (λ _, True) table skip_bigquery
                ltac:(done) ltac:(done) ltac:(done) w2) as Hg.
  destruct (publish_and_load env cfg table skip_bigquery w2) as [[b|e] w3];
    [|done].
  intros [= -> <-]. simpl in Hg. split; by eapply grows_is_Some.
Qed.

End Idempotency.

Section Rerun.

Context (cfg : Config.t).

Lemma process_table_cached_calls env table skip_bigquery w :
  is_Some (fs w !! raw_path_of cfg table) →
  is_Some (fs w !! parquet_path_of cfg table) →
  ∃ new,
    calls (process_table env cfg table false skip_bigquery w).2 = calls w ++ new ∧
    Forall not_fetch_or_transform new.
Proof.
  intros Hraw Hpq.
  rewrite process_table_eq, (process_table_try_cached env cfg) by done.
  set (P := not_fetch_or_transform).
  assert (HO : ∀ c, kind c = Orchestrate → P c)
    by (intros c Hk; unfold P, not_fetch_or_transform; by rewrite Hk).
  assert (HP : ∀ c, kind c = Publish → P c)
    by (intros c Hk; unfold P, not_fetch_or_transform; by rewrite Hk).
  assert (HL : ∀ c, kind c = Load → P c)
    by (intros c Hk; unfold P, not_fetch_or_transform; by rewrite Hk).
  destruct (steps_publish_and_load env cfg P table skip_bigquery HO HP
              (λ _, HL) (at_publish cfg table skip_bigquery w))
    as [_ (n & En & Fn)].
  destruct (publish_and_load env cfg table skip_bigquery _) as [[b|e] w1];
    simpl in En |- *.
  - exists (process_table_call table false skip_bigquery :: n).
    rewrite En. split; [by rewrite <- app_assoc|]. constructor; [|done].
    by apply HO.
  - exists (process_table_call table false skip_bigquery :: n
            ++ [process_table_return table false]).
    rewrite En. split; [by rewrite <- !app_assoc|]. constructor; [by apply HO|].
    apply Forall_app. split; [done|]. constructor; [by apply HO|constructor].
Qed.

(** X13. A table that [process_table] reports as successful has its raw and
    its columnar artifact on disk afterwards; so processing it again with
    [force] false, under whatever the services then answer, makes no fetch
    and no transform call. *)
Theorem success_is_cached (env env' : Env) (table : string)
    (force_download skip_bigquery skip_bigquery' : bool) (w w' : World) :
  process_table env cfg table force_download skip_bigquery w = (Ok true, w') →
  is_Some (fs w' !! raw_path_of cfg table) ∧
  is_Some (fs w' !! parquet_path_of cfg table) ∧
  ∃ new,
    calls (process_table env' cfg table false skip_bigquery' w').2
    = calls w' ++ new ∧
    Forall not_fetch_or_transform new.
Proof.
  intros E.
  destruct (process_table_success_cached env cfg _ _ _ _ _ E) as [Hr Hp].
  split; [done|]. split; [done|]. by apply process_table_cached_calls.
Qed.

End Rerun.

Lemma success_is_cached_witness :
  ∃ w',
    process_table good_env Config.defaults "title.ratings" false false fresh
    = (Ok true, w') ∧
    is_Some (fs w' !! raw_path_of Config.defaults "title.ratings").
Proof.
  eexists. split; [vm_compute; reflexivity|].
  eapply (proj1 (success_is_cached Config.defaults good_env good_env
                   "title.ratings" false false false fresh _ _)).
  Unshelve. vm_compute. reflexivity.
Defined.

Section Run.

Context (env : Env) (cfg : Config.t).

Lemma touch_process_tables S force_download skip_bigquery fail_fast tables :
  (∀ t p, t ∈ tables → artifact_of cfg t p → S p) →
  ∀ i n results,
    steps (touches S)
      (process_tables env cfg i n tables force_download skip_bigquery fail_fast
         results).
Proof.
  induction tables as [|table rest IH]; intros HS i n results.
  - simpl. apply touch_mret.
  - rewrite process_tables_cons.
    assert (Ht : steps (touches S)
                   (process_table env cfg table force_download skip_bigquery)).
    { intros w. eapply touches_mono; [|apply (touch_process_table env cfg)].
      intros p Hp. eapply HS; [left|exact Hp]. }
    assert (IH' : ∀ i n results,
              steps (touches S)
                (process_tables env cfg i n rest force_download skip_bigquery
                   fail_fast results)).
    { apply IH. intros t p Hin. apply HS. by right. }
    touch_tac.
Qed.

(** X14. [process_table] changes no local file other than the raw and the
    columnar artifact of its table, and the loop of [run_pipeline] changes
    none other than the artifacts of the tables it is given. *)
Theorem single_writer_law (force_download skip_bigquery : bool) (w : World)
    (p : Path) :
  (∀ table,
     p ≠ raw_path_of cfg table → p ≠ parquet_path_of cfg table →
     fs (process_table env cfg table force_download skip_bigquery w).2 !! p
     = fs w !! p) ∧
  (∀ tables fail_fast,
     (∀ t, t ∈ tables_or_default tables →
           p ≠ raw_path_of cfg t ∧ p ≠ parquet_path_of cfg t) →
     fs (run_tables env cfg tables force_download skip_bigquery fail_fast w).2 !! p
     = fs w !! p).
Proof.
  split.
  - intros table H1 H2.
    apply (touch_process_table env cfg table force_download skip_bigquery w p).
    by intros [?|?].
  - intros tables fail_fast Hp. rewrite run_tables_eq.
    pose proof (touch_process_tables
      (λ q, ∃ t, t ∈ tables_or_default tables ∧ artifact_of cfg t q)
      force_download skip_bigquery fail_fast (tables_or_default tables)
      ltac:(intros t q ? ?; by exists t) 1 (len (tables_or_default tables)) []
      (with_logs w (run_header cfg (tables_or_default tables) force_download)) p)
      as H.
    simpl in H. apply H. intros (t & Hin & [?|?]); by destruct (Hp t Hin).
Qed.

(** X15. Without [fail_fast] a failure stops nothing: [process_table] is
    entered once for every listed table, in the order of the list, and the
    Run Result has an entry for exactly the listed tables. *)
Theorem continue_on_failure (tables : option (list string))
    (force_download skip_bigquery : bool) (w : World) :
  ∃ results w' new,
    run_tables env cfg tables force_download skip_bigquery false w
    = (Ok results, w') ∧
    calls w' = calls w ++ new ∧
    invocations new = tables_or_default tables ∧
    ∀ t, t ∈ tables_or_default tables ↔ is_Some (dict_get results t).
Proof.
  destruct (run_tables_spec env cfg tables force_download skip_bigquery false w)
    as (results & w' & new & E & [_ Hc _ Hr -> _ Hcomp]).
  assert (Hall : invocations new = tables_or_default tables)
    by (by destruct Hcomp as [?|[[=] _]]).
  eexists _, w', new. split; [exact E|]. split; [exact Hc|].
  split; [exact Hall|]. intros t.
  by rewrite record_outcomes_keys, <- Hr, Hall.
Qed.

(** X16. A dry run makes no call and changes no file.  It exits with 0 when
    the configuration is valid and with 2 when it is not. *)
Theorem dry_run_law (force_download skip_bigquery : bool) (tables : list string)
    (fail_fast cleanup verbose : bool) (w : World) :
  ∃ status w',
    main env cfg force_download skip_bigquery tables fail_fast cleanup true
      verbose w = (Ok status, w') ∧
    fs w' = fs w ∧ calls w' = calls w ∧
    (status = 0 ↔ (Config.validate cfg w).1 = Ok tt) ∧
    (status = 2 ↔ ∃ e, (Config.validate cfg w).1 = Raise e).
Proof.
  destruct (validate_cases cfg w) as [E|(e & E & _)].
  - destruct (main_dry_run env cfg force_download skip_bigquery tables fail_fast
                cleanup verbose w E) as (w' & Em & Hf & Hc).
    exists 0, w'. rewrite E. simpl. repeat split; try done.
    by intros [e [=]].
  - rewrite (main_validate_error env cfg _ _ _ _ _ _ _ _ _ E), E. simpl.
    eexists _, _. split; [reflexivity|]. repeat split; try done.
    by eexists.
Qed.

End Run.

(** ** Cleanup *)

Lemma strip_prefix_Some pre s r : strip_prefix pre s = Some r ↔ s = pre +:+ r.
Proof.
  revert s. induction pre as [|a pre IH]; intros s; simpl.
  - split; [by intros [= ->]|by intros ->].
  - destruct s as [|b s]; [done|].
    destruct (bool_decide_reflect (a = b)) as [->|Hne].
    + rewrite IH, string_app_cons. split; [by intros ->|by intros [= ->]].
    + rewrite string_app_cons. split; [done|]. by intros [= ? _].
Qed.

Lemma endswith_true s suffix :
  endswith s suffix = true ↔ ∃ stem, s = stem +:+ suffix.
Proof.
  unfold endswith. rewrite bool_decide_eq_true. split.
  - intros [k Hk]. exists (String.string_of_list_ascii k).
    apply chars_inj. rewrite chars_app. unfold chars.
    by rewrite String.list_ascii_of_string_of_list_ascii.
  - intros [stem ->]. exists (chars stem). apply chars_app.
Qed.

Lemma glob_match_iff folder suffix p :
  glob_match folder suffix p = true ↔ in_folder folder suffix p.
Proof.
  unfold glob_match, in_folder, path_join.
  destruct (strip_prefix (folder +:+ "/") p) as [name|] eqn:Hs.
  - apply strip_prefix_Some in Hs as ->.
    rewrite andb_true_iff, negb_true_iff, bool_decide_eq_false, endswith_true.
    rewrite string_app_assoc. split.
    + intros [Hn [stem ->]]. by exists stem.
    + intros (stem & Heq & Hn).
      do 2 apply string_app_inv_head in Heq. subst name. split; [done|].
      by exists stem.
  - split; [done|]. intros (stem & -> & _).
    assert (strip_prefix (folder +:+ "/") (folder +:+ "/" +:+ stem +:+ suffix)
            = Some (stem +:+ suffix)) as Hs'.
    { apply strip_prefix_Some. by rewrite string_app_assoc. }
    congruence.
Qed.

Section CleanupLaw.

Context (cfg : Config.t).

(** X10. [cleanup_local_files] always returns.  It removes the files that
    lie directly in the raw folder with a name ending in [.tsv.gz] and,
    unless [keep_parquet] is set, those directly in the columnar folder
    with a name ending in [.parquet]; every other file is left as it is. *)
Theorem cleanup_local_files_law (keep_parquet : bool) (w : World) :
  ∃ w',
    cleanup_local_files cfg keep_parquet w = (Ok tt, w') ∧
    ∀ p,
      (in_folder (Config.raw_data_folder cfg) ".tsv.gz" p ∨
       keep_parquet = false ∧
       in_folder (Config.parquet_data_folder cfg) ".parquet" p →
       fs w' !! p = None) ∧
      (¬ in_folder (Config.raw_data_folder cfg) ".tsv.gz" p →
       (keep_parquet = true ∨
        ¬ in_folder (Config.parquet_data_folder cfg) ".parquet" p) →
       fs w' !! p = fs w !! p).
Proof.
  destruct (cleanup_local_files_spec cfg keep_parquet w) as (w' & E & _ & Hf).
  exists w'. split; [exact E|]. intros p. rewrite Hf.
  rewrite <- !glob_match_iff.
  destruct (glob_match (Config.raw_data_folder cfg) ".tsv.gz" p); simpl.
  - split; [done|]. by intros [].
  - destruct keep_parquet; simpl.
    + split; [|done]. by intros [[=]|[[=] _]].
    + destruct (glob_match (Config.parquet_data_folder cfg) ".parquet" p).
      * split; [done|]. intros _ [[=]|[]]. done.
      * split; [|done]. by intros [[=]|[_ [=]]].
Qed.

Lemma raw_path_in_folder table :
  "/"%char ∉ chars table →
  in_folder (Config.raw_data_folder cfg) ".tsv.gz" (raw_path_of cfg table).
Proof.
  intros Hn. exists table. split; [done|].
  rewrite chars_app. intros [?|Hin]%elem_of_app; [done|].
  vm_compute in Hin. repeat (apply elem_of_cons in Hin as [[=]|Hin]).
  by apply elem_of_nil in Hin.
Qed.

Lemma parquet_path_not_raw table :
  ¬ in_folder (Config.raw_data_folder cfg) ".tsv.gz" (parquet_path_of cfg table).
Proof.
  intros (stem & Heq & _). unfold parquet_path_of, path_join in Heq.
  apply (f_equal chars) in Heq. rewrite !chars_app in Heq.
  apply (f_equal last) in Heq.
  change (chars ".parquet") with (chars ".parque" ++ ["t"%char]) in Heq.
  change (chars ".tsv.gz") with (chars ".tsv.g" ++ ["z"%char]) in Heq.
  rewrite !app_assoc, !last_snoc in Heq. done.
Qed.

End CleanupLaw.

(** ** Successful tables *)

Lemma dict_get_Some_elem_of (results : list (string * bool)) t b :
  dict_get results t = Some b → (t, b) ∈ results.
Proof.
  induction results as [|[t' s] rest IH]; simpl; [done|].
  destruct (bool_decide_reflect (t' = t)) as [->|Hne].
  - intros [= ->]. left.
  - intros H. right. by apply IH.
Qed.

Section Successful.

Context (env : Env) (cfg : Config.t).

Lemma process_tables_cached force_download skip_bigquery fail_fast tables :
  ∀ i n results w results' w',
    (∀ t, dict_get results t = Some true → cached_in cfg t w) →
    process_tables env cfg i n tables force_download skip_bigquery fail_fast
      results w = (Ok results', w') →
    ∀ t, dict_get results' t = Some true → cached_in cfg t w'.
Proof.
  induction tables as [|table rest IH]; intros i n results w results' w' Hinv.
  - by intros [= <- <-].
  - rewrite process_tables_cons, bind_log.
    match goal with |- context [mbind _ _ ?w0] =>
      destruct (process_table_shape env cfg table force_download skip_bigquery w0)
        as (b & w1 & inner & E & Hd & _ & _) end.
    rewrite (bind_ok _ _ _ _ _ E). simpl in Hd.
    assert (Hinv1 : ∀ t, dict_get (dict_set results table b) t = Some true →
                         cached_in cfg t w1).
    { intros t. rewrite dict_get_set.
      destruct (bool_decide_reflect (table = t)) as [->|Hne].
      - intros [= ->]. by eapply process_table_success_cached.
      - intros Ht. destruct (Hinv t Ht) as [Hr Hp].
        split; apply elem_of_dom, Hd, elem_of_dom; done. }
    destruct (negb b && fail_fast).
    + rewrite bind_log. intros [= <- <-]. exact Hinv1.
    + by apply IH.
Qed.

Lemma successful_tables_cached_aux tables force_download skip_bigquery
    fail_fast w :
  ∃ results w',
    run_tables env cfg tables force_download skip_bigquery fail_fast w
    = (Ok results, w') ∧
    ∀ t, dict_get results t = Some true → cached_in cfg t w'.
Proof.
  destruct (run_tables_spec env cfg tables force_download skip_bigquery
              fail_fast w) as (results & w' & new & E & _).
  exists results, w'. split; [exact E|].
  rewrite run_tables_eq in E.
  eapply process_tables_cached; [|exact E]. by intros t [=].
Qed.

(** X18. At the end of the loop of [run_pipeline], every table whose
    outcome in the Run Result is a success has its raw and its columnar
    artifact on disk. *)
Theorem successful_tables_cached (tables : option (list string))
    (force_download skip_bigquery fail_fast : bool) (w : World) :
  ∃ results w',
    run_tables env cfg tables force_download skip_bigquery fail_fast w
    = (Ok results, w') ∧
    ∀ t, dict_get results t = Some true → cached_in cfg t w'.
Proof. apply successful_tables_cached_aux. Qed.

(** X11. When [run_pipeline] runs with [cleanup] and nothing fails, it
    returns 0 and, for every table of the Run Result, the columnar artifact
    is on disk at the end while the raw artifact is gone (for a table name
    without a slash): cleaning up empties the fetch cache. *)
Theorem cleanup_after_success (tables : option (list string))
    (force_download skip_bigquery fail_fast : bool) (w : World) :
  ∃ results w1 code w2,
    run_tables env cfg tables force_download skip_bigquery fail_fast w
    = (Ok results, w1) ∧
    run_pipeline env cfg tables force_download skip_bigquery fail_fast true w
    = (Ok code, w2) ∧
    ((∀ t b, (t, b) ∈ results → b = true) →
     code = 0 ∧
     ∀ t, is_Some (dict_get results t) →
          is_Some (fs w2 !! parquet_path_of cfg t) ∧
          ("/"%char ∉ chars t → fs w2 !! raw_path_of cfg t = None)).
Proof.
  destruct (successful_tables_cached_aux tables force_download skip_bigquery
              fail_fast w) as (results & w1 & E & Hcached).
  destruct (finish_run_spec cfg results true w1) as (w2 & E2 & Hfin).
  exists results, w1, (exit_code results), w2. split; [exact E|].
  split; [by rewrite (run_pipeline_eq _ _ _ _ _ _ _ _ _ _ E)|].
  intros Hall. pose proof (proj2 (failed_nil results) Hall) as Hf.
  rewrite (bool_decide_eq_true_2 _ Hf) in Hfin. simpl in Hfin.
  destruct Hfin as [_ Hfs]. split.
  { unfold exit_code. by rewrite (bool_decide_eq_true_2 _ Hf). }
  intros t [b Hb].
  assert (b = true) as -> by (eapply Hall, dict_get_Some_elem_of, Hb).
  destruct (Hcached t Hb) as [Hr Hp]. split.
  - rewrite Hfs.
    destruct (glob_match (Config.raw_data_folder cfg) ".tsv.gz"
                (parquet_path_of cfg t)) eqn:Hg; [|done].
    apply glob_match_iff in Hg. by apply parquet_path_not_raw in Hg.
  - intros Hn. rewrite Hfs.
    by rewrite (proj2 (glob_match_iff _ _ _) (raw_path_in_folder cfg t Hn)).
Qed.

End Successful.

(** ** Usage statistics *)

Lemma sum_snoc l x : Stats.sum (l ++ [x]) = Stats.sum l + x.
Proof. unfold Stats.sum. induction l as [|y l IH]; simpl; lia. Qed.

Lemma sum_fmap_snoc {A} (f : A → Z) l x :
  Stats.sum (f <$> (l ++ [x])) = Stats.sum (f <$> l) + f x.
Proof. rewrite fmap_app. apply sum_snoc. Qed.

Lemma uses_snoc m history q :
  Stats.uses m (history ++ [q])
  = Stats.uses m history + (if bool_decide (Stats.model q = m) then 1 else 0).
Proof.
  unfold Stats.uses, len. rewrite filter_app, length_app.
  destruct (bool_decide_reflect (Stats.model q = m)).
  - rewrite filter_cons_True by done. simpl. lia.
  - rewrite filter_cons_False by done. simpl. lia.
Qed.

Lemma uses_nonneg m history : 0 ≤ Stats.uses m history.
Proof. unfold Stats.uses, len. lia. Qed.

Lemma replay_snoc start adds a :
  Stats.replay start (adds ++ [a]) =
  Stats.add_query (Stats.replay start adds) (Stats.at_time a)
    (Stats.with_model a) (Stats.tokens_in a) (Stats.tokens_out a)
    (Stats.asked a) (Stats.ran_sql a).
Proof. unfold Stats.replay. by rewrite foldl_app. Qed.

(** X19. However many calls of [add_query] a fresh [ConversationStats] has
    received, its counters agree with its history: [total_questions] is the
    length of the history and the number of calls, the token totals are the
    sums over the history, the usage of a model is the number of entries
    that name it, with no entry for a model never used, and the summary
    reports the sum of both token totals. *)
Theorem stats_agree_with_history (round1 : Q → Q) (start now : Z)
    (adds : list Stats.Added) :
  let s := Stats.replay start adds in
  Stats.total_questions s = len (Stats.query_history s) ∧
  Stats.total_questions s = len adds ∧
  Stats.total_input_tokens s
  = Stats.sum (Stats.input_tokens <$> Stats.query_history s) ∧
  Stats.total_output_tokens s
  = Stats.sum (Stats.output_tokens <$> Stats.query_history s) ∧
  (∀ m, Stats.model_usage s !! m
        = if bool_decide (Stats.uses m (Stats.query_history s) = 0) then None
          else Some (Stats.uses m (Stats.query_history s))) ∧
  Stats.summary_total_tokens (Stats.get_summary round1 s now)
  = Stats.sum (Stats.input_tokens <$> Stats.query_history s)
    + Stats.sum (Stats.output_tokens <$> Stats.query_history s) ∧
  Stats.session_start s = start.
Proof.
  cbv zeta. induction adds as [|a adds IH] using rev_ind.
  - by repeat split.
  - destruct IH as (H1 & H2 & H3 & H4 & H5 & H6 & H7).
    rewrite replay_snoc. unfold Stats.add_query, Stats.get_summary in *.
    simpl in *. rewrite !sum_fmap_snoc. unfold len in *.
    rewrite !length_app. simpl.
    split; [lia|]. split; [lia|]. split; [simpl; lia|]. split; [simpl; lia|].
    split; [|split; [simpl; lia|done]].
    intros m. rewrite uses_snoc. simpl.
    pose proof (uses_nonneg m (Stats.query_history (Stats.replay start adds))).
    destruct (bool_decide_reflect (Stats.with_model a = m)) as [->|Hne].
    + rewrite lookup_insert_eq, H5.
      rewrite (bool_decide_eq_false_2 (_ + 1 = 0)) by lia. f_equal.
      destruct (bool_decide_reflect
        (Stats.uses m (Stats.query_history (Stats.replay start adds)) = 0))
        as [H0|H0]; simpl; lia.
    + rewrite lookup_insert_ne by done. rewrite H5, Z.add_0_r. done.
Qed.

(** X26. [count_tokens] never raises and changes nothing.  When tiktoken
    knows the model and encodes the text, the count is the number of
    tokens; when either step raises, it is a quarter of the length of the
    text, rounded down. *)
Theorem count_tokens_law
    (encoding_for_model : string → Exn + (string → Exn + list Z))
    (text model : string) (w : World) :
  ∃ n,
    Stats.count_tokens encoding_for_model text model w = (Ok n, w) ∧
    0 ≤ n ∧
    match encoding_for_model model with
    | inr encoding =>
        match encoding text with
        | inr tokens => n = len tokens
        | inl _ => 4 * n ≤ len_str text < 4 * n + 4
        end
    | inl _ => 4 * n ≤ len_str text < 4 * n + 4
    end.
Proof.
  unfold Stats.count_tokens. rewrite try_except_Exception.
  unfold mbind, M_bind, mret, M_ret, lift_sum, raise.
  assert (Hq : 0 ≤ len_str text `div` 4 ∧
               4 * (len_str text `div` 4) ≤ len_str text
               < 4 * (len_str text `div` 4) + 4).
  { unfold len_str. pose proof (Nat2Z.is_nonneg (String.length text)).
    Z.div_mod_to_equations. lia. }
  destruct (encoding_for_model model) as [e|encoding]; simpl.
  - eexists. split; [done|]. done.
  - destruct (encoding text) as [e|tokens]; simpl.
    + eexists. split; [done|]. done.
    + eexists. split; [done|]. unfold len. split; [lia|done].
Qed.

(** ** The query tool and the agent *)

Lemma turn_bind_eq {T U} (c : Agent.Turn T) (k : T → Agent.Turn U) s :
  (c ≫= k) s = match c s with
               | (Ok a, s') => k a s'
               | (Raise e, s') => (Raise e, s')
               end.
Proof. reflexivity. Qed.

Lemma executed_app cs1 cs2 : executed (cs1 ++ cs2) = executed cs1 ++ executed cs2.
Proof. unfold executed. apply omap_app. Qed.

Section AgentFacts.

Context (env : Env) (services : Agent.Services).
Context (PROJECT_ID DATASET_ID : string) (CREDENTIALS_PATH : Path).
Context (OPENAI_MODEL : string).

(** [execute_sql] returns, having changed nothing but the trace of calls. *)
Lemma execute_sql_effect sql_query w :
  ∃ result extra,
    execute_sql env CREDENTIALS_PATH sql_query w
    = (Ok result,
       mkWorld (fs w) (calls w ++ execute_sql_call sql_query :: extra) (logs w)) ∧
    executed extra = [].
Proof.
  unfold execute_sql. rewrite bind_call, try_except_Exception.
  unfold execute_sql_try, tool_get_bigquery_client.
  unfold mbind, M_bind, mret, M_ret, get_fs, get_calls, call, raise, lift_sum,
    lift_err. simpl.
  destruct (fs w !! CREDENTIALS_PATH) as [content|]; simpl;
    [|by eexists _, []].
  destruct (credentials_from_file env _ content); simpl; [by eexists _, []|].
  destruct (bq_query env _ sql_query) as [e|job]; simpl;
    [eexists _, [_]; by rewrite <- app_assoc|].
  destruct (query_result job) as [e|df]; simpl;
    eexists _, [_]; by rewrite <- app_assoc.
Qed.

Lemma in_world_execute_sql sql_query s :
  ∃ result extra,
    Agent.in_world (execute_sql env CREDENTIALS_PATH sql_query) s
    = (Ok result,
       Agent.mkSession
         (mkWorld (fs (Agent.world s))
            (calls (Agent.world s) ++ execute_sql_call sql_query :: extra)
            (logs (Agent.world s)))
         (Agent.requests s)) ∧
    executed extra = [].
Proof.
  destruct (execute_sql_effect sql_query (Agent.world s))
    as (result & extra & E & Hx).
  exists result, extra. unfold Agent.in_world. by rewrite E.
Qed.

Lemma last_cons_app {A} (x : A) l d :
  from_option Some d (last (x :: l)) = from_option Some (Some x) (last l).
Proof.
  destruct l as [|y l] using rev_ind; [done|].
  by rewrite app_comm_cons, !last_snoc.
Qed.

(** The loop over the tool calls of a response sends nothing to the model;
    it runs the queries the calls stand for and appends their tool
    messages. *)
Lemma execute_tool_calls_spec tool_calls vars s :
  ∃ res s' new_calls,
    Agent.execute_tool_calls env services CREDENTIALS_PATH tool_calls vars s
    = (res, s') ∧
    Agent.requests s' = Agent.requests s ∧
    fs (Agent.world s') = fs (Agent.world s) ∧
    calls (Agent.world s') = calls (Agent.world s) ++ new_calls ∧
    Forall (λ q, ∃ tc, tc ∈ tool_calls ∧ query_of services tc = Some q)
      (executed new_calls) ∧
    ∀ vars', res = Ok vars' →
      (∃ tool_messages,
         Agent.messages vars' = Agent.messages vars ++ tool_messages ∧
         Forall is_tool_message tool_messages ∧
         (length tool_messages ≤ length tool_calls)%nat) ∧
      Agent.sql_executed vars'
      = from_option Some (Agent.sql_executed vars) (last (executed new_calls)) ∧
      ((is_Some (Agent.query_result vars) → is_Some (Agent.sql_executed vars)) →
       is_Some (Agent.query_result vars') → is_Some (Agent.sql_executed vars')) ∧
      (executed new_calls = [] →
       Agent.query_result vars' = Agent.query_result vars).
Proof.
  revert vars s. induction tool_calls as [|tc rest IH]; intros vars s.
  - exists (Ok vars), s, []. simpl. rewrite app_nil_r.
    do 5 (split; [done|]). intros vars' [= <-].
    split; [|done]. exists []. by rewrite app_nil_r.
  - simpl.
    destruct (bool_decide_reflect
                (Agent.function_name tc = "execute_bigquery_sql")) as [Hn|Hn].
    + rewrite turn_bind_eq. unfold Agent.lift at 1.
      destruct (Agent.json_loads_sql_query services _) as [e|q] eqn:Hq.
      { exists (Raise e), s, []. rewrite app_nil_r. by do 5 (split; [done|]). }
      assert (Hof : query_of services tc = Some q).
      { unfold query_of. by rewrite bool_decide_eq_true_2, Hq. }
      rewrite turn_bind_eq.
      destruct (in_world_execute_sql q s) as (result & extra & E & Hx).
      rewrite E. rewrite turn_bind_eq. unfold Agent.lift at 1.
      destruct (Agent.json_dumps services _) as [e|content].
      { eexists (Raise e), _, (execute_sql_call q :: extra).
        split; [reflexivity|]. cbn [Agent.requests Agent.world fs calls].
        do 3 (split; [done|]). split; [|done].
        change (executed (execute_sql_call q :: extra)) with (q :: executed extra).
        rewrite Hx.
        constructor; [|done]. exists tc. split; [left|done]. }
      match goal with |- context [Agent.execute_tool_calls _ _ _ rest ?v ?s1] =>
        destruct (IH v s1) as (res & s' & new_calls & E' & Hr & Hf & Hc & Hall & Hok)
      end.
      exists res, s', (execute_sql_call q :: extra ++ new_calls).
      rewrite E'. simpl in Hr, Hf, Hc. split; [done|]. split; [done|].
      split; [done|]. split; [rewrite Hc; by rewrite <- app_assoc|].
      change (executed (execute_sql_call q :: extra ++ new_calls))
        with (q :: executed (extra ++ new_calls)).
      rewrite executed_app, Hx. cbn [app]. split.
      { constructor; [exists tc; split; [left|done]|].
        eapply Forall_impl; [exact Hall|]. intros q' (tc' & ? & ?).
        exists tc'. split; [by right|done]. }
      intros vars' ->. destruct (Hok vars' eq_refl)
        as ((tms & Hm & Ht & Hl) & Hs & Hinv & Hnone). simpl in *.
      split; [|split; [|split]].
      * exists (Agent.tool_message (Agent.id tc) content :: tms).
        rewrite Hm, <- app_assoc. split; [done|].
        split; [by constructor|simpl; lia].
      * rewrite Hs. by rewrite last_cons_app.
      * intros _. apply Hinv. by eexists.
      * done.
    + destruct (IH vars s)
        as (res & s' & new_calls & E' & Hr & Hf & Hc & Hall & Hok).
      exists res, s', new_calls. split; [done|]. split; [done|].
      split; [done|]. split; [done|]. split.
      { eapply Forall_impl; [exact Hall|]. intros q' (tc' & ? & ?).
        exists tc'. split; [by right|done]. }
      intros vars' ->. destruct (Hok vars' eq_refl)
        as ((tms & Hm & Ht & Hl) & Hs & Hinv & Hnone).
      split; [|done]. exists tms. split; [done|]. split; [done|]. simpl. lia.
Qed.

End AgentFacts.

Lemma last_app_from_option {A} (d : option A) l1 l2 :
  from_option Some (from_option Some d (last l1)) (last l2)
  = from_option Some d (last (l1 ++ l2)).
Proof.
  destruct l2 as [|x l2 _] using rev_ind.
  - by rewrite app_nil_r.
  - by rewrite app_assoc, !last_snoc.
Qed.

Section AgentLoop.

Context (env : Env) (services : Agent.Services).
Context (PROJECT_ID DATASET_ID : string) (CREDENTIALS_PATH : Path).
Context (OPENAI_MODEL : string).

(** One round of the agent loop. *)
Lemma agent_loop_S n model vars total s :
  Agent.agent_loop env services CREDENTIALS_PATH (S n) model vars total s =
  let request := Agent.mkRequest model (Agent.messages vars) in
  let s1 := Agent.mkSession (Agent.world s) (Agent.requests s ++ [request]) in
  match Agent.chat_completions_create services (Agent.requests s) request with
  | inl e => (Raise e, s1)
  | inr response =>
      let total := Agent.track_usage total response in
      match requested response with
      | [] =>
          (Ok {| Agent.answer := Agent.content response;
                 Agent.sql_query := Agent.sql_executed vars;
                 Agent.data := Agent.data_of (Agent.query_result vars);
                 Agent.error := None;
                 Agent.result_usage := total |}, s1)
      | _ :: _ =>
          match Agent.execute_tool_calls env services CREDENTIALS_PATH
                  (requested response)
                  {| Agent.messages :=
                       Agent.messages vars
                       ++ [Agent.assistant_message (Agent.content response)
                             (requested response)];
                     Agent.sql_executed := Agent.sql_executed vars;
                     Agent.query_result := Agent.query_result vars |} s1 with
          | (Ok vars', s2) =>
              Agent.agent_loop env services CREDENTIALS_PATH n model vars' total s2
          | (Raise e, s2) => (Raise e, s2)
          end
      end
  end.
Proof.
  cbn [Agent.agent_loop]. rewrite turn_bind_eq. unfold Agent.create at 1.
  cbv zeta.
  destruct (Agent.chat_completions_create services _ _) as [e|response];
    [done|].
  unfold requested.
  destruct (Agent.tool_calls response) as [[|tc rest]|]; try done.
Qed.

(** What a run of the agent loop with [n] rounds left does. *)
Lemma agent_loop_spec n model vars total s :
  ∃ res s' new new_calls,
    Agent.agent_loop env services CREDENTIALS_PATH n model vars total s
    = (res, s') ∧
    Agent.requests s' = Agent.requests s ++ new ∧
    (length new ≤ n)%nat ∧
    Forall (λ r, Agent.request_model r = model) new ∧
    (n ≠ 0%nat →
     head (Agent.request_messages <$> new) = Some (Agent.messages vars)) ∧
    (∀ i a b, new !! i = Some a → new !! S i = Some b →
       ∃ response added,
         answers services (Agent.requests s) new !! i = Some (inr response) ∧
         follow_up response added ∧
         Agent.request_messages b = Agent.request_messages a ++ added) ∧
    fs (Agent.world s') = fs (Agent.world s) ∧
    calls (Agent.world s') = calls (Agent.world s) ++ new_calls ∧
    Forall (λ q, ∃ response tc,
                inr response ∈ answers services (Agent.requests s) new ∧
                tc ∈ requested response ∧ query_of services tc = Some q)
      (executed new_calls) ∧
    ∀ r, res = Ok r →
      ∃ responses,
        answers services (Agent.requests s) new = inr <$> responses ∧
        Agent.result_usage r = foldl Agent.track_usage total responses ∧
        Agent.sql_query r
        = from_option Some (Agent.sql_executed vars) (last (executed new_calls)) ∧
        ((is_Some (Agent.query_result vars) → is_Some (Agent.sql_executed vars)) →
         is_Some (Agent.data r) → is_Some (Agent.sql_query r)) ∧
        (executed new_calls = [] →
         Agent.data r = None ∨
         Agent.data r = Agent.data_of (Agent.query_result vars)) ∧
        ((Agent.error r = None ∧
          ∃ earlier final,
            responses = earlier ++ [final] ∧
            Forall (λ x, requested x ≠ []) earlier ∧
            requested final = [] ∧
            Agent.answer r = Agent.content final)
         ∨
         (Agent.error r = Some "Max iterations reached" ∧
          length new = n ∧
          Forall (λ x, requested x ≠ []) responses ∧
          Agent.data r = None ∧
          Agent.answer r = Some apology)).
Proof.
  revert vars total s. induction n as [|n IH]; intros vars total s.
  - eexists _, s, [], []. split; [reflexivity|]. rewrite !app_nil_r.
    do 8 (split; [done|]). intros r [= <-]. exists []. simpl.
    do 3 (split; [done|]). split; [by intros _ [? [=]]|]. split; [by left|].
    right. by repeat split.
  - rewrite agent_loop_S. cbv zeta.
    set (request := Agent.mkRequest model (Agent.messages vars)).
    destruct (Agent.chat_completions_create services (Agent.requests s) request)
      as [e|response] eqn:Hcreate.
    { eexists _, _, [request], []. split; [reflexivity|]. simpl.
      rewrite app_nil_r. split; [done|]. split; [lia|].
      split; [by repeat constructor|]. split; [done|].
      split; [by intros [|i] a b ? ?|]. by do 3 (split; [done|]). }
    destruct (requested response) as [|tc0 rest0] eqn:Hreq.
    { eexists _, _, [request], []. split; [reflexivity|]. simpl.
      rewrite app_nil_r. split; [done|]. split; [lia|].
      split; [by repeat constructor|]. split; [done|].
      split; [by intros [|i] a b ? ?|]. do 3 (split; [done|]).
      intros r [= <-]. exists [response]. simpl. rewrite Hcreate.
      do 3 (split; [done|]). split.
      { intros Hinv [df Hd]. apply Hinv. unfold Agent.data_of in Hd.
        destruct (Agent.query_result vars); [by eexists|done]. }
      split; [by right|].
      left. split; [done|]. exists [], response. by repeat split. }
    rewrite <- Hreq.
    match goal with
    | |- context [Agent.execute_tool_calls _ _ _ _ ?v ?s1] =>
        destruct (execute_tool_calls_spec env services CREDENTIALS_PATH
                    (requested response) v s1)
          as (res1 & s2 & calls1 & E1 & Hr1 & Hf1 & Hc1 & Hq1 & Hok1)
    end.
    rewrite E1. cbn [Agent.requests Agent.world Agent.messages
      Agent.sql_executed Agent.query_result] in Hr1, Hf1, Hc1, Hok1.
    destruct res1 as [vars1|e].
    2: { eexists _, _, [request], calls1. split; [reflexivity|].
         split; [done|]. split; [simpl; lia|].
         split; [by repeat constructor|]. split; [done|].
         split; [by intros [|i] a b ? ?|]. do 2 (split; [done|]).
         split; [|done]. eapply Forall_impl; [exact Hq1|].
         intros q (tc & ? & ?). exists response, tc. simpl. rewrite Hcreate.
         split; [left|done]. }
    destruct (Hok1 vars1 eq_refl) as ((tms & Hm1 & Ht1 & Hl1) & Hs1 & Hinv1 & Hnone1).
    destruct (IH vars1 (Agent.track_usage total response) s2)
      as (res & s' & new & calls2 & E & Hr & Hlen & Hmodel & Hhead & Hconv
          & Hf & Hc & Hq & Hok).
    exists res, s', (request :: new), (calls1 ++ calls2).
    split; [exact E|].
    split; [by rewrite Hr, Hr1, <- app_assoc|]. split; [simpl; lia|].
    split; [by constructor|]. split; [done|].
    cbn [answers]. rewrite Hcreate, Hr1 in *.
    split; [|split; [by rewrite Hf, Hf1|]].
    { intros [|i] a b Ha Hb; simpl in Ha, Hb.
      - injection Ha as <-. exists response.
        assert (n ≠ 0%nat) as Hn.
        { intros ->. destruct new; [done|simpl in Hlen; lia]. }
        specialize (Hhead Hn). destruct new as [|b' new']; [done|].
        simpl in Hhead, Hb. injection Hhead as Hb'. injection Hb as ->.
        eexists. split; [done|]. split; [|by rewrite Hb', Hm1, <- app_assoc].
        exists tms. by rewrite Hreq in *.
      - destruct (Hconv i a b Ha Hb) as (resp & added & ? & ? & ?).
        by exists resp, added. }
    split; [by rewrite Hc, Hc1, <- app_assoc|].
    rewrite executed_app. split.
    { apply Forall_app. split.
      - eapply Forall_impl; [exact Hq1|]. intros q (tc & ? & ?).
        exists response, tc. split; [left|done].
      - eapply Forall_impl; [exact Hq|]. intros q (resp & tc & ? & ? & ?).
        exists resp, tc. split; [by right|done]. }
    intros r ->. destruct (Hok r eq_refl)
      as (responses & Hans & Hu & Hsql & Hdata & Hnone & Hcases).
    exists (response :: responses). rewrite Hans.
    split; [done|]. split; [done|].
    split; [by rewrite Hsql, Hs1, last_app_from_option|].
    split; [intros Hinv; by apply Hdata, Hinv1|].
    split.
    { intros [Hx1 Hx2]%app_eq_nil. destruct (Hnone Hx2) as [?|Hd]; [by left|].
      right. by rewrite Hd, Hnone1. }
    destruct Hcases as [(He & earlier & final & -> & Hall & Hfin & Hans')
                       |(He & Hl & Hall & Hd & Ha)].
    + left. split; [done|]. exists (response :: earlier), final.
      split; [done|]. split; [|done]. constructor; [by rewrite Hreq|done].
    + right. split; [done|]. split; [simpl; lia|].
      split; [|done]. constructor; [by rewrite Hreq|done].
Qed.

End AgentLoop.

Section SchemaFacts.

Context (env : Env) (table_schema : list Call → string → Exn + list SchemaField).
Context (PROJECT_ID DATASET_ID : string) (CREDENTIALS_PATH : Path).

Lemma tool_get_bigquery_client_cases w :
  tool_get_bigquery_client env CREDENTIALS_PATH w = (Ok tt, w) ∨
  ∃ e, tool_get_bigquery_client env CREDENTIALS_PATH w = (Raise e, w).
Proof.
  unfold tool_get_bigquery_client.
  unfold mbind, M_bind, mret, M_ret, get_fs, get_calls, raise, lift_err. simpl.
  destruct (fs w !! CREDENTIALS_PATH) as [content|]; simpl; [|by eauto].
  destruct (credentials_from_file env (calls w) content); simpl; by eauto.
Qed.

(** The loop of [get_schema] asks for the tables in order and stops at the
    first lookup that raises. *)
Lemma get_schema_tables_spec tables schema_info w :
  let ref t := PROJECT_ID +:+ "." +:+ DATASET_ID +:+ "." +:+ t in
  ∃ res asked,
    get_schema_tables table_schema PROJECT_ID DATASET_ID tables schema_info w
    = (res, mkWorld (fs w) (calls w ++ (get_table_call ∘ ref <$> asked)) (logs w)) ∧
    asked `prefix_of` tables ∧
    (∀ schema, res = Ok schema → asked = tables).
Proof.
  cbv zeta. revert schema_info w.
  induction tables as [|t rest IH]; intros schema_info w.
  - exists (Ok schema_info), []. simpl. rewrite app_nil_r. by destruct w.
  - cbn [get_schema_tables]. cbv zeta.
    unfold mbind, M_bind, mret, M_ret, get_calls, call, lift_sum, raise. simpl.
    destruct (table_schema (calls w) _) as [e|schema] eqn:Hs; simpl.
    + exists (Raise e), [t]. split; [done|]. split; [|done].
      by apply prefix_cons, prefix_nil.
    + match goal with |- context [get_schema_tables _ _ _ rest ?si ?w1] =>
        destruct (IH si w1) as (res & asked & E & Hp & Hok) end.
      exists res, (t :: asked). rewrite E. simpl. rewrite <- app_assoc.
      split; [done|]. split; [by apply prefix_cons|].
      intros schema' ->. by rewrite (Hok schema' eq_refl).
Qed.

Lemma get_schema_spec w :
  let ref t := PROJECT_ID +:+ "." +:+ DATASET_ID +:+ "." +:+ t in
  ∃ res asked,
    get_schema env table_schema PROJECT_ID DATASET_ID CREDENTIALS_PATH w
    = (res, mkWorld (fs w) (calls w ++ (get_table_call ∘ ref <$> asked)) (logs w)) ∧
    asked `prefix_of` ["movies"; "dim_actors"; "dim_directors"] ∧
    (∀ schema, res = Ok schema → asked = ["movies"; "dim_actors"; "dim_directors"]).
Proof.
  cbv zeta. unfold get_schema. rewrite bind_eq.
  destruct (tool_get_bigquery_client_cases w) as [E|[e E]]; rewrite E.
  - apply get_schema_tables_spec.
  - exists (Raise e), []. simpl. rewrite app_nil_r. split; [by destruct w|].
    split; [apply prefix_nil|done].
Qed.

Lemma executed_get_table (ref : string → string) asked :
  executed (get_table_call ∘ ref <$> asked) = [].
Proof. by induction asked. Qed.

End SchemaFacts.

Section Prompt.

Context (env : Env) (services : Agent.Services).
Context (PROJECT_ID DATASET_ID : string) (CREDENTIALS_PATH : Path).

(** Building the system prompt reads the schema and does nothing else. *)
Lemma create_system_prompt_effect w :
  ∃ res new_calls,
    Agent.create_system_prompt env services PROJECT_ID DATASET_ID
      CREDENTIALS_PATH w
    = (res, mkWorld (fs w) (calls w ++ new_calls) (logs w)) ∧
    executed new_calls = [].
Proof.
  unfold Agent.create_system_prompt, format_schema_for_llm.
  rewrite !bind_eq.
  destruct (get_schema_spec env (Agent.table_schema services) PROJECT_ID
              DATASET_ID CREDENTIALS_PATH w) as (res & asked & E & _).
  rewrite E. destruct res as [schema|e]; simpl;
    eexists _, _; (split; [reflexivity|apply executed_get_table]).
Qed.

End Prompt.

Section SchemaLaw.

Context (env : Env) (table_schema : list Call → string → Exn + list SchemaField).
Context (PROJECT_ID DATASET_ID : string) (CREDENTIALS_PATH : Path).


End SchemaLaw.

Section AgentLaws.

Context (env : Env) (services : Agent.Services).
Context (PROJECT_ID DATASET_ID : string) (CREDENTIALS_PATH : Path).
Context (OPENAI_MODEL : string).

Lemma run_agent_eq user_question conversation_history model s :
  ∃ res w1 new_calls,
    Agent.create_system_prompt env services PROJECT_ID DATASET_ID
      CREDENTIALS_PATH (Agent.world s) = (res, w1) ∧
    fs w1 = fs (Agent.world s) ∧
    calls w1 = calls (Agent.world s) ++ new_calls ∧
    executed new_calls = [] ∧
    Agent.run_agent env services PROJECT_ID DATASET_ID CREDENTIALS_PATH
      OPENAI_MODEL user_question conversation_history model s =
    match res with
    | Raise e => (Raise e, Agent.mkSession w1 (Agent.requests s))
    | Ok system_prompt =>
        Agent.agent_loop env services CREDENTIALS_PATH 3
          (default OPENAI_MODEL model)
          (Agent.mkVars
             ([Agent.message "system" (Some system_prompt)]
              ++ default [] conversation_history
              ++ [Agent.message "user" (Some user_question)]) None None)
          (Agent.mkUsage 0 0 0) (Agent.mkSession w1 (Agent.requests s))
    end.
Proof.
  destruct (create_system_prompt_effect env services PROJECT_ID DATASET_ID
              CREDENTIALS_PATH (Agent.world s)) as (res & new_calls & E & Hx).
  eexists res, _, new_calls. split; [exact E|]. do 3 (split; [done|]).
  unfold Agent.run_agent. cbv zeta. rewrite turn_bind_eq.
  unfold Agent.in_world at 1. rewrite E. by destruct res.
Qed.

End AgentLaws.

Lemma track_usage_sum responses u0 :
  Agent.prompt_tokens (foldl Agent.track_usage u0 responses)
  = Agent.prompt_tokens u0
    + foldr Z.add 0 (Agent.prompt_tokens <$> omap Agent.usage responses) ∧
  Agent.completion_tokens (foldl Agent.track_usage u0 responses)
  = Agent.completion_tokens u0
    + foldr Z.add 0 (Agent.completion_tokens <$> omap Agent.usage responses) ∧
  Agent.total_tokens (foldl Agent.track_usage u0 responses)
  = Agent.total_tokens u0
    + foldr Z.add 0 (Agent.total_tokens <$> omap Agent.usage responses).
Proof.
  revert u0. induction responses as [|x rest IH]; intros u0.
  - simpl. split; [|split]; apply eq_sym, Z.add_0_r.
  - cbn [foldl]. destruct (IH (Agent.track_usage u0 x)) as (H1 & H2 & H3).
    rewrite H1, H2, H3. unfold Agent.track_usage. cbn [omap list_omap].
    destruct (Agent.usage x) as [u|]; simpl;
      (split; [|split]); rewrite ?Z.add_assoc; done.
Qed.

Section AgentRun.

Context (env : Env) (services : Agent.Services).
Context (PROJECT_ID DATASET_ID : string) (CREDENTIALS_PATH : Path).
Context (OPENAI_MODEL : string).

(** What a call of [run_agent] does, in one statement. *)
Lemma run_agent_spec user_question conversation_history model s :
  ∃ res s' new new_calls,
    Agent.run_agent env services PROJECT_ID DATASET_ID CREDENTIALS_PATH
      OPENAI_MODEL user_question conversation_history model s = (res, s') ∧
    Agent.requests s' = Agent.requests s ++ new ∧
    (length new ≤ 3)%nat ∧
    Forall (λ r, Agent.request_model r = default OPENAI_MODEL model) new ∧
    (∀ system_prompt w1,
       Agent.create_system_prompt env services PROJECT_ID DATASET_ID
         CREDENTIALS_PATH (Agent.world s) = (Ok system_prompt, w1) →
       head (Agent.request_messages <$> new)
       = Some ([Agent.message "system" (Some system_prompt)]
               ++ default [] conversation_history
               ++ [Agent.message "user" (Some user_question)])) ∧
    (∀ e w1,
       Agent.create_system_prompt env services PROJECT_ID DATASET_ID
         CREDENTIALS_PATH (Agent.world s) = (Raise e, w1) →
       res = Raise e ∧ new = []) ∧
    (∀ i a b, new !! i = Some a → new !! S i = Some b →
       ∃ response added,
         answers services (Agent.requests s) new !! i = Some (inr response) ∧
         follow_up response added ∧
         Agent.request_messages b = Agent.request_messages a ++ added) ∧
    fs (Agent.world s') = fs (Agent.world s) ∧
    calls (Agent.world s') = calls (Agent.world s) ++ new_calls ∧
    Forall (λ q, ∃ response tc,
                inr response ∈ answers services (Agent.requests s) new ∧
                tc ∈ requested response ∧ query_of services tc = Some q)
      (executed new_calls) ∧
    ∀ r, res = Ok r →
      ∃ responses,
        answers services (Agent.requests s) new = inr <$> responses ∧
        Agent.result_usage r = total_usage responses ∧
        Agent.sql_query r = last (executed new_calls) ∧
        (is_Some (Agent.data r) → is_Some (Agent.sql_query r)) ∧
        ((Agent.error r = None ∧
          ∃ earlier final,
            responses = earlier ++ [final] ∧
            Forall (λ x, requested x ≠ []) earlier ∧
            requested final = [] ∧
            Agent.answer r = Agent.content final)
         ∨
         (Agent.error r = Some "Max iterations reached" ∧
          length responses = 3%nat ∧
          Forall (λ x, requested x ≠ []) responses ∧
          Agent.data r = None ∧
          Agent.answer r = Some apology)).
Proof.
  destruct (run_agent_eq env services PROJECT_ID DATASET_ID CREDENTIALS_PATH
              OPENAI_MODEL user_question conversation_history model s)
    as (res0 & w1 & calls0 & Ep & Hf0 & Hc0 & Hx0 & ->).
  destruct res0 as [system_prompt|e].
  2: { eexists _, _, [], calls0. split; [reflexivity|]. simpl.
       rewrite app_nil_r, Hx0. split; [done|]. split; [lia|].
       split; [done|]. split; [by rewrite Ep|]. split.
       { intros e' w' E'. rewrite Ep in E'. by injection E' as -> _. }
       by do 4 (split; [done|]). }
  match goal with |- context [Agent.agent_loop _ _ _ ?n ?m ?v ?t ?s1] =>
    destruct (agent_loop_spec env services CREDENTIALS_PATH n m v t s1)
      as (res & s' & new & calls1 & E & Hr & Hlen & Hmodel & Hhead & Hconv
          & Hf & Hc & Hq & Hok)
  end.
  cbn [Agent.requests Agent.world Agent.messages Agent.sql_executed
       Agent.query_result] in *.
  exists res, s', new, (calls0 ++ calls1). split; [exact E|].
  do 3 (split; [done|]). split.
  { intros p w' E'. rewrite Ep in E'. injection E' as <- _. by apply Hhead. }
  split; [by intros e w' E'; rewrite Ep in E'|]. split; [done|].
  split; [by rewrite Hf|]. split; [by rewrite Hc, Hc0, <- app_assoc|].
  rewrite executed_app, Hx0. cbn [app]. split; [done|].
  intros r ->. destruct (Hok r eq_refl)
    as (responses & Hans & Hu & Hsql & Hdata & _ & Hcases).
  exists responses. split; [done|]. split; [done|].
  split; [rewrite Hsql; by destruct (last (executed calls1))|].
  split; [apply Hdata; by intros [? [=]]|].
  destruct Hcases as [?|(He & Hl & Hall & Hd & Ha)]; [by left|right].
  split; [done|]. split; [|done].
  apply (f_equal length) in Hans. rewrite length_fmap in Hans.
  rewrite <- Hans, <- Hl. clear. generalize (Agent.requests s).
  induction new as [|x new IH]; intros old; [done|]. simpl. by rewrite IH.
Qed.

(** X21. Whatever the model and the services answer, [run_agent] sends at
    most three requests to the model, each for the model asked for, or for
    [OPENAI_MODEL] when none is, and changes no local file.  When the
    system prompt cannot be built, the error is raised and no request is
    sent; otherwise at least one is. *)
Theorem run_agent_requests_law (user_question : string)
    (conversation_history : option (list Agent.Message)) (model : option string)
    (s : Agent.Session) :
  let run := Agent.run_agent env services PROJECT_ID DATASET_ID CREDENTIALS_PATH
               OPENAI_MODEL user_question conversation_history model s in
  ∃ new,
    Agent.requests run.2 = Agent.requests s ++ new ∧
    (length new ≤ 3)%nat ∧
    Forall (λ r, Agent.request_model r = default OPENAI_MODEL model) new ∧
    fs (Agent.world run.2) = fs (Agent.world s) ∧
    match Agent.create_system_prompt env services PROJECT_ID DATASET_ID
            CREDENTIALS_PATH (Agent.world s) with
    | (Raise e, _) => run.1 = Raise e ∧ new = []
    | (Ok _, _) => new ≠ []
    end.
Proof.
  cbv zeta.
  destruct (run_agent_spec user_question conversation_history model s)
    as (res & s' & new & new_calls & E & Hr & Hlen & Hmodel & Hhead & Hraise
        & _ & Hf & _).
  exists new. rewrite E. simpl. do 4 (split; [done|]).
  destruct (Agent.create_system_prompt _ _ _ _ _ _) as [[p|e] w1].
  - specialize (Hhead p w1 eq_refl). by destruct new.
  - by apply (Hraise e w1).
Qed.

(** X22. The conversation [run_agent] sends only grows.  The first request
    carries the system prompt, then the history, then the question; each
    later request carries the messages of the one before, followed by the
    assistant message of the response to it and by at most one tool message
    per tool call of that response. *)
Theorem run_agent_conversation_law (user_question : string)
    (conversation_history : option (list Agent.Message)) (model : option string)
    (s : Agent.Session) :
  let run := Agent.run_agent env services PROJECT_ID DATASET_ID CREDENTIALS_PATH
               OPENAI_MODEL user_question conversation_history model s in
  ∃ new,
    Agent.requests run.2 = Agent.requests s ++ new ∧
    (∀ first, head new = Some first →
       ∃ system_prompt w1,
         Agent.create_system_prompt env services PROJECT_ID DATASET_ID
           CREDENTIALS_PATH (Agent.world s) = (Ok system_prompt, w1) ∧
         Agent.request_messages first
         = [Agent.message "system" (Some system_prompt)]
           ++ default [] conversation_history
           ++ [Agent.message "user" (Some user_question)]) ∧
    (∀ i a b, new !! i = Some a → new !! S i = Some b →
       ∃ response added,
         answers services (Agent.requests s) new !! i = Some (inr response) ∧
         follow_up response added ∧
         Agent.request_messages b = Agent.request_messages a ++ added).
Proof.
  cbv zeta.
  destruct (run_agent_spec user_question conversation_history model s)
    as (res & s' & new & new_calls & E & Hr & _ & _ & Hhead & Hraise
        & Hconv & _).
  exists new. rewrite E. simpl. split; [done|]. split; [|done].
  intros first Hfirst.
  destruct (Agent.create_system_prompt _ _ _ _ _ _) as [[p|e] w1].
  - exists p, w1. split; [done|]. specialize (Hhead p w1 eq_refl).
    destruct new as [|x new]; [done|]. simpl in *. congruence.
  - destruct (Hraise e w1 eq_refl) as [_ ->]. done.
Qed.

(** X23. When [run_agent] returns, every request it sent was answered, and
    one of two things happened.  Either the last response asked for no
    tool, every earlier one did, and the answer is the content of the last
    response, with no error; or three responses all asked for tools, and
    the result carries the error [Max iterations reached], an apology for
    an answer and no data. *)
Theorem run_agent_result_law (user_question : string)
    (conversation_history : option (list Agent.Message)) (model : option string)
    (s : Agent.Session) (r : Agent.Result) (new : list Agent.Request) :
  let run := Agent.run_agent env services PROJECT_ID DATASET_ID CREDENTIALS_PATH
               OPENAI_MODEL user_question conversation_history model s in
  run.1 = Ok r →
  Agent.requests run.2 = Agent.requests s ++ new →
  ∃ responses,
    answers services (Agent.requests s) new = inr <$> responses ∧
    ((Agent.error r = None ∧
      ∃ earlier final,
        responses = earlier ++ [final] ∧
        Forall (λ x, requested x ≠ []) earlier ∧
        requested final = [] ∧
        Agent.answer r = Agent.content final)
     ∨
     (Agent.error r = Some "Max iterations reached" ∧
      length responses = 3%nat ∧
      Forall (λ x, requested x ≠ []) responses ∧
      Agent.data r = None ∧
      Agent.answer r = Some apology)).
Proof.
  cbv zeta.
  destruct (run_agent_spec user_question conversation_history model s)
    as (res & s' & new' & new_calls & E & Hr & _ & _ & _ & _ & _ & _ & _ & _
        & Hok).
  rewrite E. simpl. intros -> Hnew. rewrite Hr in Hnew.
  apply app_inv_head in Hnew as <-.
  destruct (Hok r eq_refl) as (responses & Hans & _ & _ & _ & Hcases).
  by exists responses.
Qed.

(** X24. The usage [run_agent] reports is the sum, over the responses it
    received, of the usage each one declares; a response that declares none
    adds nothing. *)
Theorem run_agent_usage_law (user_question : string)
    (conversation_history : option (list Agent.Message)) (model : option string)
    (s : Agent.Session) (r : Agent.Result) (new : list Agent.Request) :
  let run := Agent.run_agent env services PROJECT_ID DATASET_ID CREDENTIALS_PATH
               OPENAI_MODEL user_question conversation_history model s in
  run.1 = Ok r →
  Agent.requests run.2 = Agent.requests s ++ new →
  ∃ responses,
    answers services (Agent.requests s) new = inr <$> responses ∧
    let declared := omap Agent.usage responses in
    Agent.prompt_tokens (Agent.result_usage r)
    = foldr Z.add 0 (Agent.prompt_tokens <$> declared) ∧
    Agent.completion_tokens (Agent.result_usage r)
    = foldr Z.add 0 (Agent.completion_tokens <$> declared) ∧
    Agent.total_tokens (Agent.result_usage r)
    = foldr Z.add 0 (Agent.total_tokens <$> declared).
Proof.
  cbv zeta.
  destruct (run_agent_spec user_question conversation_history model s)
    as (res & s' & new' & new_calls & E & Hr & _ & _ & _ & _ & _ & _ & _ & _
        & Hok).
  rewrite E. simpl. intros -> Hnew. rewrite Hr in Hnew.
  apply app_inv_head in Hnew as <-.
  destruct (Hok r eq_refl) as (responses & Hans & -> & _).
  exists responses. split; [done|]. unfold total_usage.
  destruct (track_usage_sum responses (Agent.mkUsage 0 0 0)) as (H1 & H2 & H3).
  rewrite H1, H2, H3. simpl. by repeat split.
Qed.

(** X25. Every query [run_agent] hands to [execute_sql] is the [sql_query]
    argument of a tool call named [execute_bigquery_sql] in a response of
    the model.  The [sql_query] of the result is the last query executed,
    [None] when none was, and the result carries data only with a query. *)
Theorem run_agent_queries_law (user_question : string)
    (conversation_history : option (list Agent.Message)) (model : option string)
    (s : Agent.Session) :
  let run := Agent.run_agent env services PROJECT_ID DATASET_ID CREDENTIALS_PATH
               OPENAI_MODEL user_question conversation_history model s in
  ∃ new new_calls,
    Agent.requests run.2 = Agent.requests s ++ new ∧
    calls (Agent.world run.2) = calls (Agent.world s) ++ new_calls ∧
    Forall (λ q, ∃ response tool_call,
                inr response ∈ answers services (Agent.requests s) new ∧
                tool_call ∈ requested response ∧
                query_of services tool_call = Some q)
      (executed new_calls) ∧
    ∀ r, run.1 = Ok r →
      Agent.sql_query r = last (executed new_calls) ∧
      (is_Some (Agent.data r) → is_Some (Agent.sql_query r)).
Proof.
  cbv zeta.
  destruct (run_agent_spec user_question conversation_history model s)
    as (res & s' & new & new_calls & E & Hr & _ & _ & _ & _ & _ & _ & Hc & Hq
        & Hok).
  exists new, new_calls. rewrite E. simpl. do 3 (split; [done|]).
  intros r ->. destruct (Hok r eq_refl) as (responses & _ & _ & Hs & Hd & _).
  done.
Qed.

End AgentRun.

Lemma example_turn_eq :
  ∃ r s',
    example_turn = (Ok r, s') ∧
    Agent.answer r = Some "There are two titles." ∧
    Agent.sql_query r = Some "SELECT tconst, averageRating FROM t" ∧
    Agent.data r = Some frame ∧
    length (Agent.requests s') = 2%nat.
Proof. eexists _, _. split; [vm_compute; reflexivity|]. by repeat split. Qed.

Lemma run_agent_result_law_witness :
  ∃ r new,
    example_turn.1 = Ok r ∧
    Agent.requests example_turn.2 = [] ++ new ∧
    ∃ responses,
      answers example_services [] new = inr <$> responses ∧
      ((Agent.error r = None ∧
        ∃ earlier final,
          responses = earlier ++ [final] ∧
          Forall (λ x, requested x ≠ []) earlier ∧
          requested final = [] ∧
          Agent.answer r = Agent.content final)
       ∨
       (Agent.error r = Some "Max iterations reached" ∧
        length responses = 3%nat ∧
        Forall (λ x, requested x ≠ []) responses ∧
        Agent.data r = None ∧
        Agent.answer r = Some apology)).
Proof.
  eexists _, _. split; [vm_compute; reflexivity|].
  split; [vm_compute; reflexivity|].
  apply (run_agent_result_law good_env example_services "imdb-analytics"
           "silver" "./credentials.json" "gpt-4o" "How many titles are there?"
           None None (Agent.mkSession fresh []));
    vm_compute; reflexivity.
Defined.

Lemma run_agent_usage_law_witness :
  ∃ r new,
    example_turn.1 = Ok r ∧
    Agent.requests example_turn.2 = [] ++ new ∧
    ∃ responses,
      answers example_services [] new = inr <$> responses ∧
      let declared := omap Agent.usage responses in
      Agent.prompt_tokens (Agent.result_usage r)
      = foldr Z.add 0 (Agent.prompt_tokens <$> declared) ∧
      Agent.completion_tokens (Agent.result_usage r)
      = foldr Z.add 0 (Agent.completion_tokens <$> declared) ∧
      Agent.total_tokens (Agent.result_usage r)
      = foldr Z.add 0 (Agent.total_tokens <$> declared).
Proof.
  eexists _, _. split; [vm_compute; reflexivity|].
  split; [vm_compute; reflexivity|].
  apply (run_agent_usage_law good_env example_services "imdb-analytics"
           "silver" "./credentials.json" "gpt-4o" "How many titles are there?"
           None None (Agent.mkSession fresh []));
    vm_compute; reflexivity.
Defined.

(** ** The order of the stages *)

Ltac stage_order_tac :=
  simpl;
  repeat match goal with
         | H : calls ?x = _ |- context [calls ?x] => rewrite H
         end;
  rewrite <- ?app_assoc; simpl; rewrite <- ?app_assoc; simpl;
  rewrite ?app_nil_r;
  repeat split; try done; try (by constructor).

Section StageOrder.

Context (env : Env) (cfg : Config.t).

Lemma publish_and_load_eq table skip_bigquery w :
  publish_and_load env cfg table skip_bigquery w =
  match upload_to_gcs env cfg (parquet_path_of cfg table)
          (Config.get_gcs_path table) None w with
  | (Raise e, w1) => (Raise e, w1)
  | (Ok gcs_uri, w1) =>
      match (if negb skip_bigquery then
               load_to_bigquery env cfg gcs_uri (Config.bronze_dataset cfg)
                 (Config.get_table_id table) "WRITE_TRUNCATE"
             else log INFO (Text "Skipping BigQuery load (--skip-bigquery flag)"))
              w1 with
      | (Raise e, w2) => (Raise e, w2)
      | (Ok _, w2) =>
          (Ok true,
           mkWorld (fs w2) (calls w2 ++ [process_table_return table true])
             (logs w2 ++ [(INFO, Successfully_processed table)]))
      end
  end.
Proof.
  unfold publish_and_load. rewrite bind_eq.
  destruct (upload_to_gcs env cfg _ _ None w) as [[gcs_uri|e] w1]; [|done].
  rewrite bind_eq.
  match goal with |- context [(if ?b then ?x else ?y) w1] =>
    destruct ((if b then x else y) w1) as [[[]|e] w2] end; [|done].
  by rewrite bind_log, bind_call.
Qed.

(** The calls of a stage that may be skipped. *)
Lemma optional_stage_calls {A} (k : Kind) (b : bool) (stage skip : M A) w :
  steps (grows (λ c, kind c = k)) stage →
  (∀ w0, calls (skip w0).2 = calls w0) →
  ∃ new,
    calls ((if b then stage else skip) w).2 = calls w ++ new ∧
    Forall (λ c, kind c = k) new.
Proof.
  intros Hs Hk. destruct b.
  - destruct (Hs w) as [_ (new & E & F)]. by exists new.
  - exists []. by rewrite Hk, app_nil_r.
Qed.

(** X28. [process_table] runs its stages in order and none twice: after
    entering, its calls are those of the fetch stage, then those of the
    transform stage, then those of the publish stage, then those of the
    load stage, then its return.  The load stage runs only after the
    publish stage, and a table is reported successful only after the
    publish stage and, unless [skip_bigquery] is set, the load stage ran. *)
Theorem stage_order_law (table : string) (force_download skip_bigquery : bool)
    (w : World) :
  ∃ b fetch transform publish load,
    (process_table env cfg table force_download skip_bigquery w).1 = Ok b ∧
    calls (process_table env cfg table force_download skip_bigquery w).2
    = calls w
      ++ process_table_call table force_download skip_bigquery
      :: fetch ++ transform ++ publish ++ load
      ++ [process_table_return table b] ∧
    Forall (λ c, kind c = Fetch) fetch ∧
    Forall (λ c, kind c = Transform) transform ∧
    Forall (λ c, kind c = Publish) publish ∧
    Forall (λ c, kind c = Load) load ∧
    (load ≠ [] → publish ≠ []) ∧
    (b = true → publish ≠ [] ∧ (skip_bigquery = false → load ≠ [])).
Proof.
  rewrite process_table_eq, process_table_try_eq.
  set (w0 := entered table force_download skip_bigquery w).
  assert (Hw0 : calls w0
                = calls w ++ [process_table_call table force_download skip_bigquery])
    by done.
  (* fetch *)
  destruct (optional_stage_calls Fetch
              (stage_needed force_download (raw_path_of cfg table) w0)
              (download_file env
                 (Config.base_url cfg +:+ Config.get_table_filename table)
                 (raw_path_of cfg table) 8192)
              (log INFO (Skipping_download (raw_path_of cfg table))) w0)
    as (fetch & E1 & F1).
  { by apply steps_download_file. }
  { done. }
  match goal with |- context [(if ?b then ?x else ?y) w0] =>
    destruct ((if b then x else y) w0) as [[[]|e] w1] end; simpl in E1.
  2: { exists false, fetch, [], [], []. stage_order_tac. }
  (* transform *)
  destruct (optional_stage_calls Transform
              (stage_needed force_download (parquet_path_of cfg table) w1)
              (convert_to_parquet env (raw_path_of cfg table)
                 (parquet_path_of cfg table) "snappy")
              (log INFO (Skipping_conversion (parquet_path_of cfg table))) w1)
    as (transform & E2 & F2).
  { by apply steps_convert_to_parquet. }
  { done. }
  match goal with |- context [(if ?b then ?x else ?y) w1] =>
    destruct ((if b then x else y) w1) as [[[]|e] w2] end; simpl in E2.
  2: { exists false, fetch, transform, [], []. stage_order_tac. }
  (* publish *)
  rewrite publish_and_load_eq.
  destruct (upload_to_gcs_shape env cfg (parquet_path_of cfg table)
              (Config.get_gcs_path table) None w2) as (rest3 & E3 & F3).
  destruct (upload_to_gcs env cfg _ _ None w2) as [[gcs_uri|e] w3]; simpl in E3.
  2: { exists false, fetch, transform, (upload_to_gcs_call
              (parquet_path_of cfg table) (Config.get_gcs_path table) :: rest3), [].
       stage_order_tac. }
  (* load *)
  destruct skip_bigquery; cbn [negb].
  - exists true, fetch, transform, (upload_to_gcs_call
              (parquet_path_of cfg table) (Config.get_gcs_path table) :: rest3), [].
    stage_order_tac.
  - destruct (load_to_bigquery_shape env cfg gcs_uri (Config.bronze_dataset cfg)
                (Config.get_table_id table) "WRITE_TRUNCATE" w3)
      as (rest4 & E4 & F4).
    destruct (load_to_bigquery env cfg gcs_uri _ _ _ w3) as [[[]|e] w4];
      simpl in E4.
    + exists true, fetch, transform, (upload_to_gcs_call
              (parquet_path_of cfg table) (Config.get_gcs_path table) :: rest3),
        (load_to_bigquery_call gcs_uri (Config.bronze_dataset cfg)
           (Config.get_table_id table) "WRITE_TRUNCATE" :: rest4).
      stage_order_tac.
    + exists false, fetch, transform, (upload_to_gcs_call
              (parquet_path_of cfg table) (Config.get_gcs_path table) :: rest3),
        (load_to_bigquery_call gcs_uri (Config.bronze_dataset cfg)
           (Config.get_table_id table) "WRITE_TRUNCATE" :: rest4).
      stage_order_tac.
Qed.

End StageOrder.

(** ** The requests of the query tool *)

Section QueryCalls.

Context (env : Env) (CREDENTIALS_PATH : Path).

(** X27. [execute_sql] changes no local file.  It sends at most one query
    to the warehouse, the one it was given, and none when the credentials
    file is missing or rejected, in which case the result is a failure; a
    successful result means the query was sent. *)
Theorem execute_sql_calls_law (sql_query : string) (w : World) :
  ∃ result extra,
    execute_sql env CREDENTIALS_PATH sql_query w
    = (Ok result,
       mkWorld (fs w) (calls w ++ execute_sql_call sql_query :: extra) (logs w)) ∧
    (extra = [] ∨ extra = [query_call sql_query]) ∧
    (success result = true → extra = [query_call sql_query]) ∧
    (fs w !! CREDENTIALS_PATH = None → extra = [] ∧ success result = false) ∧
    (∀ content e,
       fs w !! CREDENTIALS_PATH = Some content →
       credentials_from_file env (calls w ++ [execute_sql_call sql_query]) content
       = Some e →
       extra = [] ∧ success result = false).
Proof.
  unfold execute_sql. rewrite bind_call, try_except_Exception.
  unfold execute_sql_try, tool_get_bigquery_client.
  unfold mbind, M_bind, mret, M_ret, get_fs, get_calls, call, raise, lift_sum,
    lift_err. simpl.
  destruct (fs w !! CREDENTIALS_PATH) as [content|]; simpl.
  2: { eexists _, []. split; [reflexivity|]. simpl. split; [by left|].
       by repeat split. }
  destruct (credentials_from_file env _ content) eqn:Hc; simpl.
  { eexists _, []. split; [reflexivity|]. simpl. split; [by left|].
    by repeat split. }
  destruct (bq_query env _ sql_query) as [e|job]; simpl.
  { eexists _, [_]. rewrite <- app_assoc. split; [reflexivity|]. simpl.
    split; [by right|]. split; [done|]. split; [done|].
    intros c e' [= <-]. congruence. }
  destruct (query_result job) as [e|df]; simpl;
    eexists _, [_]; rewrite <- app_assoc; (split; [reflexivity|]); simpl;
    (split; [by right|]); (split; [done|]); (split; [done|]);
    intros c e' [= <-]; congruence.
Qed.

End QueryCalls.

(** * Stage errors *)

Section StageErrors.

Context (env : Env) (cfg : Config.t).

Lemma fetched_eq table force_download w w1 :
  fetched env cfg table force_download w w1 ↔
  (if stage_needed force_download (raw_path_of cfg table) w
   then download_file env
          (Config.base_url cfg +:+ Config.get_table_filename table)
          (raw_path_of cfg table) 8192
   else log INFO (Skipping_download (raw_path_of cfg table))) w = (Ok tt, w1).
Proof.
  unfold fetched. destruct (stage_needed _ _ w); [done|].
  unfold log, with_logs. split; [by intros ->|by intros [= <-]].
Qed.

Lemma converted_eq table force_download w w1 :
  converted env cfg table force_download w w1 ↔
  (if stage_needed force_download (parquet_path_of cfg table) w
   then convert_to_parquet env (raw_path_of cfg table)
          (parquet_path_of cfg table) "snappy"
   else log INFO (Skipping_conversion (parquet_path_of cfg table))) w
  = (Ok tt, w1).
Proof.
  unfold converted. destruct (stage_needed _ _ w); [done|].
  unfold log, with_logs. split; [by intros ->|by intros [= <-]].
Qed.

(** [process_table] from the publish stage on, once the first two stages
    have returned or been skipped. *)
Lemma process_table_after_stages table force_download skip_bigquery w w1 w2 :
  fetched env cfg table force_download
    (entered table force_download skip_bigquery w) w1 →
  converted env cfg table force_download w1 w2 →
  process_table env cfg table force_download skip_bigquery w =
  match publish_and_load env cfg table skip_bigquery w2 with
  | (Ok b, w3) => (Ok b, w3)
  | (Raise e, w3) => (Ok false, failed_with table e w3)
  end.
Proof.
  intros Hf%fetched_eq Hc%converted_eq.
  rewrite process_table_eq, process_table_try_eq. by rewrite Hf, Hc.
Qed.

(** C8. [process_table] always returns a boolean.  When the download, the
    conversion, the upload or the load raises, in the state in which
    [process_table] reaches it, the error is logged and the value is
    [False]; the value is [True] only when every stage that ran returned.
    [main] always ends with an exit status; a configuration error ends it
    with status 2 before any call is made or any file touched. *)
Theorem errors_become_failures (table : string)
    (force_download skip_bigquery : bool) (w : World) :
  let w0 := entered table force_download skip_bigquery w in
  let run := process_table env cfg table force_download skip_bigquery w in
  let url := Config.base_url cfg +:+ Config.get_table_filename table in
  let upload :=
    upload_to_gcs env cfg (parquet_path_of cfg table) (Config.get_gcs_path table)
      None in
  let load gcs_uri :=
    load_to_bigquery env cfg gcs_uri (Config.bronze_dataset cfg)
      (Config.get_table_id table) "WRITE_TRUNCATE" in
  (∃ b w', run = (Ok b, w')) ∧
  (∀ e w1,
     force_download = true ∨ fs w !! raw_path_of cfg table = None →
     download_file env url (raw_path_of cfg table) 8192 w0 = (Raise e, w1) →
     run = (Ok false, failed_with table e w1)) ∧
  (∀ w1 e w2,
     fetched env cfg table force_download w0 w1 →
     force_download = true ∨ fs w1 !! parquet_path_of cfg table = None →
     convert_to_parquet env (raw_path_of cfg table) (parquet_path_of cfg table)
       "snappy" w1 = (Raise e, w2) →
     run = (Ok false, failed_with table e w2)) ∧
  (∀ w1 w2 e w3,
     fetched env cfg table force_download w0 w1 →
     converted env cfg table force_download w1 w2 →
     upload w2 = (Raise e, w3) →
     run = (Ok false, failed_with table e w3)) ∧
  (∀ w1 w2 gcs_uri w3 e w4,
     fetched env cfg table force_download w0 w1 →
     converted env cfg table force_download w1 w2 →
     upload w2 = (Ok gcs_uri, w3) →
     skip_bigquery = false →
     load gcs_uri w3 = (Raise e, w4) →
     run = (Ok false, failed_with table e w4)) ∧
  (run.1 = Ok true →
   ∃ w1 w2 gcs_uri w3,
     fetched env cfg table force_download w0 w1 ∧
     converted env cfg table force_download w1 w2 ∧
     upload w2 = (Ok gcs_uri, w3) ∧
     (skip_bigquery = false → ∃ w4, load gcs_uri w3 = (Ok tt, w4))) ∧
  (∀ cli fail_fast cleanup dry_run verbose,
     ∃ status w',
       main env cfg force_download skip_bigquery cli fail_fast cleanup dry_run
         verbose w = (Ok status, w')) ∧
  (∀ cli fail_fast cleanup dry_run verbose e,
     Config.validate cfg w = (Raise e, w) →
     main env cfg force_download skip_bigquery cli fail_fast cleanup dry_run
       verbose w = (Ok 2, with_logs w [(ERROR, Configuration_error e)])).
Proof.
  cbv zeta.
  assert (Hneed : ∀ p w1,
            force_download = true ∨ fs w1 !! p = None →
            stage_needed force_download p w1 = true).
  { intros p w1 [->|Hn]; [done|]. unfold stage_needed. rewrite Hn.
    rewrite bool_decide_eq_false_2 by (by intros [? ?]).
    by destruct force_download. }
  split; [|split; [|split; [|split; [|split; [|split; [|split]]]]]].
  - destruct (process_table_shape env cfg table force_download skip_bigquery w)
      as (b & w' & _ & E & _). by exists b, w'.
  - intros e w1 Hn E. rewrite process_table_eq, process_table_try_eq.
    rewrite (Hneed _ (entered table force_download skip_bigquery w) Hn).
    by rewrite E.
  - intros w1 e w2 Hf%fetched_eq Hn E.
    rewrite process_table_eq, process_table_try_eq, Hf.
    rewrite (Hneed _ _ Hn). by rewrite E.
  - intros w1 w2 e w3 Hf Hc E.
    rewrite (process_table_after_stages _ _ _ _ _ _ Hf Hc).
    by rewrite publish_and_load_eq, E.
  - intros w1 w2 gcs_uri w3 e w4 Hf Hc Eu -> El.
    rewrite (process_table_after_stages _ _ _ _ _ _ Hf Hc).
    rewrite publish_and_load_eq, Eu. cbn [negb]. by rewrite El.
  - rewrite process_table_eq, process_table_try_eq.
    match goal with |- context [(if ?b then ?x else ?y) ?w0] =>
      destruct ((if b then x else y) w0) as [[[]|e] w1] eqn:E1 end; [|done].
    apply fetched_eq in E1.
    match goal with |- context [(if ?b then ?x else ?y) w1] =>
      destruct ((if b then x else y) w1) as [[[]|e] w2] eqn:E2 end; [|done].
    apply converted_eq in E2.
    rewrite publish_and_load_eq.
    destruct (upload_to_gcs env cfg _ _ None w2) as [[gcs_uri|e] w3] eqn:E3;
      [|done].
    destruct skip_bigquery; cbn [negb].
    + intros _. exists w1, w2, gcs_uri, w3. by repeat split.
    + destruct (load_to_bigquery env cfg gcs_uri _ _ _ w3) as [[[]|e] w4] eqn:E4;
        [|done].
      intros _. exists w1, w2, gcs_uri, w3. repeat split; try done.
      intros _. by exists w4.
  - intros cli fail_fast cleanup dry_run verbose.
    destruct (validate_cases cfg w) as [E|(e & E & _)].
    + destruct dry_run.
      * destruct (main_dry_run env cfg force_download skip_bigquery cli fail_fast
                    cleanup verbose w E) as (w' & Em & _). by eexists _, _.
      * rewrite (main_validate_ok _ _ _ _ _ _ _ _ _ E).
        apply run_pipeline_returns.
    + erewrite main_validate_error by exact E. by eexists _, _.
  - intros cli fail_fast cleanup dry_run verbose e E.
    by apply main_validate_error.
Qed.

End StageErrors.

Lemma errors_become_failures_witness :
  (∃ e w1,
     process_table offline_env Config.defaults "title.ratings" false false fresh
     = (Ok false, failed_with "title.ratings" e w1) ∧
     exn_class e = RequestException) ∧
  (∃ e w3,
     process_table upload_fails_env Config.defaults "title.ratings" false false
       fresh
     = (Ok false, failed_with "title.ratings" e w3) ∧
     exn_class e = GoogleCloudError) ∧
  Config.validate Config.defaults bare
  = (Raise (mkExn FileNotFoundError
       ("Credentials file not found: ./credentials.json" +:+ newline
        +:+ "Please download your service account key from GCP Console and "
        +:+ "place it at this location.")), bare) ∧
  ∃ e, main good_env Config.defaults false false [] false false false false bare
       = (Ok 2, with_logs bare [(ERROR, Configuration_error e)]).
Proof.
  split; [|split].
  - pose proof (errors_become_failures offline_env Config.defaults
                  "title.ratings" false false fresh) as Hlaw.
    cbv zeta in Hlaw. apply proj2, proj1 in Hlaw.
    eexists _, _. split.
    + apply Hlaw; [by right|vm_compute; reflexivity].
    + reflexivity.
  - pose proof (errors_become_failures upload_fails_env Config.defaults
                  "title.ratings" false false fresh) as Hlaw.
    cbv zeta in Hlaw. apply proj2, proj2, proj2, proj1 in Hlaw.
    eexists _, _. split.
    + eapply Hlaw; [vm_compute; reflexivity|vm_compute; reflexivity
                   |vm_compute; reflexivity].
    + reflexivity.
  - assert (H : Config.validate Config.defaults bare
                = (Raise (mkExn FileNotFoundError
                     ("Credentials file not found: ./credentials.json" +:+ newline
                      +:+ "Please download your service account key from GCP Console and "
                      +:+ "place it at this location.")), bare))
      by (vm_compute; reflexivity).
    split; [exact H|]. eexists.
    pose proof (errors_become_failures good_env Config.defaults "name.basics"
                  false false bare) as Hlaw.
    cbv zeta in Hlaw. do 7 apply proj2 in Hlaw.
    exact (Hlaw [] false false false false _ H).
Defined.
